(** * Forecast evaluation pipeline of [evaluate_models_cases.py]

    A shallow embedding of the forecast alignment and scoring pipeline:
    the file selector [find_last_projections], the location universe, the
    truth loader, the forecast normalizer, the model merger and the scorer
    steps of [main].

    Conventions of the embedding.
    - A [datetime.date] is its proleptic Gregorian ordinal (what
      [date.toordinal] returns); date comparison and subtraction are the
      integer ones, as in CPython.
    - A float64 cell of a pandas table is an [option Q]: [None] is NaN,
      [Some q] a finite value.  Rounding and infinities are not modelled.
    - A raised exception (a failed [assert], a [KeyError], a [ValueError]
      that nothing catches) ends the run: [Abort].
    - A pandas table is a list of labelled rows in index order. *)

From Stdlib Require Import ZArith QArith Qabs List String Ascii Bool Lia.
From Stdlib Require Import Orders Mergesort Permutation.
Import ListNotations.

Set Implicit Arguments.

(** ** Runs that may abort *)

Inductive outcome (A : Type) : Type :=
| Done (a : A)
| Abort (msg : string).

Arguments Done {A} a.
Arguments Abort {A} msg.

Definition bind {A B : Type} (r : outcome A) (k : A -> outcome B) : outcome B :=
  match r with
  | Done a => k a
  | Abort msg => Abort msg
  end.

Definition assert (b : bool) (msg : string) : outcome unit :=
  if b then Done tt else Abort msg.

Declare Scope run_scope.
Delimit Scope run_scope with run.
Notation "x <- c ;; k" := (bind c (fun x => k))
  (at level 61, c at next level, right associativity) : run_scope.
Notation "c ;;; k" := (bind c (fun _ => k))
  (at level 61, right associativity) : run_scope.

(** ** Calendar dates *)

Module Dates.
Local Open Scope Z_scope.

Definition date := Z.

Definition is_leap (y : Z) : bool :=
  (y mod 4 =? 0) && (negb (y mod 100 =? 0) || (y mod 400 =? 0)).

Definition days_before_year (y : Z) : Z :=
  let p := y - 1 in p * 365 + p / 4 - p / 100 + p / 400.

Definition days_in_month (y m : Z) : Z :=
  if m =? 2 then (if is_leap y then 29 else 28)
  else if (m =? 4) || (m =? 6) || (m =? 9) || (m =? 11) then 30
  else 31.

Definition days_before_month (y m : Z) : Z :=
  fold_left (fun acc k => acc + days_in_month y (Z.of_nat k))
            (seq 1 (Z.to_nat (m - 1))) 0.

Definition ymd2ord (y m d : Z) : date :=
  days_before_year y + days_before_month y m + d.

(** [datetime.date(y, m, d)]: a [ValueError] ([None]) outside the
    calendar. *)
Definition mkdate (y m d : Z) : option date :=
  if (1 <=? y) && (y <=? 9999) && (1 <=? m) && (m <=? 12)
     && (1 <=? d) && (d <=? days_in_month y m)
  then Some (ymd2ord y m d) else None.

(** *** [strptime(s, '%Y-%m-%d')]

    The format compiles to the regular expression
    [(\d\d\d\d)-(1[0-2]|0[1-9]|[1-9])-(3[0-1]|[1-2]\d|0[1-9]|[1-9]| [1-9])],
    matched at the start of the string with the alternatives tried from
    left to right; text left over after the match is a [ValueError].
    Strings are byte strings here, so [\d] is an ASCII digit. *)

Definition digit_val (c : ascii) : option Z :=
  let n := Z.of_nat (nat_of_ascii c) in
  if (48 <=? n) && (n <=? 57) then Some (n - 48) else None.

Definition digit_in (lo hi : Z) (c : ascii) : option Z :=
  match digit_val c with
  | Some v => if (lo <=? v) && (v <=? hi) then Some v else None
  | None => None
  end.

Definition parse := list ascii -> list (Z * list ascii).

(** one character in [lo-hi] after the fixed character [c0] *)
Definition two_chars (c0 : ascii) (lo hi : Z) : parse := fun s =>
  match s with
  | a :: b :: r =>
      match digit_val a, digit_in lo hi b with
      | Some va, Some vb =>
          if Ascii.eqb a c0 then [(10 * va + vb, r)] else []
      | _, _ => []
      end
  | _ => []
  end.

Definition one_char (lo hi : Z) : parse := fun s =>
  match s with
  | a :: r => match digit_in lo hi a with
              | Some v => [(v, r)]
              | None => []
              end
  | _ => []
  end.

Definition space_digit : parse := fun s =>
  match s with
  | a :: b :: r =>
      if Ascii.eqb a " "%char then
        match digit_in 1 9 b with
        | Some v => [(v, r)]
        | None => []
        end
      else []
  | _ => []
  end.

Definition re_Y : parse := fun s =>
  match s with
  | a :: b :: c :: d :: r =>
      match digit_val a, digit_val b, digit_val c, digit_val d with
      | Some va, Some vb, Some vc, Some vd =>
          [(1000 * va + 100 * vb + 10 * vc + vd, r)]
      | _, _, _, _ => []
      end
  | _ => []
  end.

Definition re_m : parse := fun s =>
  two_chars "1" 0 2 s ++ two_chars "0" 1 9 s ++ one_char 1 9 s.

Definition re_d : parse := fun s =>
  two_chars "3" 0 1 s ++ two_chars "1" 0 9 s ++ two_chars "2" 0 9 s
    ++ two_chars "0" 1 9 s ++ one_char 1 9 s ++ space_digit s.

Definition dash (s : list ascii) : list (list ascii) :=
  match s with
  | a :: r => if Ascii.eqb a "-"%char then [r] else []
  | [] => []
  end.

(** all the matches of the whole pattern, in backtracking order *)
Definition re_ymd (s : list ascii) : list (Z * Z * Z * list ascii) :=
  flat_map (fun '(y, r1) =>
    flat_map (fun r2 =>
      flat_map (fun '(m, r3) =>
        flat_map (fun r4 =>
          map (fun '(d, r5) => (y, m, d, r5)) (re_d r4))
        (dash r3))
      (re_m r2))
    (dash r1))
  (re_Y s).

(** [str_to_date(date_str)] with the default format; [None] is the
    [ValueError]. *)
Definition str_to_date (date_str : string) : option date :=
  match re_ymd (list_ascii_of_string date_str) with
  | (y, m, d, []) :: _ => mkdate y m d
  | _ => None
  end.
End Dates.

Import Dates.

(** ** File selector *)

Module FileSelector.
Local Open Scope Z_scope.

Fixpoint has_slash (s : string) : bool :=
  match s with
  | EmptyString => false
  | String c r => Ascii.eqb c "/"%char || has_slash r
  end.

(** [os.path.basename]: what follows the last slash *)
Fixpoint basename (s : string) : string :=
  match s with
  | EmptyString => EmptyString
  | String c r =>
      if has_slash r then basename r
      else if Ascii.eqb c "/"%char then r else s
  end.

(** [sorted(fnames) == fnames]: neighbours are in order *)
Fixpoint is_sorted (fnames : list string) : bool :=
  match fnames with
  | a :: (b :: _) as r => String.leb a b && is_sorted r
  | _ => true
  end.

(** [datetime.date(2020,7,20)] *)
Definition tolerance_change : date := ymd2ord 2020 7 20.

Definition days_tolerance (proj_date : date) : Z :=
  if tolerance_change <=? proj_date then 6 else 3.

(** [str_to_date(file_basename[:10])] *)
Definition file_date (fname : string) : option date :=
  str_to_date (substring 0 10 (basename fname)).

Definition selection : Type := option string * option date.

(** one iteration of the loop over [fnames], on the pair
    [(last_valid_fname, last_valid_date)] *)
Definition step (proj_date : date) (st : selection) (fname : string)
  : selection :=
  match file_date fname with
  | None => st
  | Some fd =>
      if (fd <=? proj_date) && (proj_date - fd <=? days_tolerance proj_date)
      then match snd st with
           | None => (Some fname, Some fd)
           | Some last_valid_date =>
               if last_valid_date <? fd then (Some fname, Some fd) else st
           end
      else st
  end.

Definition find_last_projections (fnames : list string) (proj_date : date)
  : outcome selection :=
  if is_sorted fnames
  then Done (fold_left (step proj_date) fnames (None, None))
  else Abort "Files not sorted".
End FileSelector.

Import FileSelector.

Local Open Scope string_scope.

(** ** Cells with missing values *)

Module Nan.
Local Open Scope Q_scope.

Definition cell := option Q.

Definition Qlt_bool (x y : Q) : bool := negb (Qle_bool y x).

Definition isnull (c : cell) : bool :=
  match c with None => true | Some _ => false end.

Definition notna (c : cell) : bool := negb (isnull c).

Definition nan_abs (c : cell) : cell := option_map Qabs c.

Definition nan_sub (a b : cell) : cell :=
  match a, b with
  | Some x, Some y => Some (x - y)
  | _, _ => None
  end.

(** comparisons with NaN are false *)
Definition nan_lt (a b : cell) : bool :=
  match a, b with
  | Some x, Some y => Qlt_bool x y
  | _, _ => false
  end.

Definition nan_eq (a b : cell) : bool :=
  match a, b with
  | Some x, Some y => Qeq_bool x y
  | _, _ => false
  end.

(** the values that are present *)
Definition present (l : list cell) : list Q :=
  flat_map (fun c => match c with Some q => [q] | None => [] end) l.

Definition Qsum (l : list Q) : Q := fold_right Qplus 0 l.

(** [Series.sum()]: missing values are skipped *)
Definition nansum (l : list cell) : Q := Qsum (present l).

(** [Series.mean()]: missing values are skipped, NaN if nothing is left *)
Definition nanmean (l : list cell) : cell :=
  match present l with
  | [] => None
  | vs => Some (Qsum vs / inject_Z (Z.of_nat (List.length vs)))
  end.
End Nan.

Import Nan.

(** ** Strings, dictionaries and tables *)

Module Tables.

(** [pat in s], which is what [str.contains(pat)] computes for a pattern
    without regular-expression operators *)
Fixpoint contains (pat s : string) : bool :=
  String.prefix pat s
  || match s with
     | EmptyString => false
     | String _ r => contains pat r
     end.

Definition isin (x : string) (l : list string) : bool :=
  existsb (String.eqb x) l.

(** A Python [dict] with string keys, in insertion order. *)
Definition dict (V : Type) := list (string * V).

Fixpoint dict_get {V} (k : string) (d : dict V) : option V :=
  match d with
  | [] => None
  | (k', v) :: r => if String.eqb k k' then Some v else dict_get k r
  end.

Fixpoint dict_set {V} (k : string) (v : V) (d : dict V) : dict V :=
  match d with
  | [] => [(k, v)]
  | (k', v') :: r =>
      if String.eqb k k' then (k', v) :: r else (k', v') :: dict_set k v r
  end.

Definition keys {V} (d : dict V) : list string := map fst d.

(** [d[k]], a [KeyError] when absent *)
Definition getitem {V} (k : string) (d : dict V) : outcome V :=
  match dict_get k d with
  | Some v => Done v
  | None => Abort ("KeyError: " ++ k)
  end.

Fixpoint traverse {A B} (f : A -> outcome B) (l : list A)
  : outcome (list B) :=
  match l with
  | [] => Done []
  | a :: r =>
      match f a with
      | Done b => match traverse f r with
                  | Done bs => Done (b :: bs)
                  | Abort msg => Abort msg
                  end
      | Abort msg => Abort msg
      end
  end.

Definition zip_with {A B C} (f : A -> B -> C) (l1 : list A) (l2 : list B)
  : list C :=
  map (fun p => f (fst p) (snd p)) (List.combine l1 l2).

(** A table of float cells: column labels and labelled rows. *)
Definition labelled := (string * list cell)%type.

Record frame := mkFrame { columns : list string; rows : list labelled }.

Definition rectangular (df : frame) : Prop :=
  forall r, In r (rows df) -> List.length (snd r) = List.length (columns df).

Definition rectangularb (df : frame) : bool :=
  forallb (fun r => Nat.eqb (List.length (snd r)) (List.length (columns df))) (rows df).

Fixpoint position (c : string) (cols : list string) : option nat :=
  match cols with
  | [] => None
  | c' :: r => if String.eqb c c' then Some O
               else option_map S (position c r)
  end.

Definition cell_at (j : nat) (r : labelled) : cell := nth j (snd r) None.

(** the cells of column number [j], in row order *)
Definition column (j : nat) (rs : list labelled) : list cell :=
  map (cell_at j) rs.

Fixpoint remove_nth {A} (j : nat) (l : list A) : list A :=
  match j, l with
  | _, [] => []
  | O, _ :: r => r
  | S j', a :: r => a :: remove_nth j' r
  end.

(** [df.drop(columns=[c])] *)
Definition drop_column (c : string) (df : frame) : outcome frame :=
  match position c (columns df) with
  | None => Abort ("KeyError: " ++ c)
  | Some j =>
      Done (mkFrame (remove_nth j (columns df))
                    (map (fun r => (fst r, remove_nth j (snd r))) (rows df)))
  end.

(** [df[c]] as a labelled series *)
Definition get_column (c : string) (df : frame) : outcome (dict cell) :=
  match position c (columns df) with
  | None => Abort ("KeyError: " ++ c)
  | Some j => Done (map (fun r => (fst r, cell_at j r)) (rows df))
  end.

(** [rows.mean(axis=0)]: one mean per column, over the rows *)
Definition mean_axis0 (width : nat) (rs : list labelled) : list cell :=
  map (fun j => nanmean (column j rs)) (seq 0 width).

(** [df.notna().sum(axis=1)] for one row *)
Definition count_notna (r : labelled) : nat :=
  List.length (filter notna (snd r)).
End Tables.

Import Tables.

(** ** Grouping *)

Module StringOrder <: TotalLeBool.
Definition t := string.
Definition leb := String.leb.
Definition leb_total : forall x y : t, leb x y = true \/ leb y x = true :=
  String.leb_total.
End StringOrder.

Module StringSort := Sort StringOrder.

(** the group labels of [groupby]: the distinct labels, sorted *)
Definition group_keys (labels : list string) : list string :=
  StringSort.sort (nodup string_dec labels).

(** ** Location universe (lines 116-137) *)

Module Locations.
Record row := mkRow
  { abbreviation : option string; location : string; location_name : string }.

Definition US_TERRITORIES : list string :=
  ["AS"; "GU"; "MP"; "PR"; "VI"; "UM"].

(** [fips_to_us_state] and [fips_to_evaluate] *)
Record universe := mkUniverse
  { fips_to_us_state : dict string; fips_to_evaluate : list string }.

(** [df_loc[~pd.isnull(df_loc['abbreviation'])]], each row with its
    abbreviation *)
Definition with_abbreviation (df_loc : list row) : list (string * row) :=
  flat_map (fun r => match abbreviation r with
                     | Some a => [(a, r)]
                     | None => []
                     end) df_loc.

(** [df_loc.set_index('abbreviation')[col].to_dict()] *)
Definition to_dict (col : row -> string) (df_loc : list (string * row))
  : dict string :=
  fold_left (fun d ar => dict_set (fst ar) (col (snd ar)) d) df_loc [].

(** the body of the loop that adds the leading 0 *)
Definition add_leading_zero (v : string) : string :=
  if Nat.eqb (String.length v) 1 then "0" ++ v else v.

Definition states_universe (df_loc_raw : list row) : outcome universe :=
  let df_loc := with_abbreviation df_loc_raw in
  let abbr_to_location_name := to_dict location_name df_loc in
  let abbr_to_fips := to_dict location df_loc in
  (assert (isin "US" (keys abbr_to_location_name)) "Missing US location name" ;;;
   assert (Nat.eqb (List.length df_loc) 58) "Missing locations" ;;;
   let abbr_to_fips :=
     map (fun kv => (fst kv, add_leading_zero (snd kv))) abbr_to_fips in
   fips_to_us_state <-
     fold_left (fun acc kv =>
                  d <- acc ;;
                  name <- getitem (fst kv) abbr_to_location_name ;;
                  Done (dict_set (snd kv) name d))
               abbr_to_fips (Done []) ;;
   let regions_to_evaluate :=
     filter (fun s => negb (isin s US_TERRITORIES))
            (keys abbr_to_location_name) in
   fips_to_evaluate <-
     traverse (fun x => if String.eqb x "US" then Done "US"
                        else getitem x abbr_to_fips)
              regions_to_evaluate ;;
   Done (mkUniverse fips_to_us_state fips_to_evaluate))%run.

Definition counties_universe (df_loc_raw : list row) : outcome universe :=
  let df_loc :=
    filter (fun r => match abbreviation r with
                     | None => true
                     | Some _ => String.eqb (location r) "US"
                     end) df_loc_raw in
  let fips_to_us_state :=
    fold_left (fun d r => dict_set (location r) (location r) d) df_loc [] in
  let fips_to_evaluate :=
    filter (fun i => negb (String.eqb i "11001")) (keys fips_to_us_state) in
  Done (mkUniverse fips_to_us_state fips_to_evaluate).

End Locations.

(** ** Truth loader (lines 110, 176-186) *)

Module Truth.
Local Open Scope Z_scope.

Record row := mkRow
  { date : Dates.date; location : string; daily_cases : cell }.

Definition in_window (model_ran_date eval_date : Dates.date) (r : row)
  : bool :=
  (model_ran_date <=? date r) && (date r <=? eval_date).

Definition at_location (l : string) (df : list row) : list row :=
  filter (fun r => String.eqb (location r) l) df.

(** [df.groupby('location')['daily_cases'].sum()] *)
Definition groupby_sum (df : list row) : dict Q :=
  map (fun l => (l, nansum (map daily_cases (at_location l df))))
      (group_keys (map location df)).

Record loaded := mkLoaded { df_truth_filt : dict Q; us_truth : Q }.

(** the rows from the day before the projection date to the evaluation
    date *)
Definition window (proj_date eval_date : Dates.date) (df_truth_raw : list row)
  : list row :=
  let model_ran_date := proj_date - 1 in
  filter (in_window model_ran_date eval_date) df_truth_raw.

Definition truth_loader (df_truth_raw : list row)
           (proj_date eval_date : Dates.date)
           (fips_to_evaluate : list string) : outcome loaded :=
  let df_truth := window proj_date eval_date df_truth_raw in
  (assert (Nat.ltb 0 (List.length df_truth))
          "No truth data available for eval date" ;;;
   let df_truth := groupby_sum df_truth in
   let df_truth_filt :=
     filter (fun kv => isin (fst kv) fips_to_evaluate) df_truth in
   assert (Nat.eqb (List.length df_truth_filt) (List.length fips_to_evaluate))
          "Missing FIPS in truth" ;;;
   us_truth <- getitem "US" df_truth_filt ;;
   Done (mkLoaded df_truth_filt us_truth))%run.
End Truth.

(** ** Forecast normalizer (lines 226-287) *)

Module Forecast.
Local Open Scope Z_scope.

Record row := mkRow
  { forecast_date : Dates.date;
    target : string;
    target_end_date : Dates.date;
    location : string;
    type : string;
    quantile : cell;
    value : cell }.

Definition target_str : string := "wk ahead inc case".

(** [df['target'].str.contains('wk ahead inc case')] *)
Definition inc_case (r : row) : bool := contains target_str (target r).

Definition at_location (l : string) (df : list row) : list row :=
  filter (fun r => String.eqb (location r) l) df.

(** [df.groupby('location').size()] *)
Definition group_sizes (df : list row) : dict nat :=
  map (fun l => (l, List.length (at_location l df)))
      (group_keys (map location df)).

Definition unique (sizes : dict nat) : list nat :=
  nodup Nat.eq_dec (map snd sizes).

Definition max_size (sizes : dict nat) : nat :=
  fold_right Nat.max O (map snd sizes).

(** lines 241-248: locations with fewer rows than the largest group are
    left out *)
Definition complete_horizons (df_model : list row) : outcome (list row) :=
  let location_quantile_sizes := group_sizes (filter inc_case df_model) in
  let '(df_model, location_quantile_sizes) :=
    if Nat.ltb 1 (List.length (unique location_quantile_sizes)) then
      let inc := filter inc_case df_model in
      let df_model :=
        filter (fun r => Nat.eqb (List.length (at_location (location r) inc))
                                 (max_size location_quantile_sizes)) inc in
      (df_model, group_sizes (filter inc_case df_model))
    else (df_model, location_quantile_sizes) in
  (assert (Nat.eqb (List.length (unique location_quantile_sizes)) 1)
          "location_quantile_sizes" ;;;
   Done df_model)%run.

Definition is_point (r : row) : bool := String.eqb (type r) "point".

Definition is_median (r : row) : bool := nan_eq (quantile r) (Some (1 # 2)%Q).

Definition has_point (df_model : list row) : bool :=
  Nat.ltb 0 (List.length (filter is_point df_model)).

Definition has_median (df_model : list row) : bool :=
  Nat.ltb 0 (List.length (filter is_median df_model)).

(** lines 252-268 *)
Definition select_estimate (use_point : bool) (fips_to_evaluate : list string)
           (df_model : list row) : list row :=
  if has_point df_model && (use_point || negb (has_median df_model)) then
    filter (fun r => inc_case r && is_point r
                     && isin (location r) fips_to_evaluate) df_model
  else
    filter (fun r => inc_case r && is_median r
                     && isin (location r) fips_to_evaluate) df_model.

(** [df.groupby('location')['value'].sum()] *)
Definition groupby_sum (df : list row) : dict Q :=
  map (fun l => (l, nansum (map value (at_location l df))))
      (group_keys (map location df)).

Record projection := mkProjection
  { df_model_filt : list row;
    num_locations : nat;
    df_model_filt_values : dict Q;
    us_projection : cell }.

(** One model, from the rows of its file to its totals per location;
    [Done None] is a model that is skipped.  The rows are those of a file
    whose locations are all strings: the check of lines 227-228 is
    [string_locations] below, and [normalize_file] runs it first. *)
Definition normalize (df_model_raw : list row) (eval_date : Dates.date)
           (use_point : bool) (u : Locations.universe)
  : outcome (option projection) :=
  let df_model := filter (fun r => target_end_date r <=? eval_date) df_model_raw in
  if Nat.eqb (List.length (filter inc_case df_model)) 0 then Done None
  else if Nat.eqb (List.length
                     (filter (fun r => inc_case r
                                       && (target_end_date r =? eval_date))
                             df_model)) 0
  then Done None
  else
    (df_model <- complete_horizons df_model ;;
     let df_model_filt :=
       select_estimate use_point (Locations.fips_to_evaluate u) df_model in
     let num_locations :=
       List.length (nodup string_dec (map location df_model_filt)) in
     assert (Nat.leb num_locations
                     (List.length (Locations.fips_to_us_state u)))
            "num_locations" ;;;
     if Nat.eqb (List.length df_model_filt) 0 then Done None
     else
       let df_model_filt_values := groupby_sum df_model_filt in
       Done (Some (mkProjection df_model_filt num_locations
                                df_model_filt_values
                                (dict_get "US" df_model_filt_values))))%run.

(** A row as [read_csv] gives it under [dtype={'location' : str}]: the
    location is a string, or NaN ([None]) where the field is empty. *)
Module Raw.
Record row := mkRow
  { forecast_date : Dates.date;
    target : string;
    target_end_date : Dates.date;
    location : option string;
    type : string;
    quantile : cell;
    value : cell }.
End Raw.

(** [isinstance(x, str)] *)
Definition isinstance_str (x : option string) : bool :=
  match x with
  | Some _ => true
  | None => false
  end.

(** the rows whose location is a string, each with that string *)
Definition str_rows (df : list Raw.row) : list row :=
  flat_map (fun r => match Raw.location r with
                     | Some l => [mkRow (Raw.forecast_date r) (Raw.target r)
                                        (Raw.target_end_date r) l (Raw.type r)
                                        (Raw.quantile r) (Raw.value r)]
                     | None => []
                     end) df.

(** lines 226-228: the rows that end by the evaluation date must all
    have a string as their location *)
Definition string_locations (df_model_raw : list Raw.row)
           (eval_date : Dates.date) : outcome (list row) :=
  let df_model :=
    filter (fun r => Raw.target_end_date r <=? eval_date) df_model_raw in
  (assert (forallb (fun r => isinstance_str (Raw.location r)) df_model)
          "All FIPS locations must be a string" ;;;
   Done (str_rows df_model))%run.

(** lines 226-287 for the rows of a file as they are read: the check of
    the locations, then the steps of [normalize], whose date filter keeps
    all of the rows it is given here. *)
Definition normalize_file (df_model_raw : list Raw.row)
           (eval_date : Dates.date) (use_point : bool)
           (u : Locations.universe) : outcome (option projection) :=
  (df_model <- string_locations df_model_raw eval_date ;;
   normalize df_model eval_date use_point u)%run.
End Forecast.

(** ** Model merger (lines 307-323) *)

Module Merger.
Definition merge_models_prefixes : list string := ["Imperial"].

(** [df.index.str.contains(prefix)] *)
Definition mask (prefix : string) (r : labelled) : bool :=
  contains prefix (fst r).

Definition combined_name (prefix : string) : string := prefix ++ "-combined".

(** one of the two [if mask.sum() > 0] blocks *)
Definition merge_table (prefix : string) (df : frame) : frame :=
  if Nat.ltb 0 (List.length (filter (mask prefix) (rows df))) then
    let df_avg :=
      mean_axis0 (List.length (columns df)) (filter (mask prefix) (rows df)) in
    mkFrame (columns df)
            (filter (fun r => negb (mask prefix r)) (rows df)
               ++ [(combined_name prefix, df_avg)])
  else df.

(** the body of the loop, on [(df_errors, df_errors_us)] *)
Definition merge_prefix (tables : frame * frame) (prefix : string)
  : frame * frame :=
  (merge_table prefix (fst tables), merge_table prefix (snd tables)).

Definition merge (merge_models : bool) (df_errors df_errors_us : frame)
  : frame * frame :=
  if merge_models
  then fold_left merge_prefix merge_models_prefixes (df_errors, df_errors_us)
  else (df_errors, df_errors_us).
End Merger.

(** ** Scorer *)

Module Scorer.
Local Open Scope Q_scope.

(** *** National table and consistency check (lines 302-305, 325-327) *)

Definition national_table (model_to_us_projection : dict cell) (us_truth : Q)
  : frame :=
  mkFrame ["predicted_cases"; "actual_cases"]
          (map (fun kv => (fst kv, [snd kv; Some us_truth]))
               model_to_us_projection).

(** [df_errors_us['predicted_cases'] - df_errors_us['actual_cases']] *)
Definition national_error (df_errors_us : frame) : outcome (dict cell) :=
  (predicted <- get_column "predicted_cases" df_errors_us ;;
   actual <- get_column "actual_cases" df_errors_us ;;
   Done (zip_with (fun p a => (fst p, nan_sub (snd p) (snd a)))
                  predicted actual))%run.

Definition consistent (error us : cell) : bool :=
  nan_eq error us || (isnull error && isnull us).

Definition same_labels (a b : dict cell) : bool :=
  if list_eq_dec string_dec (keys a) (keys b) then true else false.

(** Comparing two series whose labels differ is a [ValueError]. *)
Definition consistency_check (df_errors_us df_errors : frame)
  : outcome unit :=
  (error <- national_error df_errors_us ;;
   us <- get_column "US" df_errors ;;
   assert (same_labels error us)
          "Can only compare identically-labeled Series objects" ;;;
   assert (forallb (fun p => consistent (snd (fst p)) (snd (snd p)))
                   (List.combine error us))
          "AssertionError")%run.

(** *** Coverage filter and imputation (lines 347-353, 393-395) *)

Definition min_locations_with_projections (evaluate_counties : bool) : nat :=
  if evaluate_counties then 2000%nat else 40%nat.

(** [df.loc[df.notna().sum(axis=1) > min_locations_with_projections]] *)
Definition well_covered (evaluate_counties : bool) (df : frame) : frame :=
  mkFrame (columns df)
          (filter (fun r => Nat.ltb
                              (min_locations_with_projections evaluate_counties)
                              (count_notna r))
                  (rows df)).

(** [df.abs().mean()]: the default axis is 0, one mean per column *)
Definition abs_mean (df : frame) : list cell :=
  mean_axis0 (List.length (columns df))
             (map (fun r => (fst r, map nan_abs (snd r))) (rows df)).

(** a missing cell takes the value given for its column *)
Fixpoint fill_row (row fill : list cell) : list cell :=
  match row, fill with
  | c :: r, m :: ms =>
      (match c with None => m | Some _ => c end) :: fill_row r ms
  | _, _ => row
  end.

(** [df.fillna(fill)] with one fill value per column *)
Definition fillna (fill : list cell) (df : frame) : frame :=
  mkFrame (columns df) (map (fun r => (fst r, fill_row (snd r) fill)) (rows df)).

(** [df.isna().values.sum()] *)
Definition count_nan (df : frame) : nat :=
  fold_right (fun r n => (List.length (filter isnull (snd r)) + n)%nat)
             O (rows df).

(** lines 394-395 *)
Definition impute (df_errors_states : frame) : outcome frame :=
  let df_errors_states := fillna (abs_mean df_errors_states) df_errors_states in
  (assert (Nat.eqb (count_nan df_errors_states) 0) "NaN still in errors" ;;;
   Done df_errors_states)%run.

(** from [df_errors] to the table the aggregates are computed on *)
Definition state_errors (evaluate_counties : bool) (df_errors : frame)
  : outcome frame :=
  (df_errors_states <- drop_column "US" df_errors ;;
   impute (well_covered evaluate_counties df_errors_states))%run.

(** the mean absolute error of one model over its own locations *)
Definition own_mean_abs (r : labelled) : cell := nanmean (map nan_abs (snd r)).

(** *** Aggregates (lines 403, 418, 435-436) *)

Definition map_cells (f : Q -> Q) (df : frame) : frame :=
  mkFrame (columns df)
          (map (fun r => (fst r, map (option_map f) (snd r))) (rows df)).

(** [Series.rank()]: the average rank among the values of the column *)
Definition rank_cell (col : list cell) (c : cell) : cell :=
  match c with
  | None => None
  | Some v =>
      let less := List.length (filter (fun x => Qlt_bool x v) (present col)) in
      let same := List.length (filter (fun x => Qeq_bool x v) (present col)) in
      Some (inject_Z (Z.of_nat less) + (inject_Z (Z.of_nat same) + 1) / 2)
  end.

(** [df.rank()]: the default axis is 0, the models are ranked in each
    column *)
Definition rank (df : frame) : frame :=
  mkFrame (columns df)
          (map (fun r =>
                  (fst r,
                   map (fun j => rank_cell (column j (rows df)) (cell_at j r))
                       (seq 0 (List.length (snd r)))))
               (rows df)).

Record aggregates := mkAggregates
  { df_errors_states : frame;
    df_sq_errs_states : frame;
    df_abs_errs_states : frame;
    df_ranks : frame }.

(** the tables that the summaries are taken from, all computed from the
    imputed table *)
Definition aggregate (evaluate_counties : bool) (df_errors : frame)
  : outcome aggregates :=
  (df_errors_states <- state_errors evaluate_counties df_errors ;;
   let df_sq_errs_states := map_cells (fun x => x * x) df_errors_states in
   let df_abs_errs_states := map_cells Qabs df_errors_states in
   let df_ranks :=
     mkFrame (columns df_errors_states)
             (filter (fun r => negb (String.prefix "Baseline" (fst r)))
                     (rows df_errors_states)) in
   let df_ranks := rank (map_cells Qabs df_ranks) in
   Done (mkAggregates df_errors_states df_sq_errs_states df_abs_errs_states
                      df_ranks))%run.

(** *** Beat baseline (lines 366-384) *)

Definition baseline : string := "COVIDhub-baseline".

(** [[c for c in df_all.columns if '-' in c]] *)
Definition model_names (df_all_columns : list string) : list string :=
  filter (contains "-") df_all_columns.

(** [df_all[f'error-{model_name}'] = df_errors_raw.loc[model_name]]: the row
    of the model, aligned on the locations of [df_all] *)
Definition error_column (df_errors_raw : frame) (locations : list string)
           (model_name : string) : outcome (list cell) :=
  (r <- getitem model_name (rows df_errors_raw) ;;
   Done (map (fun l => match position l (columns df_errors_raw) with
                       | Some j => nth j r None
                       | None => None
                       end) locations))%run.

(** One cell of the column: the comparison, then the mask that puts the
    missing value back. *)
Definition beat_cell (error_model error_baseline : cell) : option bool :=
  let beat :=
    nan_lt (nan_abs error_model) (nan_abs error_baseline)
    || nan_lt (nan_abs error_model) (Some (1 # 1000)) in
  if isnull error_model then None else Some beat.

Definition beat_baseline (df_errors_raw : frame) (locations : list string)
           (df_all_columns : list string)
  : outcome (dict (list (option bool))) :=
  (error_baseline <- error_column df_errors_raw locations baseline ;;
   traverse (fun model_name =>
               error_model <- error_column df_errors_raw locations model_name ;;
               Done ("beat_baseline-" ++ model_name,
                     zip_with beat_cell error_model error_baseline))
            (filter (fun m => negb (String.eqb m baseline))
                    (model_names df_all_columns)))%run.
End Scorer.

(** ** The run around the steps *)

Module Main.
Local Open Scope Z_scope.

(** [date.weekday()]: Monday is 0 and Sunday is 6 *)
Definition weekday (d : Dates.date) : Z := (d + 6) mod 7.

Record run_dates := mkRunDates
  { model_ran_date : Dates.date; days_ahead : Z }.

(** lines 100-111: the checks on the arguments of [main], then the model ran
    date and the days ahead *)
Definition preconditions (forecast_hub_isdir : bool)
           (proj_date eval_date : Dates.date) : outcome run_dates :=
  (assert forecast_hub_isdir "Could not find COVID-19 Forecast Hub repo" ;;;
   assert (proj_date <? eval_date)
          "evaluation date must be greater than the projection date" ;;;
   assert (weekday proj_date =? 0) "proj_date must be a Monday" ;;;
   assert (weekday eval_date =? 5) "eval date must be a Saturday" ;;;
   Done (mkRunDates (proj_date - 1) (eval_date - proj_date)))%run.

(** lines 79-80: the columns that [validate_projections] asks for; the
    message of the failed assertion is the column *)
Definition required_columns : list string :=
  ["forecast_date"; "target"; "target_end_date"; "location"; "type";
   "quantile"; "value"].

Definition validate_columns (columns : list string) : outcome unit :=
  fold_left (fun acc col => (acc ;;; assert (isin col columns) col)%run)
            required_columns (Done tt).

(** lines 142-159: one turn of the loop over the model directories.
    [isdir] and [glob_csv] stand for the file system. *)
Definition fetch_model (isdir : string -> bool)
           (glob_csv : string -> list string) (proj_date : Dates.date)
           (acc : outcome (dict (string * option Dates.date)))
           (model_dir : string)
  : outcome (dict (string * option Dates.date)) :=
  (model_to_projections <- acc ;;
   let model_name := basename model_dir in
   if negb (isdir model_dir) then Done model_to_projections
   else
     let model_fnames := StringSort.sort (glob_csv model_dir) in
     found <- find_last_projections model_fnames proj_date ;;
     match fst found with
     | None => Done model_to_projections
     | Some last_valid_fname =>
         Done (dict_set model_name (last_valid_fname, snd found)
                        model_to_projections)
     end)%run.

Definition fetch_projections (isdir : string -> bool)
           (glob_csv : string -> list string) (proj_date : Dates.date)
           (all_models_dirs : list string)
  : outcome (dict (string * option Dates.date)) :=
  fold_left (fetch_model isdir glob_csv proj_date)
            (StringSort.sort all_models_dirs) (Done []).

(** line 282: the difference of two series, aligned on the union of their
    labels; a label that one of them lacks gives a missing value *)
Definition series_sub (a b : dict Q) : dict cell :=
  map (fun k => (k, match dict_get k a, dict_get k b with
                    | Some x, Some y => Some (x - y)%Q
                    | _, _ => None
                    end))
      (group_keys (keys a ++ keys b)).

Record tables := mkTables
  { model_to_num_locations : dict nat;
    model_to_errors : dict (dict cell);
    model_to_us_projection : dict cell;
    model_to_all_projections : dict (dict Q) }.

(** lines 213-216: of the models whose name starts with CU-, only
    CU-select is used *)
Definition skipped_family (model_name : string) : bool :=
  String.prefix "CU-" model_name && negb (String.eqb model_name "CU-select").

(** lines 207-287: one turn of the loop over the models, on the rows read
    from the file of the model, their locations checked to be strings
    ([Forecast.string_locations]) *)
Definition load_model (eval_date : Dates.date) (use_point : bool)
           (u : Locations.universe) (df_truth_filt : dict Q)
           (acc : outcome tables) (model : string * list Forecast.row)
  : outcome tables :=
  (t <- acc ;;
   let model_name := fst model in
   if skipped_family model_name then Done t
   else
     normalized <- Forecast.normalize (snd model) eval_date use_point u ;;
     match normalized with
     | None => Done t
     | Some p =>
         let df_model_filt_values := Forecast.df_model_filt_values p in
         let df_model_diffs := series_sub df_model_filt_values df_truth_filt in
         Done (mkTables
                 (dict_set model_name (Forecast.num_locations p)
                           (model_to_num_locations t))
                 (dict_set model_name df_model_diffs (model_to_errors t))
                 (dict_set model_name (Forecast.us_projection p)
                           (model_to_us_projection t))
                 (dict_set model_name df_model_filt_values
                           (model_to_all_projections t)))
     end)%run.

Definition load_projections (eval_date : Dates.date) (use_point : bool)
           (u : Locations.universe) (df_truth_filt : dict Q)
           (models : dict (list Forecast.row)) : outcome tables :=
  fold_left (load_model eval_date use_point u df_truth_filt) models
            (Done (mkTables [] [] [] [("actual_cases", df_truth_filt)])).

(** equality of two Python dictionaries with numbers as values: the same
    keys with the same values, in any order *)
Definition dict_eqb (a b : dict nat) : bool :=
  Nat.eqb (List.length a) (List.length b)
  && forallb (fun kv => match dict_get (fst kv) b with
                        | Some v => Nat.eqb v (snd kv)
                        | None => false
                        end) a.

(** [df_errors_raw.notna().sum(axis=1).to_dict()]: for each model the
    number of its errors that are present *)
Definition notna_counts (model_to_errors : dict (dict cell)) : dict nat :=
  map (fun kv => (fst kv, List.length (filter notna (map snd (snd kv)))))
      model_to_errors.

(** lines 292-294 *)
Definition locations_parsed (t : tables) : outcome unit :=
  assert (dict_eqb (model_to_num_locations t)
                   (notna_counts (model_to_errors t)))
         "Certain locations not parsed".

(** lines 360-363: the row [model_name] is moved to the top; [None] when
    there is no such row is the [IndexError] *)
Definition move_first {V} (model_name : string) (df_all : dict V)
  : outcome (dict V) :=
  match position model_name (keys df_all) with
  | None => Abort "IndexError"
  | Some name_idx =>
      match nth_error df_all name_idx with
      | Some row => Done (row :: remove_nth name_idx df_all)
      | None => Abort "IndexError"
      end
  end.

Definition baseline_names : list string := ["COVIDhub-baseline"].

Definition first_rows {V} (df_all : dict V) : outcome (dict V) :=
  fold_left (fun acc model_name => (df <- acc ;; move_first model_name df)%run)
            (rev baseline_names ++ ["actual_cases"]) (Done df_all).
End Main.

(** ** Dates in names *)

Module Iso.
Local Open Scope Z_scope.

Definition digit_char (k : Z) : ascii := ascii_of_nat (48 + Z.to_nat k).

Definition digits2 (n : Z) : list ascii :=
  [digit_char (n / 10); digit_char (n mod 10)].

Definition digits4 (n : Z) : list ascii :=
  [digit_char (n / 1000); digit_char (n / 100 mod 10);
   digit_char (n / 10 mod 10); digit_char (n mod 10)].

(** [str(datetime.date(y, m, d))], the [YYYY-MM-DD] that the names of the
    forecast files start with and that the output names are built from *)
Definition isoformat (y m d : Z) : string :=
  string_of_list_ascii
    (digits4 y ++ "-"%char :: digits2 m ++ "-"%char :: digits2 d).
End Iso.

(** * Sample data *)

Module Samples.
(** abbreviation, location code and name of the 58 national, state and
    territory rows of a locations table *)
Definition state_rows : list (string * string * string) :=
  [
   ("US", "US", "US");
   ("AL", "01", "Alabama");
   ("AK", "02", "Alaska");
   ("AZ", "04", "Arizona");
   ("AR", "05", "Arkansas");
   ("CA", "06", "California");
   ("CO", "08", "Colorado");
   ("CT", "09", "Connecticut");
   ("DE", "10", "Delaware");
   ("DC", "11", "District of Columbia");
   ("FL", "12", "Florida");
   ("GA", "13", "Georgia");
   ("HI", "15", "Hawaii");
   ("ID", "16", "Idaho");
   ("IL", "17", "Illinois");
   ("IN", "18", "Indiana");
   ("IA", "19", "Iowa");
   ("KS", "20", "Kansas");
   ("KY", "21", "Kentucky");
   ("LA", "22", "Louisiana");
   ("ME", "23", "Maine");
   ("MD", "24", "Maryland");
   ("MA", "25", "Massachusetts");
   ("MI", "26", "Michigan");
   ("MN", "27", "Minnesota");
   ("MS", "28", "Mississippi");
   ("MO", "29", "Missouri");
   ("MT", "30", "Montana");
   ("NE", "31", "Nebraska");
   ("NV", "32", "Nevada");
   ("NH", "33", "New Hampshire");
   ("NJ", "34", "New Jersey");
   ("NM", "35", "New Mexico");
   ("NY", "36", "New York");
   ("NC", "37", "North Carolina");
   ("ND", "38", "North Dakota");
   ("OH", "39", "Ohio");
   ("OK", "40", "Oklahoma");
   ("OR", "41", "Oregon");
   ("PA", "42", "Pennsylvania");
   ("RI", "44", "Rhode Island");
   ("SC", "45", "South Carolina");
   ("SD", "46", "South Dakota");
   ("TN", "47", "Tennessee");
   ("TX", "48", "Texas");
   ("UT", "49", "Utah");
   ("VT", "50", "Vermont");
   ("VA", "51", "Virginia");
   ("WA", "53", "Washington");
   ("WV", "54", "West Virginia");
   ("WI", "55", "Wisconsin");
   ("WY", "56", "Wyoming");
   ("AS", "60", "American Samoa");
   ("GU", "66", "Guam");
   ("MP", "69", "Northern Mariana Islands");
   ("PR", "72", "Puerto Rico");
   ("UM", "74", "U.S. Minor Outlying Islands");
   ("VI", "78", "Virgin Islands") ].

Definition df_loc : list Locations.row :=
  map (fun t => Locations.mkRow (Some (fst (fst t))) (snd (fst t)) (snd t))
      state_rows.

(** the same table with the leading zero of the codes left out *)
Definition strip_zero (v : string) : string :=
  match v with
  | String "0" r => r
  | _ => v
  end.

Definition df_loc_unpadded : list Locations.row :=
  map (fun t => Locations.mkRow (Some (fst (fst t)))
                                (strip_zero (snd (fst t))) (snd t))
      state_rows.

(** the names of the 50 states and the District of Columbia *)
Definition state_names : list string :=
  map snd (filter (fun t => negb (isin (fst (fst t))
                                       ("US" :: Locations.US_TERRITORIES)))
                  state_rows).

(** an error table of two models over the nation and the 51 states; the
    first model has no forecast for the last state *)
Definition df_errors : frame :=
  mkFrame ("US" :: state_names)
          [("A-one", Some 1%Q :: repeat (Some 2%Q) 50 ++ [None]);
           ("B-two", Some 1%Q :: repeat (Some (-4)%Q) 50 ++ [Some 10%Q])].
Definition universe : Locations.universe :=
  match Locations.states_universe df_loc with
  | Done u => u
  | Abort _ => Locations.mkUniverse [] []
  end.

Definition proj_date : Dates.date := ymd2ord 2020 6 15.

(** the Saturday that ends week [n] after the projection date *)
Definition week_end (n : Z) : Dates.date := (proj_date + 7 * n - 2)%Z.

Definition eval_date : Dates.date := week_end 4.

Definition point_row (l : string) (n : Z) (target : string) (v : Q)
  : Forecast.row :=
  Forecast.mkRow proj_date target (week_end n) l "point" None (Some v).

Definition quantile_row (l : string) (n : Z) (target : string) (q v : Q)
  : Forecast.row :=
  Forecast.mkRow proj_date target (week_end n) l "quantile" (Some q) (Some v).

(** a forecast file whose location 02 has no row for week 3 *)
Definition df_gap : list Forecast.row :=
  [point_row "US" 1 "1 wk ahead inc case" 100;
   point_row "US" 2 "2 wk ahead inc case" 110;
   point_row "US" 3 "3 wk ahead inc case" 120;
   point_row "US" 4 "4 wk ahead inc case" 130;
   point_row "01" 1 "1 wk ahead inc case" 10;
   point_row "01" 2 "2 wk ahead inc case" 11;
   point_row "01" 3 "3 wk ahead inc case" 12;
   point_row "01" 4 "4 wk ahead inc case" 13;
   point_row "02" 1 "1 wk ahead inc case" 20;
   point_row "02" 2 "2 wk ahead inc case" 21;
   point_row "02" 4 "4 wk ahead inc case" 23].

(** a forecast file whose location 02 has quantile rows only *)
Definition df_mixed : list Forecast.row :=
  [point_row "US" 1 "1 wk ahead inc case" 100;
   quantile_row "US" 1 "1 wk ahead inc case" (1 # 2) 101;
   point_row "01" 1 "1 wk ahead inc case" 10;
   quantile_row "01" 1 "1 wk ahead inc case" (1 # 2) 11;
   quantile_row "02" 1 "1 wk ahead inc case" (1 # 2) 21;
   quantile_row "02" 1 "1 wk ahead inc case" (1 # 4) 19].
(** a forecast file that writes the code of Alabama without its zero *)
Definition df_unpadded : list Forecast.row :=
  [point_row "US" 1 "1 wk ahead inc case" 100;
   point_row "1" 1 "1 wk ahead inc case" 10].

(** a county table with a one-character code *)
Definition df_loc_counties : list Locations.row :=
  [Locations.mkRow (Some "US") "US" "US";
   Locations.mkRow (Some "AL") "01" "Alabama";
   Locations.mkRow None "1" "Sample County";
   Locations.mkRow None "01001" "Autauga County"].
(** one truth row of 5 cases for every location of the universe, on the
    projection date *)
Definition df_truth : list Truth.row :=
  map (fun l => Truth.mkRow proj_date l (Some 5%Q))
      (Locations.fips_to_evaluate universe).

(** a row as it stands in the file *)
Definition file_row (r : Forecast.row) : Forecast.Raw.row :=
  Forecast.Raw.mkRow (Forecast.forecast_date r) (Forecast.target r)
                     (Forecast.target_end_date r) (Some (Forecast.location r))
                     (Forecast.type r) (Forecast.quantile r)
                     (Forecast.value r).

(** a row for week [n] whose location field is empty *)
Definition empty_location_row (n : Z) (target : string) (v : Q)
  : Forecast.Raw.row :=
  Forecast.Raw.mkRow proj_date target (week_end n) None "point" None (Some v).


(** the same file with an empty location in a row of week 1 *)
Definition file_empty_location : list Forecast.Raw.row :=
  map file_row df_unpadded
  ++ [empty_location_row 1 "1 wk ahead inc case" 1].
End Samples.

(** * Specification predicates *)

Local Open Scope list_scope.

(** [qualifies proj_date f d]: the file name [f] carries the date [d], not
    after the projection date and within the tolerance. *)
Definition qualifies (proj_date : date) (f : string) (d : date) : Prop :=
  file_date f = Some d /\ (d <= proj_date)%Z
  /\ (proj_date - d <= days_tolerance proj_date)%Z.

(** What the loop of the file selector holds after the files [seen]. *)
Definition selected (proj_date : date) (seen : list string) (st : selection)
  : Prop :=
  (st = (None, None) /\ forall g e, In g seen -> ~ qualifies proj_date g e)
  \/ (exists f d l1 l2,
         st = (Some f, Some d) /\ seen = l1 ++ f :: l2
         /\ qualifies proj_date f d
         /\ (forall g e, In g l1 -> qualifies proj_date g e -> (e < d)%Z)
         /\ (forall g e, In g l2 -> qualifies proj_date g e -> (e <= d)%Z)).

(** [beats error_model error_baseline]: the model's error is present and
    its absolute value is below that of the baseline's error, when that one is
    present, or below 1e-3. *)
Definition beats (error_model error_baseline : cell) : Prop :=
  exists x, error_model = Some x
            /\ ((exists y, error_baseline = Some y /\ (Qabs x < Qabs y)%Q)
                \/ (Qabs x < 1 # 1000)%Q).

(** [agree error us]: the national error and the "US" entry of the
    per-location table are both present and equal, or both missing. *)
Definition agree (error us : cell) : Prop :=
  (exists x y, error = Some x /\ us = Some y /\ (x == y)%Q)
  \/ (error = None /\ us = None).

(** [mean_of vs c]: [c] is the unweighted mean of the values [vs], missing
    when there is no value. *)
Definition mean_of (vs : list Q) (c : cell) : Prop :=
  match vs with
  | [] => c = None
  | _ => exists q, c = Some q
                   /\ (q * inject_Z (Z.of_nat (List.length vs)) == Qsum vs)%Q
  end.

(** [dated f]: the name of the file starts with a date. *)
Definition dated (f : string) : bool :=
  match file_date f with
  | Some _ => true
  | None => false
  end.

(** [in_window proj_date f]: the boolean form of [qualifies]. *)
Definition in_window (proj_date : date) (f : string) : bool :=
  match file_date f with
  | Some d => ((d <=? proj_date) && (proj_date - d <=? days_tolerance proj_date))%Z
  | None => false
  end.

(** * Properties *)

(** ** File selector *)

Section FileSelectorFacts.
Local Open Scope Z_scope.
Variable proj_date : date.

Lemma step_qualifies st f d :
  qualifies proj_date f d ->
  step proj_date st f =
    match snd st with
    | None => (Some f, Some d)
    | Some last => if last <? d then (Some f, Some d) else st
    end.
Proof.
  intros (Hd & Hle & Htol). unfold step. rewrite Hd.
  apply Z.leb_le in Hle. apply Z.leb_le in Htol.
  rewrite Hle, Htol. reflexivity.
Qed.

Lemma step_not_qualifies st f :
  (forall d, ~ qualifies proj_date f d) -> step proj_date st f = st.
Proof.
  intros Hn. unfold step.
  destruct (file_date f) as [fd|] eqn:Hd; [|reflexivity].
  destruct ((fd <=? proj_date) && (proj_date - fd <=? days_tolerance proj_date))
    eqn:Hb; [|reflexivity].
  exfalso. apply andb_true_iff in Hb. destruct Hb as [H1 H2].
  apply (Hn fd). unfold qualifies. rewrite Hd.
  apply Z.leb_le in H1. apply Z.leb_le in H2. auto.
Qed.

Lemma qualifies_dec f :
  (exists d, qualifies proj_date f d) \/ (forall d, ~ qualifies proj_date f d).
Proof.
  unfold qualifies.
  destruct (file_date f) as [fd|].
  - destruct (Z_le_dec fd proj_date) as [H1|H1];
      [destruct (Z_le_dec (proj_date - fd) (days_tolerance proj_date)) as [H2|H2]|].
    + left. exists fd. auto.
    + right. intros d (E & _ & H). inversion E; subst. contradiction.
    + right. intros d (E & H & _). inversion E; subst. contradiction.
  - right. intros d (E & _). discriminate.
Qed.

Lemma qualifies_fun f d e :
  qualifies proj_date f d -> qualifies proj_date f e -> d = e.
Proof. intros (H1 & _) (H2 & _). congruence. Qed.

Lemma selected_step seen st x :
  selected proj_date seen st ->
  selected proj_date (seen ++ [x]) (step proj_date st x).
Proof.
  intros Hinv.
  destruct (qualifies_dec x) as [[d Hq]|Hn].
  - rewrite (step_qualifies st Hq).
    destruct Hinv as [[-> Hnone]|(f & d0 & l1 & l2 & -> & -> & Hf & Hl1 & Hl2)];
      simpl.
    + right. exists x, d, seen, [].
      split; [reflexivity|]. split; [reflexivity|]. split; [exact Hq|].
      split; intros g e Hg Hge.
      * exfalso. exact (Hnone g e Hg Hge).
      * destruct Hg.
    + destruct (d0 <? d) eqn:Hlt.
      * apply Z.ltb_lt in Hlt.
        right. exists x, d, (l1 ++ f :: l2), [].
        split; [reflexivity|]. split; [reflexivity|]. split; [exact Hq|].
        split; intros g e Hg Hge.
        -- apply in_app_or in Hg.
           destruct Hg as [Hg|[<-|Hg]].
           ++ specialize (Hl1 g e Hg Hge). lia.
           ++ rewrite (qualifies_fun Hge Hf). exact Hlt.
           ++ specialize (Hl2 g e Hg Hge). lia.
        -- destruct Hg.
      * apply Z.ltb_ge in Hlt.
        right. exists f, d0, l1, (l2 ++ [x]).
        split; [reflexivity|].
        split; [rewrite <- app_assoc; reflexivity|]. split; [exact Hf|].
        split; [exact Hl1|]. intros g e Hg Hge.
        apply in_app_or in Hg.
        destruct Hg as [Hg|[<-|[]]].
        -- exact (Hl2 g e Hg Hge).
        -- rewrite (qualifies_fun Hge Hq). exact Hlt.
  - rewrite (step_not_qualifies st Hn).
    destruct Hinv as [[-> Hnone]|(f & d0 & l1 & l2 & -> & -> & Hf & Hl1 & Hl2)].
    + left. split; [reflexivity|]. intros g e Hg. apply in_app_or in Hg.
      destruct Hg as [Hg|[<-|[]]]; [exact (Hnone g e Hg)|exact (Hn e)].
    + right. exists f, d0, l1, (l2 ++ [x]).
      split; [reflexivity|].
      split; [rewrite <- app_assoc; reflexivity|]. split; [exact Hf|].
      split; [exact Hl1|]. intros g e Hg Hge.
      apply in_app_or in Hg.
      destruct Hg as [Hg|[<-|[]]].
      * exact (Hl2 g e Hg Hge).
      * exfalso. exact (Hn e Hge).
Qed.

Lemma selected_fold l : forall seen st,
  selected proj_date seen st ->
  selected proj_date (seen ++ l) (fold_left (step proj_date) l st).
Proof.
  induction l as [|x l IH]; intros seen st Hinv; simpl.
  - rewrite app_nil_r. exact Hinv.
  - replace (seen ++ x :: l) with ((seen ++ [x]) ++ l)
      by (rewrite <- app_assoc; reflexivity).
    apply IH. apply selected_step. exact Hinv.
Qed.

Lemma selected_loop fnames :
  selected proj_date fnames (fold_left (step proj_date) fnames (None, None)).
Proof.
  apply (selected_fold fnames (seen := [])).
  left. split; [reflexivity|]. intros g e [].
Qed.
End FileSelectorFacts.

Section FileSelectorClaims.
Local Open Scope Z_scope.

Lemma find_sorted fnames proj_date :
  is_sorted fnames = true ->
  find_last_projections fnames proj_date
  = Done (fold_left (step proj_date) fnames (None, None)).
Proof. intros Hs. unfold find_last_projections. rewrite Hs. reflexivity. Qed.

Lemma find_single f proj_date :
  find_last_projections [f] proj_date = Done (step proj_date (None, None) f).
Proof. reflexivity. Qed.

Lemma selected_not_dated proj_date fnames r f k :
  selected proj_date fnames r ->
  file_date f = Some (proj_date - k) ->
  days_tolerance proj_date < k ->
  fst r <> Some f.
Proof.
  intros [[-> _]|(f0 & d0 & l1 & l2 & -> & _ & (Hd & _ & Htol) & _)] Hf Hk;
    simpl; [discriminate|].
  intros E. inversion E; subst f0. rewrite Hf in Hd. inversion Hd; subst d0.
  lia.
Qed.

(** C3.  On a sorted list the file selector returns a file whose date [d]
    has [d <= proj_date] and [proj_date - d <= days_tolerance], where the
    tolerance is 6 from 2020-07-20 on and 3 before; it returns
    [(None, None)] when no file qualifies.  A file dated 4 days before a
    target earlier than 2020-07-20 is not selected; from 2020-07-20 on a
    file dated 6 days before is selected and one dated 7 days before is
    not. *)
Theorem C3_selector_window (fnames : list string) (proj_date : date) :
  is_sorted fnames = true ->
  str_to_date "2020-07-20" = Some tolerance_change
  /\ days_tolerance proj_date
     = (if tolerance_change <=? proj_date then 6 else 3)
  /\ exists r,
      find_last_projections fnames proj_date = Done r
      /\ (forall f d, r = (Some f, Some d) ->
            In f fnames /\ file_date f = Some d /\ d <= proj_date
            /\ proj_date - d <= days_tolerance proj_date)
      /\ ((exists f d, In f fnames /\ qualifies proj_date f d) ->
          exists f d, r = (Some f, Some d))
      /\ ((forall f d, In f fnames -> ~ qualifies proj_date f d) ->
          r = (None, None))
      /\ (forall f, file_date f = Some (proj_date - 4) ->
            proj_date < tolerance_change ->
            fst r <> Some f
            /\ find_last_projections [f] proj_date = Done (None, None))
      /\ (forall f, file_date f = Some (proj_date - 6) ->
            tolerance_change <= proj_date ->
            find_last_projections [f] proj_date
            = Done (Some f, Some (proj_date - 6))
            /\ (In f fnames ->
                exists f' d', r = (Some f', Some d') /\ proj_date - 6 <= d'))
      /\ (forall f, file_date f = Some (proj_date - 7) ->
            tolerance_change <= proj_date ->
            fst r <> Some f
            /\ find_last_projections [f] proj_date = Done (None, None)).
Proof.
  intros Hs.
  split; [vm_compute; reflexivity|]. split; [reflexivity|].
  exists (fold_left (step proj_date) fnames (None, None)).
  split; [apply find_sorted; exact Hs|].
  pose proof (selected_loop proj_date fnames) as Hsel.
  set (r := fold_left (step proj_date) fnames (None, None)) in *.
  split; [|split; [|split; [|split; [|split]]]].
  - intros f d Hr.
    destruct Hsel as [[E _]|(f0 & d0 & l1 & l2 & E & Hl & (Hd & Hle & Htol) & _)];
      rewrite E in Hr; [discriminate|].
    inversion Hr; subst f0 d0. repeat split; auto.
    rewrite Hl. apply in_or_app. right. left. reflexivity.
  - intros (g & e & Hg & Hge).
    destruct Hsel as [[_ Hnone]|(f0 & d0 & l1 & l2 & E & _)].
    + exfalso. exact (Hnone g e Hg Hge).
    + exists f0, d0. exact E.
  - intros Hnone.
    destruct Hsel as [[E _]|(f0 & d0 & l1 & l2 & E & Hl & Hq & _)]; [exact E|].
    exfalso. apply (Hnone f0 d0); [|exact Hq].
    rewrite Hl. apply in_or_app. right. left. reflexivity.
  - intros f Hf Hlt.
    assert (Ht : days_tolerance proj_date = 3).
    { unfold days_tolerance.
      destruct (tolerance_change <=? proj_date) eqn:E; [|reflexivity].
      apply Z.leb_le in E. lia. }
    split.
    + apply (selected_not_dated (k := 4) Hsel Hf). lia.
    + rewrite find_single. rewrite step_not_qualifies; [reflexivity|].
      intros d (Hd & _ & Htol). rewrite Hf in Hd. inversion Hd. lia.
  - intros f Hf Hge.
    assert (Ht : days_tolerance proj_date = 6).
    { unfold days_tolerance.
      destruct (tolerance_change <=? proj_date) eqn:E; [reflexivity|].
      apply Z.leb_gt in E. lia. }
    assert (Hq : qualifies proj_date f (proj_date - 6)).
    { split; [exact Hf|]. lia. }
    split.
    + rewrite find_single. rewrite (step_qualifies (None, None) Hq).
      reflexivity.
    + intros Hin.
      destruct Hsel as [[_ Hnone]|(f0 & d0 & l1 & l2 & E & Hl & Hq0 & Hl1 & Hl2)].
      * exfalso. exact (Hnone f _ Hin Hq).
      * exists f0, d0. split; [exact E|].
        rewrite Hl in Hin. apply in_app_or in Hin.
        destruct Hin as [Hin|[<-|Hin]].
        -- specialize (Hl1 f _ Hin Hq). lia.
        -- rewrite (qualifies_fun Hq0 Hq). lia.
        -- exact (Hl2 f _ Hin Hq).
  - intros f Hf Hge.
    assert (Ht : days_tolerance proj_date = 6).
    { unfold days_tolerance.
      destruct (tolerance_change <=? proj_date) eqn:E; [reflexivity|].
      apply Z.leb_gt in E. lia. }
    split.
    + apply (selected_not_dated (k := 7) Hsel Hf). lia.
    + rewrite find_single. rewrite step_not_qualifies; [reflexivity|].
      intros d (Hd & _ & Htol). rewrite Hf in Hd. inversion Hd. lia.
Qed.

Lemma C3_selector_window_witness :
  exists r,
    find_last_projections
      ["hub/2020-07-13-A-B.csv"; "hub/2020-07-14-A-B.csv"]
      (ymd2ord 2020 7 20) = Done r
    /\ fst r = Some "hub/2020-07-14-A-B.csv".
Proof.
  destruct (@C3_selector_window
              ["hub/2020-07-13-A-B.csv"; "hub/2020-07-14-A-B.csv"]
              (ymd2ord 2020 7 20) eq_refl)
    as (_ & _ & r & Hr & _).
  exists r. split; [exact Hr|].
  vm_compute in Hr. inversion Hr. reflexivity.
Defined.

(** C2, as the code has it.  On a sorted list with a qualifying file, the
    file selector returns a qualifying file with the latest date; every
    qualifying file before it in the list is strictly older, so among
    files that share the latest date it is the first one of the list. *)
Theorem C2_latest_first_of_ties (fnames : list string) (proj_date : date) :
  is_sorted fnames = true ->
  (exists g e, In g fnames /\ qualifies proj_date g e) ->
  exists f d l1 l2,
    find_last_projections fnames proj_date = Done (Some f, Some d)
    /\ fnames = l1 ++ f :: l2
    /\ qualifies proj_date f d
    /\ (forall g e, In g l1 -> qualifies proj_date g e -> e < d)
    /\ (forall g e, In g l2 -> qualifies proj_date g e -> e <= d).
Proof.
  intros Hs (g & e & Hg & Hge).
  rewrite (@find_sorted fnames proj_date Hs).
  destruct (selected_loop proj_date fnames)
    as [[_ Hnone]|(f & d & l1 & l2 & E & Hl & Hq & Hl1 & Hl2)].
  - exfalso. exact (Hnone g e Hg Hge).
  - exists f, d, l1, l2. rewrite E. auto.
Qed.

Lemma C2_latest_first_of_ties_witness :
  exists f d l1 l2,
    find_last_projections ["2020-05-30-A-B.csv"; "2020-06-01-A-B.csv"]
                          (ymd2ord 2020 6 1) = Done (Some f, Some d)
    /\ ["2020-05-30-A-B.csv"; "2020-06-01-A-B.csv"] = l1 ++ f :: l2
    /\ qualifies (ymd2ord 2020 6 1) f d
    /\ (forall g e, In g l1 -> qualifies (ymd2ord 2020 6 1) g e -> e < d)
    /\ (forall g e, In g l2 -> qualifies (ymd2ord 2020 6 1) g e -> e <= d).
Proof.
  apply C2_latest_first_of_ties.
  - reflexivity.
  - exists "2020-06-01-A-B.csv", (ymd2ord 2020 6 1).
    split; [simpl; auto|]. vm_compute. repeat split; discriminate.
Defined.

(** C2 as stated fails: two qualifying files carry the same date and the
    selector returns the one that comes first in the sorted list, not the
    later one. *)
Lemma C2_tie_counterexample :
  let fnames := ["2020-06-01-A-B.csv"; "2020-06-01-A-C.csv"] in
  let proj_date := ymd2ord 2020 6 1 in
  is_sorted fnames = true
  /\ qualifies proj_date "2020-06-01-A-B.csv" proj_date
  /\ qualifies proj_date "2020-06-01-A-C.csv" proj_date
  /\ find_last_projections fnames proj_date
     = Done (Some "2020-06-01-A-B.csv", Some proj_date)
  /\ find_last_projections fnames proj_date
     <> Done (Some "2020-06-01-A-C.csv", Some proj_date).
Proof.
  cbv zeta. split; [reflexivity|].
  split; [vm_compute; repeat split; discriminate|].
  split; [vm_compute; repeat split; discriminate|].
  split; [vm_compute; reflexivity|].
  vm_compute. discriminate.
Qed.
End FileSelectorClaims.

(** ** Dictionaries and groups *)

Section TableFacts.
Lemma group_keys_In labels l : In l (group_keys labels) <-> In l labels.
Proof.
  unfold group_keys. split; intros H.
  - apply (nodup_In string_dec).
    apply (Permutation_in _ (Permutation_sym (StringSort.Permuted_sort _)) H).
  - apply (Permutation_in _ (StringSort.Permuted_sort _)).
    apply nodup_In. exact H.
Qed.

Lemma group_keys_NoDup labels : NoDup (group_keys labels).
Proof.
  unfold group_keys.
  apply (Permutation_NoDup (StringSort.Permuted_sort _)).
  apply NoDup_nodup.
Qed.

Lemma isin_In x l : isin x l = true <-> In x l.
Proof.
  unfold isin. rewrite existsb_exists. split.
  - intros (y & Hy & E). apply String.eqb_eq in E. subst. exact Hy.
  - intros H. exists x. split; [exact H|apply String.eqb_refl].
Qed.

Lemma dict_get_tabulate V (f : string -> V) ks l :
  dict_get l (map (fun k => (k, f k)) ks)
  = if in_dec string_dec l ks then Some (f l) else None.
Proof.
  induction ks as [|k ks IH]; simpl; [reflexivity|].
  destruct (String.eqb_spec l k) as [->|Hne].
  - destruct (string_dec k k); [reflexivity|congruence].
  - rewrite IH. destruct (string_dec k l); [congruence|].
    destruct (in_dec string_dec l ks); reflexivity.
Qed.

Lemma dict_get_filter_key V (p : string -> bool) (d : dict V) l :
  dict_get l (filter (fun kv => p (fst kv)) d)
  = if p l then dict_get l d else None.
Proof.
  induction d as [|[k v] d IH]; simpl.
  - destruct (p l); reflexivity.
  - destruct (p k) eqn:Hk; simpl.
    + destruct (String.eqb_spec l k) as [->|Hne].
      * rewrite Hk. reflexivity.
      * exact IH.
    + rewrite IH. destruct (String.eqb_spec l k) as [->|Hne].
      * rewrite Hk. reflexivity.
      * reflexivity.
Qed.


End TableFacts.

(** ** Truth loader *)

Section TruthLoaderClaims.
Local Open Scope Z_scope.
Import Truth.





(** a run of the truth loader that goes through *)
Example truth_loader_runs :
  let d := ymd2ord 2020 6 15 in
  truth_loader
    [mkRow (d - 2) "01" (Some 7%Q); mkRow (d - 1) "01" (Some 1%Q);
     mkRow (d - 1) "US" (Some 10%Q); mkRow d "01" (Some 2%Q);
     mkRow d "US" (Some 20%Q); mkRow (d + 5) "US" (Some 30%Q);
     mkRow (d + 5) "02" (Some 4%Q); mkRow (d + 6) "US" (Some 99%Q)]
    d (d + 5) ["US"; "01"]
  = Done (mkLoaded [("01", 3%Q); ("US", 60%Q)] 60%Q).
Proof. vm_compute. reflexivity. Qed.
End TruthLoaderClaims.

(** ** Scorer: imputation *)

Section ImputationFacts.
Import Scorer.

Lemma fill_row_nth row : forall fill j,
  List.length row = List.length fill ->
  nth j (fill_row row fill) None
  = match nth j row None with
    | Some x => Some x
    | None => nth j fill None
    end.
Proof.
  induction row as [|c row IH]; intros [|m fill] j Hlen;
    simpl in Hlen; try discriminate.
  - destruct j; reflexivity.
  - destruct j as [|j]; simpl.
    + destruct c; reflexivity.
    + apply IH. lia.
Qed.

Lemma fill_row_present row fill :
  (forall c, In c row -> c <> None) -> fill_row row fill = row.
Proof.
  revert fill. induction row as [|c row IH]; intros [|m fill] H; simpl;
    try reflexivity.
  destruct c as [x|]; [|exfalso; apply (H None); simpl; auto].
  f_equal. apply IH. intros c Hc. apply H. simpl. auto.
Qed.

Lemma no_nan_cells row :
  List.length (filter isnull row) = O -> forall c, In c row -> c <> None.
Proof.
  induction row as [|a row IH]; simpl; intros H c Hc; [destruct Hc|].
  destruct a as [x|]; simpl in H; [|discriminate].
  destruct Hc as [<-|Hc]; [discriminate|]. apply IH; assumption.
Qed.

Lemma count_nan_zero df :
  count_nan df = O ->
  forall r, In r (rows df) -> forall c, In c (snd r) -> c <> None.
Proof.
  unfold count_nan. induction (rows df) as [|a rs IH]; simpl;
    intros H r Hr c Hc; [destruct Hr|].
  destruct Hr as [<-|Hr].
  - apply (@no_nan_cells (snd a)); [lia|exact Hc].
  - apply (IH ltac:(lia) r Hr c Hc).
Qed.

Lemma fillna_present fill df :
  (forall r, In r (rows df) -> forall c, In c (snd r) -> c <> None) ->
  fillna fill df = df.
Proof.
  intros H. destruct df as [cols rs]. unfold fillna. simpl in *. f_equal.
  induction rs as [|[n row] rs IH]; simpl; [reflexivity|].
  f_equal.
  - f_equal. apply fill_row_present. apply (H (n, row)). simpl. auto.
  - apply IH. intros r Hr. apply H. simpl. auto.
Qed.

Lemma column_abs j rs :
  column j (map (fun r : labelled => (fst r, map nan_abs (snd r))) rs)
  = map nan_abs (column j rs).
Proof.
  unfold column. rewrite !map_map. apply map_ext. intros r.
  unfold cell_at. simpl.
  change (@None Q) with (nan_abs None) at 1. apply map_nth.
Qed.

Lemma abs_mean_length df :
  List.length (abs_mean df) = List.length (columns df).
Proof. unfold abs_mean, mean_axis0. rewrite length_map, length_seq. reflexivity. Qed.

Lemma abs_mean_nth df j :
  (j < List.length (columns df))%nat ->
  nth j (abs_mean df) None = nanmean (map nan_abs (column j (rows df))).
Proof.
  intros Hj. rewrite <- column_abs. unfold abs_mean, mean_axis0.
  set (f := fun j => nanmean (column j _)).
  rewrite (nth_indep _ None (f O)) by (rewrite length_map, length_seq; exact Hj).
  rewrite map_nth. rewrite seq_nth by exact Hj. reflexivity.
Qed.

Lemma position_bound c cols : forall j,
  position c cols = Some j -> (j < List.length cols)%nat.
Proof.
  induction cols as [|c' cols IH]; simpl; intros j H; [discriminate|].
  destruct (String.eqb c c').
  - inversion H. lia.
  - destruct (position c cols) as [k|]; [|discriminate].
    inversion H. specialize (IH k eq_refl). lia.
Qed.

Lemma remove_nth_length A (l : list A) : forall j,
  (j < List.length l)%nat ->
  List.length (remove_nth j l) = pred (List.length l).
Proof.
  induction l as [|a l IH]; simpl; intros j Hj; [lia|].
  destruct j as [|j]; simpl; [reflexivity|].
  rewrite IH by lia. lia.
Qed.

Lemma drop_column_rectangular c df d :
  rectangular df -> drop_column c df = Done d -> rectangular d.
Proof.
  unfold drop_column. intros Hrect.
  destruct (position c (columns df)) as [j|] eqn:Hp; [|discriminate].
  intros E. inversion E; subst d; clear E.
  intros r Hr. simpl in *. apply in_map_iff in Hr.
  destruct Hr as (r0 & <- & Hr0). simpl.
  pose proof (position_bound _ _ Hp) as Hj.
  rewrite !remove_nth_length; [rewrite (Hrect r0 Hr0); reflexivity|exact Hj|].
  rewrite (Hrect r0 Hr0). exact Hj.
Qed.

Lemma well_covered_rectangular ec df :
  rectangular df -> rectangular (well_covered ec df).
Proof.
  intros Hrect r Hr. simpl in *. apply filter_In in Hr. apply Hrect, Hr.
Qed.

Lemma isnull_map (f : Q -> Q) (l : list cell) :
  List.length (filter isnull (map (option_map f) l))
  = List.length (filter isnull l).
Proof.
  induction l as [|c cs IH]; [reflexivity|].
  destruct c; simpl; rewrite IH; reflexivity.
Qed.

Lemma count_nan_map_cells f df : count_nan (map_cells f df) = count_nan df.
Proof.
  unfold count_nan, map_cells. simpl.
  induction (rows df) as [|r rs IH]; simpl; [reflexivity|].
  rewrite IH, isnull_map. reflexivity.
Qed.

Lemma impute_done df t :
  impute df = Done t ->
  t = fillna (abs_mean df) df /\ count_nan t = O.
Proof.
  unfold impute.
  destruct (Nat.eqb (count_nan (fillna (abs_mean df) df)) 0) eqn:E; simpl;
    [|discriminate].
  intros H. inversion H. split; [reflexivity|]. apply Nat.eqb_eq. exact E.
Qed.
End ImputationFacts.

Section ImputationClaims.
Import Scorer.

(** C1, as the code has it.  For every model row of the filtered
    per-location error table, a value that is present is kept and a
    missing value is replaced by the mean absolute error at that location,
    taken over the models of the filtered table that have a value there;
    a run that gets past the check has no missing value left in the table,
    and imputing again leaves the table unchanged. *)
Theorem C1_imputation_by_location (evaluate_counties : bool)
        (df_errors d t : frame) :
  rectangular df_errors ->
  drop_column "US" df_errors = Done d ->
  state_errors evaluate_counties df_errors = Done t ->
  let filtered := well_covered evaluate_counties d in
  columns t = columns filtered
  /\ map fst (rows t) = map fst (rows filtered)
  /\ (forall i j r,
        nth_error (rows filtered) i = Some r ->
        (j < List.length (columns filtered))%nat ->
        exists r',
          nth_error (rows t) i = Some r'
          /\ cell_at j r'
             = match cell_at j r with
               | Some x => Some x
               | None => nanmean (map nan_abs (column j (rows filtered)))
               end)
  /\ count_nan t = O
  /\ (forall r c, In r (rows t) -> In c (snd r) -> c <> None)
  /\ impute t = Done t
  /\ exists a,
      aggregate evaluate_counties df_errors = Done a
      /\ df_errors_states a = t
      /\ df_sq_errs_states a = map_cells (fun x => x * x)%Q t
      /\ df_abs_errs_states a = map_cells Qabs t
      /\ count_nan (df_sq_errs_states a) = O
      /\ count_nan (df_abs_errs_states a) = O.
Proof.
  intros Hrect Hd Ht filtered.
  assert (Hagg : exists a,
             aggregate evaluate_counties df_errors = Done a
             /\ df_errors_states a = t
             /\ df_sq_errs_states a = map_cells (fun x => x * x)%Q t
             /\ df_abs_errs_states a = map_cells Qabs t).
  { unfold aggregate. rewrite Ht. simpl. eexists. repeat split. }
  unfold state_errors in Ht. rewrite Hd in Ht. simpl in Ht. fold filtered in Ht.
  assert (Hf : rectangular filtered).
  { apply well_covered_rectangular.
    eapply drop_column_rectangular; eassumption. }
  clearbody filtered.
  destruct (impute_done _ Ht) as [Et Hnan].
  pose proof (count_nan_zero _ Hnan) as Hcells.
  split; [rewrite Et; reflexivity|].
  split; [rewrite Et; simpl; rewrite map_map; reflexivity|].
  split; [|split; [exact Hnan|split; [|split]]].
  - intros i j r Hr Hj. rewrite Et. simpl.
    exists (fst r, fill_row (snd r) (abs_mean filtered)).
    split; [rewrite nth_error_map; unfold labelled in *; rewrite Hr;
            reflexivity|].
    unfold cell_at at 1. simpl.
    rewrite fill_row_nth.
    + fold (cell_at j r). rewrite (abs_mean_nth _ Hj). reflexivity.
    + rewrite abs_mean_length. apply Hf. apply (nth_error_In _ _ Hr).
  - intros r c Hr Hc. exact (Hcells r Hr c Hc).
  - unfold impute. rewrite (fillna_present _ _ Hcells). rewrite Hnan.
    reflexivity.
  - destruct Hagg as (a & Ha & E1 & E2 & E3). exists a.
    rewrite E2, E3, !count_nan_map_cells.
    split; [exact Ha|]. split; [exact E1|]. repeat split; exact Hnan.
Qed.

Lemma C1_imputation_by_location_witness :
  exists t,
    state_errors false Samples.df_errors = Done t
    /\ count_nan t = O /\ impute t = Done t.
Proof.
  assert (Hr : rectangular Samples.df_errors).
  { intros r [<-|[<-|[]]]; reflexivity. }
  destruct (state_errors false Samples.df_errors) as [t|] eqn:Ht;
    [|vm_compute in Ht; discriminate Ht].
  destruct (drop_column "US" Samples.df_errors) as [d|] eqn:Hd;
    [|vm_compute in Hd; discriminate Hd].
  exists t.
  destruct (C1_imputation_by_location false Hr Hd Ht)
    as (_ & _ & _ & Hn & _ & Hi & _).
  split; [reflexivity|]. split; [exact Hn|exact Hi].
Defined.

(** C1 as stated fails: the first sample model misses the last state; its
    own mean absolute error over its 50 other states is 2, and the value
    filled in is 10, the mean absolute error of the models at that state. *)
Lemma C1_own_mean_counterexample :
  exists d t own filled,
    drop_column "US" Samples.df_errors = Done d
    /\ state_errors false Samples.df_errors = Done t
    /\ map fst (rows (well_covered false d)) = ["A-one"; "B-two"]
    /\ option_map (cell_at 50) (nth_error (rows (well_covered false d)) 0)
       = Some None
    /\ option_map own_mean_abs (nth_error (rows (well_covered false d)) 0)
       = Some (Some own)
    /\ option_map (cell_at 50) (nth_error (rows t) 0) = Some (Some filled)
    /\ (own == 2)%Q /\ (filled == 10)%Q /\ ~ (filled == own)%Q.
Proof.
  eexists. eexists. eexists. eexists.
  split; [vm_compute; reflexivity|].
  split; [vm_compute; reflexivity|].
  split; [vm_compute; reflexivity|].
  split; [vm_compute; reflexivity|].
  split; [vm_compute; reflexivity|].
  split; [vm_compute; reflexivity|].
  split; [vm_compute; reflexivity|].
  split; [vm_compute; reflexivity|].
  vm_compute. discriminate.
Qed.
End ImputationClaims.

(** ** Scorer: beat baseline *)

Section BeatBaselineClaims.
Import Scorer.

Lemma Qlt_bool_iff x y : Qlt_bool x y = true <-> (x < y)%Q.
Proof.
  unfold Qlt_bool. rewrite negb_true_iff. split.
  - intros H. apply Qnot_le_lt. intros Hle.
    apply Qle_bool_iff in Hle. congruence.
  - intros H. destruct (Qle_bool y x) eqn:E; [|reflexivity].
    apply Qle_bool_iff in E. exfalso. exact (Qlt_not_le _ _ H E).
Qed.

Lemma beat_cell_true em eb : beat_cell em eb = Some true <-> beats em eb.
Proof.
  unfold beat_cell, beats. destruct em as [x|]; simpl.
  - split.
    + intros H. inversion H as [Hb]. clear H. exists x. split; [reflexivity|].
      apply orb_true_iff in Hb. destruct Hb as [Hb|Hb].
      * left. destruct eb as [y|]; simpl in Hb; [|discriminate].
        exists y. split; [reflexivity|]. apply Qlt_bool_iff. exact Hb.
      * right. apply Qlt_bool_iff. exact Hb.
    + intros (x0 & E & H). inversion E; subst x0. f_equal.
      apply orb_true_iff. destruct H as [(y & -> & H)|H].
      * left. simpl. apply Qlt_bool_iff. exact H.
      * right. apply Qlt_bool_iff. exact H.
  - split; [discriminate|]. intros (x & E & _). discriminate.
Qed.

Lemma beat_cell_missing em eb : beat_cell em eb = None <-> em = None.
Proof.
  unfold beat_cell. destruct em; simpl; split; congruence.
Qed.

Lemma beat_cell_false em eb :
  beat_cell em eb = Some false <-> em <> None /\ ~ beats em eb.
Proof.
  rewrite <- beat_cell_true.
  destruct (beat_cell em eb) as [[|]|] eqn:E.
  - split; [discriminate|]. intros [_ H]. exfalso. apply H. reflexivity.
  - split; [|reflexivity]. intros _. split; [|discriminate].
    intros Hm. apply beat_cell_missing with (eb := eb) in Hm. congruence.
  - split; [discriminate|]. intros [H _]. exfalso. apply H.
    apply beat_cell_missing in E. exact E.
Qed.

Lemma traverse_In A B (f : A -> outcome B) l : forall bs,
  traverse f l = Done bs ->
  forall a, In a l -> exists b, f a = Done b /\ In b bs.
Proof.
  induction l as [|x l IH]; simpl; intros bs H a Ha; [destruct Ha|].
  destruct (f x) as [b|] eqn:Hx; [|discriminate].
  destruct (traverse f l) as [bs'|]; [|discriminate].
  inversion H; subst bs. destruct Ha as [<-|Ha].
  - exists b. simpl. auto.
  - destruct (IH bs' eq_refl a Ha) as (b' & Hb & Hin).
    exists b'. simpl. auto.
Qed.

Lemma zip_with_nth_error A B C (f : A -> B -> C) da db l1 : forall l2 i,
  (i < List.length l1)%nat -> (i < List.length l2)%nat ->
  nth_error (zip_with f l1 l2) i = Some (f (nth i l1 da) (nth i l2 db)).
Proof.
  induction l1 as [|a l1 IH]; intros [|b l2] i H1 H2; simpl in *; try lia.
  destruct i as [|i]; [reflexivity|].
  apply (IH l2 i); lia.
Qed.

Lemma error_column_length df locations m col :
  error_column df locations m = Done col ->
  List.length col = List.length locations.
Proof.
  unfold error_column. destruct (getitem m (rows df)); simpl; [|discriminate].
  intros E. inversion E. apply length_map.
Qed.

(** C4.  For every model other than the baseline and every location, the
    beat-baseline value is True exactly when the model's absolute error is
    below the baseline's absolute error there or below 1e-3, False
    otherwise, and missing exactly where the model's own error is missing,
    whatever the baseline's value; an absolute error of 0.0005 beats a
    baseline whose absolute error is 0.0004. *)
Theorem C4_beat_baseline (df_errors_raw : frame)
        (locations df_all_columns : list string)
        (cols : dict (list (option bool))) (model_name : string) :
  beat_baseline df_errors_raw locations df_all_columns = Done cols ->
  In model_name (model_names df_all_columns) ->
  model_name <> baseline ->
  (exists error_model error_baseline col,
      error_column df_errors_raw locations model_name = Done error_model
      /\ error_column df_errors_raw locations baseline = Done error_baseline
      /\ In (("beat_baseline-" ++ model_name)%string, col) cols
      /\ forall i, (i < List.length locations)%nat ->
           exists v,
             nth_error col i = Some v
             /\ (v = Some true <->
                 beats (nth i error_model None) (nth i error_baseline None))
             /\ (v = Some false <->
                 nth i error_model None <> None
                 /\ ~ beats (nth i error_model None)
                            (nth i error_baseline None))
             /\ (v = None <-> nth i error_model None = None))
  /\ beat_cell (Some (5 # 10000)%Q) (Some (4 # 10000)%Q) = Some true
  /\ beat_cell (Some (-5 # 10000)%Q) (Some (4 # 10000)%Q) = Some true
  /\ beat_cell None (Some (4 # 10000)%Q) = None.
Proof.
  intros Hrun Hm Hne.
  split; [|repeat split; reflexivity].
  unfold beat_baseline in Hrun.
  destruct (error_column df_errors_raw locations baseline) as [eb|] eqn:Heb;
    simpl in Hrun; [|discriminate].
  assert (Hin : In model_name
                   (filter (fun m => negb (String.eqb m baseline))
                           (model_names df_all_columns))).
  { apply filter_In. split; [exact Hm|].
    apply negb_true_iff. apply String.eqb_neq. exact Hne. }
  destruct (traverse_In _ _ Hrun _ Hin) as (b & Hb & Hbin).
  destruct (error_column df_errors_raw locations model_name) as [em|] eqn:Hem;
    simpl in Hb; [|discriminate].
  inversion Hb; subst b; clear Hb.
  exists em, eb, (zip_with beat_cell em eb).
  split; [reflexivity|]. split; [reflexivity|]. split; [exact Hbin|].
  intros i Hi.
  exists (beat_cell (nth i em None) (nth i eb None)).
  split.
  - apply zip_with_nth_error.
    + rewrite (error_column_length _ _ _ Hem). exact Hi.
    + rewrite (error_column_length _ _ _ Heb). exact Hi.
  - split; [apply beat_cell_true|].
    split; [apply beat_cell_false|apply beat_cell_missing].
Qed.

Lemma C4_beat_baseline_witness :
  exists col,
    In ("beat_baseline-A-one", col)
       [("beat_baseline-A-one", [Some true; Some false; None; Some true])]
    /\ nth_error col 0 = Some (Some true).
Proof.
  destruct (@C4_beat_baseline
              (mkFrame ["US"; "Alabama"; "Alaska"; "Arizona"]
                 [("A-one", [Some (5 # 10000)%Q; Some 3%Q; None;
                             Some (1 # 10000)%Q]);
                  ("COVIDhub-baseline",
                   [Some (-4 # 10000)%Q; Some (-2)%Q; Some 1%Q; None])])
              ["US"; "Alabama"; "Alaska"; "Arizona"]
              ["actual_cases"; "COVIDhub-baseline"; "A-one"]
              [("beat_baseline-A-one", [Some true; Some false; None; Some true])]
              "A-one")
    as ((em & eb & col & _ & _ & Hin & Hcells) & _).
  - vm_compute. reflexivity.
  - vm_compute. auto.
  - discriminate.
  - exists col. split; [exact Hin|].
    destruct Hin as [E|[]]. inversion E. reflexivity.
Defined.
End BeatBaselineClaims.

(** ** Forecast normalizer *)

Section GroupFacts.
Lemma fold_max_ge xs x : In x xs -> (x <= fold_right Nat.max O xs)%nat.
Proof.
  induction xs as [|a xs IH]; simpl; intros H; [destruct H|].
  destruct H as [->|H]; [lia|]. specialize (IH H). lia.
Qed.

Lemma fold_max_In xs : xs <> [] -> In (fold_right Nat.max O xs) xs.
Proof.
  induction xs as [|a xs IH]; simpl; intros H; [congruence|].
  destruct xs as [|b xs].
  - left. simpl. lia.
  - destruct (Nat.max_spec a (fold_right Nat.max O (b :: xs))) as [[_ E]|[_ E]];
      rewrite E.
    + right. apply IH. discriminate.
    + left. reflexivity.
Qed.

Lemma nodup_all_equal (xs : list nat) m :
  xs <> [] -> (forall x, In x xs -> x = m) ->
  List.length (nodup Nat.eq_dec xs) = 1%nat.
Proof.
  intros Hne Hall.
  assert (Hle : (List.length (nodup Nat.eq_dec xs) <= 1)%nat).
  { apply (@NoDup_incl_length _ (nodup Nat.eq_dec xs) [m]).
    - apply NoDup_nodup.
    - intros x Hx. apply nodup_In in Hx. left. symmetry. apply Hall, Hx. }
  destruct xs as [|a xs]; [congruence|].
  assert (Hin : In a (nodup Nat.eq_dec (a :: xs))) by (apply nodup_In; left; reflexivity).
  destruct (nodup Nat.eq_dec (a :: xs)); [destruct Hin|]. simpl in *. lia.
Qed.

Lemma nodup_two_values (xs : list nat) x y :
  In x xs -> In y xs -> x <> y ->
  (1 < List.length (nodup Nat.eq_dec xs))%nat.
Proof.
  intros Hx Hy Hne.
  apply (nodup_In Nat.eq_dec) in Hx. apply (nodup_In Nat.eq_dec) in Hy.
  destruct (nodup Nat.eq_dec xs) as [|a [|b l]]; simpl in *.
  - destruct Hx.
  - destruct Hx as [<-|[]]. destruct Hy as [<-|[]]. congruence.
  - lia.
Qed.

Lemma filter_all A (f : A -> bool) l :
  (forall x, In x l -> f x = true) -> filter f l = l.
Proof.
  induction l as [|a l IH]; simpl; intros H; [reflexivity|].
  rewrite (H a) by auto. f_equal. apply IH. intros x Hx. apply H. auto.
Qed.

Lemma filter_none A (f : A -> bool) l :
  (forall x, In x l -> f x = false) -> filter f l = [].
Proof.
  induction l as [|a l IH]; simpl; intros H; [reflexivity|].
  rewrite (H a) by auto. apply IH. intros x Hx. apply H. auto.
Qed.

Lemma filter_filter_const A (f g : A -> bool) (b : bool) l :
  (forall x, f x = true -> g x = b) ->
  filter f (filter g l) = if b then filter f l else [].
Proof.
  intros H. induction l as [|a l IH]; simpl; [destruct b; reflexivity|].
  destruct (f a) eqn:Hf.
  - rewrite (H a Hf). destruct b; simpl.
    + rewrite Hf, IH. reflexivity.
    + exact IH.
  - destruct (g a); simpl; [rewrite Hf|]; rewrite IH; reflexivity.
Qed.
End GroupFacts.

Section NormalizerFacts.
Import Forecast.

Lemma at_location_In l df r :
  In r (at_location l df) <-> In r df /\ location r = l.
Proof.
  unfold at_location. rewrite filter_In, String.eqb_eq. tauto.
Qed.

Lemma rows_at_zero l df : ~ In l (map location df) -> at_location l df = [].
Proof.
  intros H. apply filter_none. intros r Hr. apply String.eqb_neq.
  intros E. apply H. apply in_map_iff. exists r. auto.
Qed.

Lemma rows_at_pos l df : In l (map location df) -> (0 < List.length (at_location l df))%nat.
Proof.
  intros H. apply in_map_iff in H. destruct H as (r & E & Hr).
  assert (Hin : In r (at_location l df)) by (apply at_location_In; auto).
  destruct (at_location l df); [destruct Hin|simpl; lia].
Qed.

Lemma sizes_values df :
  map snd (group_sizes df)
  = map (fun l => List.length (at_location l df)) (group_keys (map location df)).
Proof. unfold group_sizes. rewrite map_map. reflexivity. Qed.

Lemma max_size_bound df l : (List.length (at_location l df) <= max_size (group_sizes df))%nat.
Proof.
  destruct (in_dec string_dec l (map location df)) as [Hin|Hout].
  - unfold max_size. apply fold_max_ge. rewrite sizes_values.
    apply in_map_iff. exists l. split; [reflexivity|].
    apply group_keys_In. exact Hin.
  - rewrite (rows_at_zero _ _ Hout). simpl. lia.
Qed.

Lemma max_size_reached df :
  df <> [] ->
  exists l, In l (map location df) /\ List.length (at_location l df) = max_size (group_sizes df).
Proof.
  intros Hne.
  assert (Hs : map snd (group_sizes df) <> []).
  { rewrite sizes_values. destruct df as [|r df]; [congruence|].
    assert (Hin : In (location r) (group_keys (map location (r :: df))))
      by (apply group_keys_In; left; reflexivity).
    destruct (group_keys (map location (r :: df))); [destruct Hin|discriminate]. }
  pose proof (fold_max_In Hs) as Hin. fold (max_size (group_sizes df)) in Hin.
  rewrite sizes_values in Hin. apply in_map_iff in Hin.
  destruct Hin as (l & E & Hl). exists l. split; [|exact E].
  rewrite group_keys_In in Hl. exact Hl.
Qed.

(** the rows that the filter on complete locations keeps *)
Lemma at_location_kept l m df :
  at_location l (filter (fun r => Nat.eqb (List.length (at_location (location r) df)) m) df)
  = if Nat.eqb (List.length (at_location l df)) m then at_location l df else [].
Proof.
  unfold at_location at 1.
  apply (filter_filter_const (fun r => String.eqb (location r) l)
           (fun r => Nat.eqb (List.length (at_location (location r) df)) m)).
  intros r E. apply String.eqb_eq in E. rewrite E. reflexivity.
Qed.

Lemma groupby_sum_missing l df :
  at_location l df = [] -> dict_get l (groupby_sum df) = None.
Proof.
  intros H. unfold groupby_sum.
  rewrite dict_get_tabulate with (f := fun l => nansum (map value (at_location l df))).
  destruct (in_dec string_dec l (group_keys (map location df))) as [Hin|];
    [|reflexivity].
  rewrite group_keys_In in Hin. apply rows_at_pos in Hin. rewrite H in Hin.
  simpl in Hin. lia.
Qed.


Lemma select_estimate_incl use_point fips df r :
  In r (select_estimate use_point fips df) -> In r df.
Proof.
  unfold select_estimate.
  destruct (has_point df && (use_point || negb (has_median df)));
    intros H; apply filter_In in H; apply H.
Qed.

Lemma at_location_empty_incl l (df df' : list row) :
  (forall r, In r df' -> In r df) ->
  at_location l df = [] -> at_location l df' = [].
Proof.
  intros Hincl H. apply filter_none. intros r Hr.
  destruct (String.eqb (location r) l) eqn:E; [|reflexivity].
  assert (Hin : In r (at_location l df)).
  { apply at_location_In. split; [auto|]. apply String.eqb_eq. exact E. }
  rewrite H in Hin. destruct Hin.
Qed.

(** the horizon filter when the locations have differing numbers of rows *)
Lemma complete_horizons_differing df_model l1 l2 :
  let inc := filter inc_case df_model in
  In l1 (map location inc) -> In l2 (map location inc) ->
  List.length (at_location l1 inc) <> List.length (at_location l2 inc) ->
  complete_horizons df_model
  = Done (filter (fun r => Nat.eqb (List.length (at_location (location r) inc))
                                   (max_size (group_sizes inc))) inc).
Proof.
  intros inc H1 H2 Hne.
  set (M := max_size (group_sizes inc)).
  set (kept := filter (fun r => Nat.eqb (List.length (at_location (location r) inc)) M) inc).
  assert (Hgt : Nat.ltb 1 (List.length (unique (group_sizes inc))) = true).
  { apply Nat.ltb_lt. unfold unique.
    apply nodup_two_values with (List.length (at_location l1 inc)) (List.length (at_location l2 inc));
      [| |exact Hne]; rewrite sizes_values; apply in_map_iff;
      eexists; (split; [reflexivity|]); apply group_keys_In; assumption. }
  assert (Hkinc : filter inc_case kept = kept).
  { apply filter_all. intros r Hr. unfold kept in Hr.
    apply filter_In in Hr. destruct Hr as [Hr _].
    unfold inc in Hr. apply filter_In in Hr. apply Hr. }
  assert (Hne' : inc <> []).
  { destruct inc; [destruct H1|discriminate]. }
  destruct (max_size_reached Hne') as (l0 & Hl0 & Hm). fold M in Hm.
  assert (Hone : List.length (unique (group_sizes kept)) = 1%nat).
  { unfold unique. apply nodup_all_equal with M.
    - rewrite sizes_values.
      apply in_map_iff in Hl0. destruct Hl0 as (r & E & Hr).
      assert (Hk : In (location r) (group_keys (map location kept))).
      { apply group_keys_In. apply in_map. unfold kept. apply filter_In.
        split; [exact Hr|]. rewrite E. apply Nat.eqb_eq. exact Hm. }
      destruct (group_keys (map location kept)); [destruct Hk|discriminate].
    - intros x Hx. rewrite sizes_values in Hx. apply in_map_iff in Hx.
      destruct Hx as (l & <- & Hl). rewrite group_keys_In in Hl.
      apply rows_at_pos in Hl. unfold kept in *.
      rewrite at_location_kept in *.
      destruct (Nat.eqb (List.length (at_location l inc)) M) eqn:E.
      + apply Nat.eqb_eq. exact E.
      + simpl in Hl. lia. }
  unfold complete_horizons. fold inc. rewrite Hgt. fold M. fold kept.
  rewrite Hkinc, Hone. reflexivity.
Qed.
End NormalizerFacts.

Section NormalizerClaims.
Import Forecast.
Local Open Scope nat_scope.

(** C5.  When the weekly incident-case rows of a model have differing
    numbers of rows per location, every location with fewer rows than the
    largest number is dropped from the rows of the model and has no total,
    while the model goes on with its complete locations, whose rows are
    all kept. *)
Theorem C5_incomplete_locations_dropped (df_model : list row)
        (l1 l2 : string) :
  let inc := filter inc_case df_model in
  In l1 (map location inc) -> In l2 (map location inc) ->
  List.length (at_location l1 inc) <> List.length (at_location l2 inc) ->
  exists kept M,
    complete_horizons df_model = Done kept
    /\ (forall l, List.length (at_location l inc) <= M)
    /\ (exists l, In l (map location inc)
                  /\ List.length (at_location l inc) = M)
    /\ (forall l, List.length (at_location l inc) < M ->
                  at_location l kept = [])
    /\ (forall l, List.length (at_location l inc) = M ->
                  at_location l kept = at_location l inc)
    /\ (forall l use_point fips,
          List.length (at_location l inc) < M ->
          dict_get l (groupby_sum (select_estimate use_point fips kept)) = None)
    /\ (forall df_model_raw eval_date use_point u p,
          df_model
          = filter (fun r => (target_end_date r <=? eval_date)%Z) df_model_raw ->
          normalize df_model_raw eval_date use_point u = Done (Some p) ->
          forall l, List.length (at_location l inc) < M ->
                    dict_get l (df_model_filt_values p) = None).
Proof.
  intros inc H1 H2 Hne.
  pose proof (complete_horizons_differing df_model l1 l2 H1 H2 Hne) as Hrun.
  fold inc in Hrun.
  set (M := max_size (group_sizes inc)) in *.
  set (kept := filter (fun r => Nat.eqb (List.length (at_location (location r) inc)) M)
                      inc) in *.
  assert (Hne' : inc <> []) by (destruct inc; [destruct H1|discriminate]).
  assert (Hdrop : forall l, List.length (at_location l inc) < M ->
                            at_location l kept = []).
  { intros l Hl. unfold kept. rewrite at_location_kept.
    destruct (Nat.eqb (List.length (at_location l inc)) M) eqn:E; [|reflexivity].
    apply Nat.eqb_eq in E. lia. }
  assert (Htot : forall l use_point fips,
             List.length (at_location l inc) < M ->
             dict_get l (groupby_sum (select_estimate use_point fips kept)) = None).
  { intros l use_point fips Hl. apply groupby_sum_missing.
    apply at_location_empty_incl with kept; [|apply Hdrop; exact Hl].
    intros r. apply select_estimate_incl. }
  exists kept, M.
  split; [exact Hrun|]. split; [intros l; apply max_size_bound|].
  split; [apply max_size_reached; exact Hne'|]. split; [exact Hdrop|].
  split; [|split; [exact Htot|]].
  - intros l Hl. unfold kept. rewrite at_location_kept.
    rewrite <- Hl, Nat.eqb_refl. reflexivity.
  - intros raw eval_date use_point u p Hraw Hnorm l Hl.
    unfold normalize in Hnorm. rewrite <- Hraw in Hnorm. fold inc in Hnorm.
    destruct (Nat.eqb (List.length inc) 0); [discriminate|].
    destruct (Nat.eqb _ 0); [discriminate|].
    rewrite Hrun in Hnorm. simpl in Hnorm.
    destruct (Nat.leb _ _); simpl in Hnorm; [|discriminate].
    destruct (Nat.eqb _ 0); [discriminate|].
    inversion Hnorm; subst p; clear Hnorm. simpl.
    apply Htot. exact Hl.
Qed.

Lemma C5_incomplete_locations_dropped_witness :
  exists p,
    normalize Samples.df_gap Samples.eval_date true Samples.universe
    = Done (Some p)
    /\ dict_get "02" (df_model_filt_values p) = None.
Proof.
  destruct (normalize Samples.df_gap Samples.eval_date true Samples.universe)
    as [[p|]|] eqn:Hn;
    [|vm_compute in Hn; discriminate Hn|vm_compute in Hn; discriminate Hn].
  exists p. split; [reflexivity|].
  destruct (@C5_incomplete_locations_dropped Samples.df_gap "01" "02")
    as (kept & M & _ & Hmax & _ & _ & _ & _ & Hp).
  - vm_compute. auto 10.
  - vm_compute. auto 20.
  - vm_compute. discriminate.
  - apply (Hp Samples.df_gap Samples.eval_date true Samples.universe p).
    + vm_compute. reflexivity.
    + exact Hn.
    + apply Nat.lt_le_trans with (List.length
                                    (at_location "01" (filter inc_case Samples.df_gap))).
      * vm_compute. lia.
      * apply Hmax.
Defined.

(** a location reporting weeks 1, 2 and 4 beside locations reporting weeks
    1 to 4 *)
Example gap_location_dropped :
  option_map (fun p => map fst (df_model_filt_values p))
    match normalize Samples.df_gap Samples.eval_date true Samples.universe with
    | Done p => p
    | Abort _ => None
    end
  = Some ["01"; "US"].
Proof. vm_compute. reflexivity. Qed.
End NormalizerClaims.

Section EstimateChoiceClaims.
Import Forecast.



(** a location with quantile rows only gets no total when point rows are
    chosen, although its median is in the file; with the median preferred
    it gets its median *)
Example quantile_only_location :
  map fst (groupby_sum
             (select_estimate true (Locations.fips_to_evaluate Samples.universe)
                              Samples.df_mixed))
  = ["01"; "US"]
  /\ map fst (groupby_sum
                (select_estimate false
                   (Locations.fips_to_evaluate Samples.universe)
                   Samples.df_mixed))
     = ["01"; "02"; "US"].
Proof. vm_compute. split; reflexivity. Qed.
End EstimateChoiceClaims.

(** ** Scorer: national consistency *)

Section ConsistencyClaims.
Import Scorer.

Lemma consistent_agree e u : consistent e u = true <-> agree e u.
Proof.
  unfold consistent, agree, nan_eq, isnull.
  destruct e as [x|], u as [y|]; simpl.
  - rewrite orb_false_r, Qeq_bool_iff. split.
    + intros H. left. exists x, y. auto.
    + intros [(x' & y' & E1 & E2 & H)|[E _]]; [|discriminate].
      inversion E1. inversion E2. subst. exact H.
  - split; [discriminate|].
    intros [(x' & y' & _ & E & _)|[E _]]; discriminate.
  - split; [discriminate|].
    intros [(x' & y' & E & _)|[_ E]]; discriminate.
  - split; [intros _; right; auto|reflexivity].
Qed.

Lemma same_labels_iff a b : same_labels a b = true <-> keys a = keys b.
Proof.
  unfold same_labels.
  destruct (list_eq_dec string_dec (keys a) (keys b)); split; congruence.
Qed.

Lemma zip_with_maps A B C D (f : B -> C -> D) (g : A -> B) (h : A -> C) l :
  zip_with f (map g l) (map h l) = map (fun x => f (g x) (h x)) l.
Proof.
  unfold zip_with. induction l as [|a l IH]; simpl; [reflexivity|].
  rewrite IH. reflexivity.
Qed.

Lemma combine_keys V (a b : dict V) p q :
  keys a = keys b -> In (p, q) (List.combine a b) -> fst p = fst q.
Proof.
  unfold keys. revert b. induction a as [|x a IH]; intros [|y b] Hk Hin;
    simpl in *; try contradiction.
  inversion Hk. destruct Hin as [E|Hin].
  - inversion E; subst. assumption.
  - apply (IH b); assumption.
Qed.

(** C7.  The check passes exactly when the two series carry the same
    models and, for every model, the national error (predicted minus
    actual) and the "US" entry of the per-location table are both present
    and equal or both missing; in every other case the run aborts. *)
Theorem C7_national_consistency (df_errors_us df_errors : frame)
        (error us : dict cell) :
  national_error df_errors_us = Done error ->
  get_column "US" df_errors = Done us ->
  (exists jp ja,
      position "predicted_cases" (columns df_errors_us) = Some jp
      /\ position "actual_cases" (columns df_errors_us) = Some ja
      /\ error = map (fun r => (fst r, nan_sub (cell_at jp r) (cell_at ja r)))
                     (rows df_errors_us))
  /\ (consistency_check df_errors_us df_errors = Done tt <->
      keys error = keys us
      /\ forall p q, In (p, q) (List.combine error us) ->
                     fst p = fst q /\ agree (snd p) (snd q))
  /\ (consistency_check df_errors_us df_errors <> Done tt ->
      exists msg, consistency_check df_errors_us df_errors = Abort msg)
  /\ (forall p q, In (p, q) (List.combine error us) ->
                  ~ agree (snd p) (snd q) ->
                  exists msg, consistency_check df_errors_us df_errors = Abort msg).
Proof.
  intros Herr Hus.
  assert (Hchk : consistency_check df_errors_us df_errors = Done tt <->
            keys error = keys us
            /\ forall p q, In (p, q) (List.combine error us) ->
                           fst p = fst q /\ agree (snd p) (snd q)).
  { unfold consistency_check. rewrite Herr, Hus. simpl.
    destruct (same_labels error us) eqn:Hl; simpl.
    - apply same_labels_iff in Hl.
      destruct (forallb _ (List.combine error us)) eqn:Hall; simpl.
      + split; [intros _|reflexivity]. split; [exact Hl|].
        intros p q Hin. split; [exact (combine_keys _ _ _ _ Hl Hin)|].
        rewrite forallb_forall in Hall. apply consistent_agree.
        exact (Hall (p, q) Hin).
      + split; [discriminate|]. intros [_ H]. exfalso.
        assert (Ht : forallb (fun p => consistent (snd (fst p)) (snd (snd p)))
                             (List.combine error us) = true).
        { apply forallb_forall. intros [p q] Hin. simpl.
          apply consistent_agree. apply (H p q Hin). }
        congruence.
    - split; [discriminate|]. intros [Hk _]. apply same_labels_iff in Hk.
      congruence. }
  assert (Habort : consistency_check df_errors_us df_errors <> Done tt ->
            exists msg, consistency_check df_errors_us df_errors = Abort msg).
  { destruct (consistency_check df_errors_us df_errors) as [[]|msg];
      [congruence|]. intros _. exists msg. reflexivity. }
  split; [|split; [exact Hchk|split; [exact Habort|]]].
  - unfold national_error, get_column in Herr.
    destruct (position "predicted_cases" (columns df_errors_us)) as [jp|];
      simpl in Herr; [|discriminate].
    destruct (position "actual_cases" (columns df_errors_us)) as [ja|];
      simpl in Herr; [|discriminate].
    exists jp, ja. split; [reflexivity|]. split; [reflexivity|].
    inversion Herr. apply zip_with_maps.
  - intros p q Hin Hno. apply Habort. intros Hd.
    apply Hchk in Hd. destruct Hd as [_ H]. apply Hno. apply (H p q Hin).
Qed.

Lemma C7_national_consistency_witness :
  consistency_check
    (national_table [("A-one", Some 130%Q); ("B-two", None)] 100%Q)
    (mkFrame ["Alabama"; "US"]
             [("A-one", [Some 2%Q; Some (60 # 2)%Q]); ("B-two", [Some 1%Q; None])])
  = Done tt.
Proof.
  destruct (@C7_national_consistency
              (national_table [("A-one", Some 130%Q); ("B-two", None)] 100%Q)
              (mkFrame ["Alabama"; "US"]
                 [("A-one", [Some 2%Q; Some (60 # 2)%Q]);
                  ("B-two", [Some 1%Q; None])])
              [("A-one", Some (130 - 100)%Q); ("B-two", None)]
              [("A-one", Some (60 # 2)%Q); ("B-two", None)]
              eq_refl eq_refl)
    as (_ & Hiff & _).
  apply Hiff. split; [reflexivity|].
  intros p q [E|[E|[]]]; inversion E; subst; simpl; split; try reflexivity.
  - left. exists (130 - 100)%Q, (60 # 2)%Q. repeat split. 
  - right. split; reflexivity.
Defined.

(** a national error without its "US" entry ends the run, and so does a
    different value *)
Example inconsistent_runs_abort :
  (exists msg,
      consistency_check
        (national_table [("A-one", Some 130%Q)] 100%Q)
        (mkFrame ["US"] [("A-one", [None])]) = Abort msg)
  /\ (exists msg,
      consistency_check
        (national_table [("A-one", Some 130%Q)] 100%Q)
        (mkFrame ["US"] [("A-one", [Some 31%Q])]) = Abort msg).
Proof. split; eexists; vm_compute; reflexivity. Qed.
End ConsistencyClaims.

(** ** Model merger *)

Section MergerClaims.
Import Merger.

Lemma nanmean_mean_of l : mean_of (present l) (nanmean l).
Proof.
  unfold mean_of, nanmean. destruct (present l) as [|v vs] eqn:E;
    [reflexivity|].
  eexists. split; [reflexivity|].
  set (n := inject_Z (Z.of_nat (List.length (v :: vs)))).
  assert (Hn : ~ (n == 0)%Q).
  { unfold n. intros H. unfold Qeq in H. simpl in H. lia. }
  rewrite Qmult_comm. apply Qmult_div_r. exact Hn.
Qed.

Lemma mean_axis0_nth width rs j :
  (j < width)%nat -> nth j (mean_axis0 width rs) None = nanmean (column j rs).
Proof.
  intros Hj. unfold mean_axis0.
  rewrite (nth_indep _ None (nanmean (column O rs)))
    by (rewrite length_map, length_seq; exact Hj).
  rewrite (map_nth (fun j => nanmean (column j rs))).
  rewrite seq_nth by exact Hj. reflexivity.
Qed.

(** C8.  For the configured prefix, in each of the two tables on its own:
    when some model name matches, the matching rows are removed, the
    other rows are kept as they are, and one row named
    [prefix-combined] is appended whose value in each column is the
    unweighted mean of the values of the removed rows; when no model
    name matches, the table is left as it is. *)
Theorem C8_merge_prefix (prefix : string) (df : frame) :
  let matching := filter (mask prefix) (rows df) in
  let merged := merge_table prefix df in
  (forall r, mask prefix r = true <-> contains prefix (fst r) = true)
  /\ (matching <> [] ->
      columns merged = columns df
      /\ exists df_avg,
          rows merged
          = filter (fun r => negb (mask prefix r)) (rows df)
              ++ [((prefix ++ "-combined")%string, df_avg)]
          /\ List.length df_avg = List.length (columns df)
          /\ forall j, (j < List.length (columns df))%nat ->
               mean_of (present (column j matching)) (nth j df_avg None))
  /\ (matching = [] -> merged = df)
  /\ merge_models_prefixes = ["Imperial"]
  /\ (forall df_errors df_errors_us,
        merge true df_errors df_errors_us
        = (merge_table "Imperial" df_errors,
           merge_table "Imperial" df_errors_us))
  /\ (forall df_errors df_errors_us,
        merge false df_errors df_errors_us = (df_errors, df_errors_us)).
Proof.
  intros matching merged.
  split; [intros r; reflexivity|].
  split; [|split; [|split; [reflexivity|split; reflexivity]]].
  - intros Hne. unfold merged, merge_table. fold matching.
    assert (Hpos : Nat.ltb 0 (List.length matching) = true).
    { apply Nat.ltb_lt. destruct matching; [congruence|simpl; lia]. }
    rewrite Hpos. clearbody matching. cbn [columns rows].
    split; [reflexivity|].
    eexists. split; [reflexivity|].
    split; [unfold mean_axis0; rewrite length_map, length_seq; reflexivity|].
    intros j Hj. rewrite mean_axis0_nth by exact Hj.
    apply nanmean_mean_of.
  - intros He. unfold merged, merge_table. fold matching. rewrite He.
    reflexivity.
Qed.

(** two submissions of one family are replaced by their mean, a missing
    value left out of it; a table without the family is unchanged *)
Example merge_sample :
  merge_table "Imperial"
    (mkFrame ["US"; "Alabama"]
       [("A-one", [Some 1%Q; Some 2%Q]);
        ("Imperial-ensemble1", [Some 4%Q; None]);
        ("B-two", [None; Some 3%Q]);
        ("Imperial-ensemble2", [Some 8%Q; Some 5%Q])])
  = mkFrame ["US"; "Alabama"]
      [("A-one", [Some 1%Q; Some 2%Q]);
       ("B-two", [None; Some 3%Q]);
       ("Imperial-combined", [Some (12 # 2)%Q; Some (5 # 1)%Q])]
  /\ merge_table "Imperial"
       (mkFrame ["US"] [("A-one", [Some 1%Q]); ("B-two", [None])])
     = mkFrame ["US"] [("A-one", [Some 1%Q]); ("B-two", [None])].
Proof. vm_compute. split; reflexivity. Qed.
End MergerClaims.

(** ** Location codes *)

Section LocationFacts.
Import Locations.

Lemma dict_set_In V k (v : V) d k' v' :
  In (k', v') (dict_set k v d) -> v' = v \/ In (k', v') d.
Proof.
  induction d as [|[k0 v0] d IH]; simpl.
  - intros [E|[]]. inversion E. auto.
  - destruct (String.eqb k k0); simpl.
    + intros [E|H]; [inversion E; auto|auto].
    + intros [E|H]; [auto|]. destruct (IH H); auto.
Qed.

Lemma dict_set_key V k (v : V) d k' :
  In k' (keys (dict_set k v d)) -> k' = k \/ In k' (keys d).
Proof.
  unfold keys. induction d as [|[k0 v0] d IH]; simpl.
  - intros [E|[]]. auto.
  - destruct (String.eqb_spec k k0) as [->|Hne]; simpl.
    + intros [E|H]; auto.
    + intros [E|H]; [auto|]. destruct (IH H); auto.
Qed.

Lemma dict_get_In V k (d : dict V) v : dict_get k d = Some v -> In (k, v) d.
Proof.
  induction d as [|[k0 v0] d IH]; simpl; [discriminate|].
  destruct (String.eqb_spec k k0) as [->|Hne].
  - intros E. inversion E. auto.
  - auto.
Qed.

Lemma getitem_In V k (d : dict V) v : getitem k d = Done v -> In (k, v) d.
Proof.
  unfold getitem. destruct (dict_get k d) eqn:E; [|discriminate].
  intros H. inversion H; subst. apply dict_get_In. exact E.
Qed.

Lemma with_abbreviation_In df a r :
  In (a, r) (with_abbreviation df) -> In r df /\ abbreviation r = Some a.
Proof.
  unfold with_abbreviation. rewrite in_flat_map.
  intros (r0 & Hr0 & H). destruct (abbreviation r0) as [a0|] eqn:E;
    [|destruct H].
  destruct H as [H|[]]. inversion H; subst. auto.
Qed.

Lemma to_dict_from (col : row -> string) (rows : list (string * row)) :
  forall (d : dict string) k v,
  In (k, v) (fold_left (fun d ar => dict_set (fst ar) (col (snd ar)) d) rows d) ->
  In (k, v) d \/ exists ar, In ar rows /\ v = col (snd ar).
Proof.
  induction rows as [|ar rows IH]; simpl; intros d k v H; [auto|].
  destruct (IH _ _ _ H) as [Hd|(ar' & Hin & E)].
  - destruct (dict_set_In _ _ _ _ _ Hd) as [E|Hd'].
    + right. exists ar. auto.
    + auto.
  - right. exists ar'. auto.
Qed.

Lemma to_dict_In col df k v :
  In (k, v) (to_dict col (with_abbreviation df)) ->
  exists r a, In r df /\ abbreviation r = Some a /\ v = col r.
Proof.
  unfold to_dict. intros H. apply to_dict_from in H.
  destruct H as [[]|([a r] & Hin & E)].
  apply with_abbreviation_In in Hin. exists r, a. simpl in E. tauto.
Qed.

Lemma traverse_from A B (f : A -> outcome B) l : forall bs,
  traverse f l = Done bs ->
  forall b, In b bs -> exists a, In a l /\ f a = Done b.
Proof.
  induction l as [|x l IH]; simpl; intros bs H b Hb.
  - inversion H; subst. destruct Hb.
  - destruct (f x) as [b0|] eqn:Hx; [|discriminate].
    destruct (traverse f l) as [bs'|]; [|discriminate].
    inversion H; subst bs. destruct Hb as [<-|Hb].
    + exists x. auto.
    + destruct (IH bs' eq_refl b Hb) as (a & Ha & E). exists a. auto.
Qed.

Lemma fold_keys_from (names : dict string) items : forall acc d,
  fold_left (fun acc kv =>
               bind acc (fun d =>
                 bind (getitem (fst kv) names) (fun name =>
                   Done (dict_set (snd kv) name d))))
            items acc = Done d ->
  exists d0, acc = Done d0
             /\ forall k, In k (keys d) ->
                  In k (keys d0) \/ exists kv, In kv items /\ k = snd kv.
Proof.
  induction items as [|kv items IH]; simpl; intros acc d H.
  - exists d. auto.
  - destruct (IH _ _ H) as (d1 & E1 & Hk).
    destruct acc as [d0|]; simpl in E1; [|discriminate].
    exists d0. split; [reflexivity|].
    destruct (getitem (fst kv) names) as [name|]; simpl in E1; [|discriminate].
    inversion E1; subst d1. intros k Hin.
    destruct (Hk k Hin) as [H0|(kv' & Hkv & E)].
    + destruct (dict_set_key _ _ _ _ H0) as [->|H0']; [|auto].
      right. exists kv. auto.
    + right. exists kv'. auto.
Qed.

Lemma add_leading_zero_length v : String.length (add_leading_zero v) <> 1%nat.
Proof.
  unfold add_leading_zero.
  destruct (Nat.eqb (String.length v) 1) eqn:E.
  - apply Nat.eqb_eq in E. simpl. rewrite E. discriminate.
  - apply Nat.eqb_neq in E. exact E.
Qed.
End LocationFacts.

Section LocationClaims.
Import Locations.

Lemma complete_horizons_incl df kept r :
  Forecast.complete_horizons df = Done kept -> In r kept -> In r df.
Proof.
  unfold Forecast.complete_horizons.
  destruct (Nat.ltb 1 _).
  - destruct (Nat.eqb _ 1); simpl; [|discriminate].
    intros E. inversion E; subst kept. intros H.
    apply filter_In in H. destruct H as [H _].
    apply filter_In in H. apply H.
  - destruct (Nat.eqb _ 1); simpl; [|discriminate].
    intros E. inversion E; subst kept. auto.
Qed.

Lemma select_estimate_isin use_point fips df r :
  In r (Forecast.select_estimate use_point fips df) ->
  In (Forecast.location r) fips.
Proof.
  unfold Forecast.select_estimate.
  destruct (Forecast.has_point df && _); intros H; apply filter_In in H;
    destruct H as [_ H]; apply andb_true_iff in H; destruct H as [_ H];
    apply isin_In; exact H.
Qed.

End LocationClaims.

(** * Further properties *)

(** ** The arguments of the run *)

Section PreconditionFacts.
Import Main.
Local Open Scope Z_scope.

(** X1.  A run that gets past the checks on its arguments has its projection
    date on a Monday and its evaluation date on a later Saturday, so the
    days ahead are 5 more than a whole number of weeks, the model ran date
    is a Sunday, and the truth window from the model ran date to the
    evaluation date has [days_ahead + 2] days. *)
Theorem preconditions_days_ahead (forecast_hub_isdir : bool)
        (proj_date eval_date : Dates.date) (rd : run_dates) :
  preconditions forecast_hub_isdir proj_date eval_date = Done rd ->
  forecast_hub_isdir = true
  /\ weekday proj_date = 0 /\ weekday eval_date = 5
  /\ days_ahead rd = eval_date - proj_date
  /\ 5 <= days_ahead rd /\ days_ahead rd mod 7 = 5
  /\ model_ran_date rd = proj_date - 1
  /\ weekday (model_ran_date rd) = 6
  /\ eval_date - model_ran_date rd + 1 = days_ahead rd + 2.
Proof.
  unfold preconditions.
  destruct forecast_hub_isdir; simpl; [|discriminate].
  destruct (proj_date <? eval_date) eqn:Hlt; simpl; [|discriminate].
  destruct (weekday proj_date =? 0) eqn:Hp; simpl; [|discriminate].
  destruct (weekday eval_date =? 5) eqn:He; simpl; [|discriminate].
  intros E. inversion E; subst rd; clear E. simpl.
  apply Z.ltb_lt in Hlt. apply Z.eqb_eq in Hp. apply Z.eqb_eq in He.
  unfold weekday in *.
  repeat split; try reflexivity; try assumption;
    Z.to_euclidean_division_equations; lia.
Qed.

Lemma preconditions_days_ahead_witness :
  exists rd,
    preconditions true Samples.proj_date Samples.eval_date = Done rd
    /\ days_ahead rd = 26.
Proof.
  exists (mkRunDates (Samples.proj_date - 1)
                     (Samples.eval_date - Samples.proj_date)).
  destruct (@preconditions_days_ahead true Samples.proj_date Samples.eval_date
              (mkRunDates (Samples.proj_date - 1)
                          (Samples.eval_date - Samples.proj_date)) eq_refl)
    as (_ & _ & _ & H & _).
  split; [reflexivity|]. rewrite H. reflexivity.
Defined.

Lemma fold_abort A (f : outcome unit -> A -> outcome unit) msg l :
  (forall a, f (Abort msg) a = Abort msg) ->
  fold_left f l (Abort msg) = Abort msg.
Proof.
  intros H. induction l as [|a l IH]; simpl; [reflexivity|].
  rewrite H. exact IH.
Qed.

Lemma validate_fold columns required :
  (fold_left (fun acc col => (acc ;;; assert (isin col columns) col)%run)
             required (Done tt) = Done tt
   /\ forall c, In c required -> In c columns)
  \/ exists pre msg post,
      required = pre ++ msg :: post
      /\ (forall c, In c pre -> In c columns)
      /\ ~ In msg columns
      /\ fold_left (fun acc col => (acc ;;; assert (isin col columns) col)%run)
                   required (Done tt) = Abort msg.
Proof.
  induction required as [|c required IH]; simpl.
  - left. split; [reflexivity|]. intros c [].
  - destruct (isin c columns) eqn:Hc; simpl.
    + apply isin_In in Hc.
      destruct IH as [[Hd Hall]|(pre & msg & post & E & Hpre & Hm & Ha)].
      * left. split; [exact Hd|]. intros x [<-|Hx]; auto.
      * right. exists (c :: pre), msg, post.
        split; [simpl; f_equal; exact E|].
        split; [|split; [exact Hm|exact Ha]].
        intros x [<-|Hx]; auto.
    + right. exists [], c, required.
      split; [reflexivity|]. split; [intros x []|]. split.
      * intros H. apply isin_In in H. congruence.
      * apply fold_abort. intros a. reflexivity.
Qed.

(** X2.  The check on the columns of a forecast file passes exactly when the
    seven columns are all there; otherwise the run aborts and the message is
    the first column, in the order the code lists them, that is missing. *)
Theorem validate_columns_first_missing (columns : list string) :
  (validate_columns columns = Done tt <->
   forall c, In c required_columns -> In c columns)
  /\ (forall msg,
        validate_columns columns = Abort msg ->
        exists pre post,
          required_columns = pre ++ msg :: post
          /\ (forall c, In c pre -> In c columns)
          /\ ~ In msg columns)
  /\ List.length required_columns = 7%nat.
Proof.
  unfold validate_columns.
  destruct (validate_fold columns required_columns)
    as [[Hd Hall]|(pre & m & post & E & Hpre & Hm & Ha)].
  - rewrite Hd. split; [|split; [discriminate|reflexivity]].
    split; auto.
  - rewrite Ha. split; [|split; [|reflexivity]].
    + split; [discriminate|]. intros Hall. exfalso. apply Hm, Hall.
      rewrite E. apply in_or_app. right. left. reflexivity.
    + intros msg Hmsg. inversion Hmsg; subst msg. exists pre, post. auto.
Qed.
End PreconditionFacts.

(** ** Sorted file lists *)

Section SortedFacts.

Lemma leb_cons x a y b :
  String.leb (String x a) (String y b)
  = match Ascii.compare x y with
    | Eq => String.leb a b
    | Lt => true
    | Gt => false
    end.
Proof.
  unfold String.leb. simpl. destruct (Ascii.compare x y); reflexivity.
Qed.

Lemma ascii_compare_trans x y z :
  Ascii.compare x y <> Gt -> Ascii.compare y z <> Gt ->
  Ascii.compare x z <> Gt
  /\ (Ascii.compare x z = Eq ->
      Ascii.compare x y = Eq /\ Ascii.compare y z = Eq).
Proof.
  unfold Ascii.compare.
  destruct (N.compare_spec (N_of_ascii x) (N_of_ascii y));
    destruct (N.compare_spec (N_of_ascii y) (N_of_ascii z));
    destruct (N.compare_spec (N_of_ascii x) (N_of_ascii z));
    intros Hxy Hyz; split; try congruence; try lia; intros _; split;
    try reflexivity; lia.
Qed.

Lemma leb_trans a : forall b c,
  String.leb a b = true -> String.leb b c = true -> String.leb a c = true.
Proof.
  induction a as [|x a IH]; intros [|y b] [|z c]; try reflexivity;
    try discriminate.
  rewrite !leb_cons. intros H1 H2.
  assert (Hxy : Ascii.compare x y <> Gt)
    by (destruct (Ascii.compare x y); congruence).
  assert (Hyz : Ascii.compare y z <> Gt)
    by (destruct (Ascii.compare y z); congruence).
  destruct (ascii_compare_trans x y z Hxy Hyz) as [Hxz Heq].
  destruct (Ascii.compare x z) eqn:E; [|reflexivity|congruence].
  destruct (Heq eq_refl) as [E1 E2]. rewrite E1 in H1. rewrite E2 in H2.
  exact (IH b c H1 H2).
Qed.

Lemma is_sorted_cons a l :
  is_sorted (a :: l) = true <->
  (forall x, In x l -> String.leb a x = true) /\ is_sorted l = true.
Proof.
  revert a. induction l as [|b l IH]; intros a.
  - simpl. split; [intros _; split; [intros x []|reflexivity]|reflexivity].
  - change (is_sorted (a :: b :: l))
      with (String.leb a b && is_sorted (b :: l)).
    rewrite andb_true_iff. split.
    + intros [Hab Hs]. split; [|exact Hs].
      intros x [<-|Hx]; [exact Hab|].
      apply leb_trans with b; [exact Hab|]. apply IH in Hs. apply Hs, Hx.
    + intros [Hall Hs]. split; [|exact Hs]. apply Hall. left. reflexivity.
Qed.

Lemma is_sorted_filter (p : string -> bool) l :
  is_sorted l = true -> is_sorted (filter p l) = true.
Proof.
  induction l as [|a l IH]; [reflexivity|].
  intros Hs. apply is_sorted_cons in Hs. destruct Hs as [Hall Hs].
  simpl. destruct (p a); [|exact (IH Hs)].
  apply is_sorted_cons. split; [|exact (IH Hs)].
  intros x Hx. apply filter_In in Hx. apply Hall, Hx.
Qed.

Lemma is_sorted_sort l : is_sorted (StringSort.sort l) = true.
Proof.
  pose proof (StringSort.LocallySorted_sort l) as H.
  induction H as [|a|a b r H IH Hab]; try reflexivity.
  change (is_sorted (a :: b :: r)) with (String.leb a b && is_sorted (b :: r)).
  rewrite IH. unfold is_true, StringOrder.leb in Hab. rewrite Hab. reflexivity.
Qed.

Lemma step_outside proj_date st f :
  in_window proj_date f = false -> step proj_date st f = st.
Proof.
  unfold in_window, step. destruct (file_date f); [|reflexivity].
  intros ->. reflexivity.
Qed.

Lemma fold_step_filter proj_date (p : string -> bool) l : forall st,
  (forall f, In f l -> p f = false -> in_window proj_date f = false) ->
  fold_left (step proj_date) (filter p l) st = fold_left (step proj_date) l st.
Proof.
  induction l as [|a l IH]; intros st H; [reflexivity|].
  simpl. destruct (p a) eqn:Ha; simpl.
  - apply IH. intros f Hf. apply H. right. exact Hf.
  - rewrite (step_outside _ _ _ (H a (or_introl eq_refl) Ha)).
    apply IH. intros f Hf. apply H. right. exact Hf.
Qed.

(** X3.  The file selector depends only on the files that qualify: on a sorted
    list, leaving out the names that do not start with a date, or all the
    files outside the tolerance window, gives the same answer, and the
    shorter list is sorted too, so nothing aborts. *)
Theorem selector_ignores_other_files (fnames : list string)
        (proj_date : date) :
  is_sorted fnames = true ->
  find_last_projections (filter dated fnames) proj_date
  = find_last_projections fnames proj_date
  /\ find_last_projections (filter (in_window proj_date) fnames) proj_date
     = find_last_projections fnames proj_date
  /\ exists r, find_last_projections fnames proj_date = Done r.
Proof.
  intros Hs. unfold find_last_projections.
  rewrite !is_sorted_filter by exact Hs. rewrite Hs.
  split; [|split; [|eexists; reflexivity]]; f_equal; apply fold_step_filter.
  - intros f _ Hf. unfold dated in Hf. unfold in_window.
    destruct (file_date f); [discriminate|reflexivity].
  - intros f _ Hf. exact Hf.
Qed.

Lemma selector_ignores_other_files_witness :
  find_last_projections
    (filter dated ["2020-06-13-A-B.csv"; "README.csv"; "metadata-A-B.csv"])
    (ymd2ord 2020 6 15)
  = find_last_projections
      ["2020-06-13-A-B.csv"; "README.csv"; "metadata-A-B.csv"]
      (ymd2ord 2020 6 15).
Proof.
  apply (@selector_ignores_other_files
           ["2020-06-13-A-B.csv"; "README.csv"; "metadata-A-B.csv"]
           (ymd2ord 2020 6 15)).
  reflexivity.
Defined.
End SortedFacts.

(** ** The loop over the model directories *)

Section FetchFacts.
Import Main.
Variable isdir : string -> bool.
Variable glob_csv : string -> list string.
Variable proj_date : date.

Lemma dict_set_entry V k (v : V) d k' v' :
  In (k', v') (dict_set k v d) -> (k' = k /\ v' = v) \/ In (k', v') d.
Proof.
  induction d as [|[k0 v0] d IH]; simpl.
  - intros [E|[]]. inversion E. auto.
  - destruct (String.eqb_spec k k0) as [->|Hne]; simpl.
    + intros [E|H]; [inversion E; auto|auto].
    + intros [E|H]; [auto|]. destruct (IH H); auto.
Qed.

Lemma dict_set_has_key V k (v : V) d : In k (keys (dict_set k v d)).
Proof.
  unfold keys. induction d as [|[k0 v0] d IH]; simpl; [auto|].
  destruct (String.eqb_spec k k0) as [->|Hne]; simpl; auto.
Qed.

Lemma dict_set_keeps_keys V k (v : V) d k' :
  In k' (keys d) -> In k' (keys (dict_set k v d)).
Proof.
  unfold keys. induction d as [|[k0 v0] d IH]; simpl; [intros []|].
  destruct (String.eqb_spec k k0) as [->|Hne]; simpl; intros [E|H]; auto.
Qed.

Lemma dict_set_NoDup V k (v : V) d :
  NoDup (keys d) -> NoDup (keys (dict_set k v d)).
Proof.
  unfold keys. induction d as [|[k0 v0] d IH]; simpl; intros H.
  - constructor; [intros []|constructor].
  - inversion H as [|x l Hnot Hnd]; subst.
    destruct (String.eqb_spec k k0) as [->|Hne]; simpl.
    + constructor; assumption.
    + constructor; [|apply IH; exact Hnd].
      intros Hin.
      destruct (dict_set_key _ _ _ _ Hin) as [E|Hk]; [congruence|].
      apply Hnot. exact Hk.
Qed.

Lemma in_window_qualifies f :
  in_window proj_date f = true <-> exists d, qualifies proj_date f d.
Proof.
  unfold in_window, qualifies. destruct (file_date f) as [d|].
  - rewrite andb_true_iff, !Z.leb_le. split.
    + intros H. exists d. tauto.
    + intros (d' & E & H). inversion E; subst. exact H.
  - split; [discriminate|]. intros (d & E & _). discriminate.
Qed.

Lemma sort_In l (x : string) : In x (StringSort.sort l) <-> In x l.
Proof.
  split; intros H.
  - apply (Permutation_in _ (Permutation_sym (StringSort.Permuted_sort l)) H).
  - apply (Permutation_in _ (StringSort.Permuted_sort l) H).
Qed.

(** what the dictionary holds after the directories [seen] *)
Let fetched (seen : list string) (d : dict (string * option date)) : Prop :=
  (forall name f od, In (name, (f, od)) d ->
     exists dir dt, In dir seen /\ isdir dir = true /\ basename dir = name
                    /\ In f (glob_csv dir) /\ od = Some dt
                    /\ qualifies proj_date f dt)
  /\ (forall dir, In dir seen -> isdir dir = true ->
        (exists f, In f (glob_csv dir) /\ in_window proj_date f = true) ->
        In (basename dir) (keys d))
  /\ NoDup (keys d).

Lemma fetch_model_step seen d dir :
  fetched seen d ->
  exists d', fetch_model isdir glob_csv proj_date (Done d) dir = Done d'
             /\ fetched (dir :: seen) d'.
Proof.
  intros (Hs & Hc & Hn). unfold fetch_model. simpl.
  destruct (isdir dir) eqn:Hdir; simpl.
  - unfold find_last_projections. rewrite is_sorted_sort. simpl.
    pose proof (selected_loop proj_date (StringSort.sort (glob_csv dir))) as Hsel.
    destruct Hsel as [[E Hnone]|(f & dt & l1 & l2 & E & Hl & Hq & _)];
      rewrite E; simpl.
    + exists d. split; [reflexivity|]. split; [|split; [|exact Hn]].
      * intros name f od Hin.
        destruct (Hs name f od Hin) as (dir0 & dt & H0 & H).
        exists dir0, dt. split; [right; exact H0|exact H].
      * intros dir0 [<-|Hin] Hd Hex; [|exact (Hc dir0 Hin Hd Hex)].
        exfalso. destruct Hex as (f & Hf & Hw).
        apply in_window_qualifies in Hw. destruct Hw as (dt & Hq).
        apply (Hnone f dt); [apply sort_In; exact Hf|exact Hq].
    + eexists. split; [reflexivity|]. split; [|split].
      * intros name f0 od Hin.
        destruct (dict_set_entry _ _ _ _ _ Hin) as [[-> Ev]|Hold].
        -- inversion Ev; subst f0 od. exists dir, dt.
           split; [left; reflexivity|]. split; [exact Hdir|].
           split; [reflexivity|]. split; [|split; [reflexivity|exact Hq]].
           apply sort_In. rewrite Hl. apply in_or_app. right. left. reflexivity.
        -- destruct (Hs name f0 od Hold) as (dir0 & dt0 & H0 & H).
           exists dir0, dt0. split; [right; exact H0|exact H].
      * intros dir0 [<-|Hin] Hd Hex; [apply dict_set_has_key|].
        apply dict_set_keeps_keys. exact (Hc dir0 Hin Hd Hex).
      * apply dict_set_NoDup. exact Hn.
  - exists d. split; [reflexivity|]. split; [|split; [|exact Hn]].
    + intros name f od Hin.
      destruct (Hs name f od Hin) as (dir0 & dt & H0 & H).
      exists dir0, dt. split; [right; exact H0|exact H].
    + intros dir0 [<-|Hin] Hd Hex; [congruence|exact (Hc dir0 Hin Hd Hex)].
Qed.

Lemma fetch_fold l : forall seen d,
  fetched seen d ->
  exists d', fold_left (fetch_model isdir glob_csv proj_date) l (Done d) = Done d'
             /\ fetched (rev l ++ seen) d'.
Proof.
  induction l as [|dir l IH]; intros seen d H; cbn [fold_left rev app].
  - exists d. auto.
  - destruct (fetch_model_step dir H) as (d1 & E & H1). rewrite E.
    destruct (IH _ _ H1) as (d' & E' & H').
    exists d'. split; [exact E'|]. rewrite <- app_assoc. exact H'.
Qed.

(** X4.  The loop over the model directories never aborts: every list of files
    it hands to the file selector is sorted.  A model is in the result
    exactly when its directory holds a file that qualifies, the file kept
    for it is one of its own that qualifies, and no model comes twice. *)
Theorem fetch_projections_models (all_models_dirs : list string) :
  exists model_to_projections,
    fetch_projections isdir glob_csv proj_date all_models_dirs
    = Done model_to_projections
    /\ (forall name f od,
          In (name, (f, od)) model_to_projections ->
          exists dir dt,
            In dir all_models_dirs /\ isdir dir = true /\ basename dir = name
            /\ In f (glob_csv dir) /\ od = Some dt /\ qualifies proj_date f dt)
    /\ (forall dir,
          In dir all_models_dirs -> isdir dir = true ->
          (exists f, In f (glob_csv dir) /\ in_window proj_date f = true) ->
          In (basename dir) (keys model_to_projections))
    /\ NoDup (keys model_to_projections).
Proof.
  unfold fetch_projections.
  destruct (@fetch_fold (StringSort.sort all_models_dirs) [] [])
    as (d & E & Hs & Hc & Hn).
  { split; [intros name f od []|]. split; [intros dir []|constructor]. }
  exists d. split; [exact E|]. rewrite app_nil_r in Hs, Hc.
  split; [|split; [|exact Hn]].
  - intros name f od Hin. destruct (Hs name f od Hin) as (dir & dt & H0 & H).
    exists dir, dt. split; [|exact H]. apply sort_In. apply in_rev. exact H0.
  - intros dir Hin. apply Hc. apply in_rev. rewrite rev_involutive.
    apply sort_In. exact Hin.
Qed.
End FetchFacts.

(** ** Dates in file names *)

Section IsoFacts.
Import Iso.
Local Open Scope Z_scope.

Lemma digit_cases k :
  0 <= k <= 9 ->
  k = 0 \/ k = 1 \/ k = 2 \/ k = 3 \/ k = 4 \/ k = 5 \/ k = 6 \/ k = 7
  \/ k = 8 \/ k = 9.
Proof. lia. Qed.

Lemma digit_val_char k : 0 <= k <= 9 -> digit_val (digit_char k) = Some k.
Proof.
  intros H. destruct (digit_cases H) as [E|[E|[E|[E|[E|[E|[E|[E|[E|E]]]]]]]]];
    subst k; reflexivity.
Qed.

Lemma digit_char_not_slash k :
  0 <= k <= 9 -> Ascii.eqb (digit_char k) "/"%char = false.
Proof.
  intros H. destruct (digit_cases H) as [E|[E|[E|[E|[E|[E|[E|[E|[E|E]]]]]]]]];
    subst k; reflexivity.
Qed.

Lemma re_Y_digits y r :
  0 <= y <= 9999 -> re_Y (digits4 y ++ r) = [(y, r)].
Proof.
  intros Hy. unfold re_Y, digits4. cbn [app].
  rewrite !digit_val_char by (Z.to_euclidean_division_equations; lia).
  do 3 f_equal. Z.to_euclidean_division_equations; lia.
Qed.

Lemma re_m_digits m r :
  1 <= m <= 12 -> exists tl, re_m (digits2 m ++ r) = (m, r) :: tl.
Proof.
  intros Hm.
  assert (Hc : m = 1 \/ m = 2 \/ m = 3 \/ m = 4 \/ m = 5 \/ m = 6 \/ m = 7
               \/ m = 8 \/ m = 9 \/ m = 10 \/ m = 11 \/ m = 12) by lia.
  repeat (destruct Hc as [Hc|Hc]; [subst m; eexists; vm_compute; reflexivity|]).
  subst m. eexists. vm_compute. reflexivity.
Qed.

Lemma re_d_digits d r :
  1 <= d <= 31 -> exists tl, re_d (digits2 d ++ r) = (d, r) :: tl.
Proof.
  intros Hd.
  assert (Hc : d = 1 \/ d = 2 \/ d = 3 \/ d = 4 \/ d = 5 \/ d = 6 \/ d = 7
               \/ d = 8 \/ d = 9 \/ d = 10 \/ d = 11 \/ d = 12 \/ d = 13
               \/ d = 14 \/ d = 15 \/ d = 16 \/ d = 17 \/ d = 18 \/ d = 19
               \/ d = 20 \/ d = 21 \/ d = 22 \/ d = 23 \/ d = 24 \/ d = 25
               \/ d = 26 \/ d = 27 \/ d = 28 \/ d = 29 \/ d = 30 \/ d = 31)
    by lia.
  repeat (destruct Hc as [Hc|Hc]; [subst d; eexists; vm_compute; reflexivity|]).
  subst d. eexists. vm_compute. reflexivity.
Qed.

Lemma re_ymd_digits y m d r :
  0 <= y <= 9999 -> 1 <= m <= 12 -> 1 <= d <= 31 ->
  exists tl,
    re_ymd (digits4 y ++ "-"%char :: digits2 m ++ "-"%char :: digits2 d ++ r)
    = (y, m, d, r) :: tl.
Proof.
  intros Hy Hm Hd. unfold re_ymd.
  rewrite (re_Y_digits _ Hy). cbn [flat_map dash Ascii.eqb Bool.eqb].
  destruct (re_m_digits ("-"%char :: digits2 d ++ r) Hm) as (tlm & Em).
  rewrite Em. cbn [flat_map dash Ascii.eqb Bool.eqb].
  destruct (re_d_digits r Hd) as (tld & Ed).
  rewrite Ed. cbn [map app]. eexists. reflexivity.
Qed.

Lemma mkdate_valid y m d dt :
  mkdate y m d = Some dt ->
  1 <= y <= 9999 /\ 1 <= m <= 12 /\ 1 <= d <= days_in_month y m
  /\ dt = ymd2ord y m d.
Proof.
  unfold mkdate.
  destruct ((1 <=? y) && (y <=? 9999) && (1 <=? m) && (m <=? 12)
            && (1 <=? d) && (d <=? days_in_month y m)) eqn:E; [|discriminate].
  intros H. inversion H.
  repeat (apply andb_true_iff in E; destruct E as [E ?]).
  repeat match goal with H : (_ <=? _) = true |- _ => apply Z.leb_le in H end.
  lia.
Qed.

Lemma days_in_month_bound y m : 28 <= days_in_month y m <= 31.
Proof.
  unfold days_in_month.
  destruct (m =? 2); [destruct (is_leap y); lia|].
  destruct ((m =? 4) || (m =? 6) || (m =? 9) || (m =? 11)); lia.
Qed.

Lemma str_to_date_isoformat y m d dt :
  mkdate y m d = Some dt -> str_to_date (isoformat y m d) = Some dt.
Proof.
  intros Hv. destruct (mkdate_valid _ _ _ Hv) as (Hy & Hm & Hd & _).
  pose proof (days_in_month_bound y m) as Hb.
  unfold str_to_date, isoformat. rewrite list_ascii_of_string_of_list_ascii.
  destruct (@re_ymd_digits y m d [])
    as (tl & E); try lia.
  rewrite app_nil_r in E. rewrite E. exact Hv.
Qed.

Lemma has_slash_app a b : has_slash (a ++ b) = has_slash a || has_slash b.
Proof.
  induction a as [|c a IH]; simpl; [reflexivity|].
  rewrite IH. apply orb_assoc.
Qed.

Lemma basename_no_slash s : has_slash s = false -> basename s = s.
Proof.
  destruct s as [|c s]; simpl; [reflexivity|].
  intros H. apply orb_false_iff in H. destruct H as [Hc Hs].
  rewrite Hs, Hc. reflexivity.
Qed.

Lemma basename_dir dir : forall s,
  has_slash s = false -> basename (dir ++ String "/" s) = s.
Proof.
  induction dir as [|c dir IH]; intros s Hs; simpl.
  - rewrite Hs. reflexivity.
  - rewrite has_slash_app. simpl. rewrite orb_true_r. apply IH. exact Hs.
Qed.

Lemma has_slash_isoformat y m d :
  0 <= y <= 9999 -> 1 <= m <= 12 -> 1 <= d <= 31 ->
  has_slash (isoformat y m d) = false.
Proof.
  intros Hy Hm Hd. unfold isoformat, digits4, digits2.
  cbn [app string_of_list_ascii has_slash].
  rewrite !digit_char_not_slash by (Z.to_euclidean_division_equations; lia).
  reflexivity.
Qed.

Lemma substring_prefix (s rest : string) :
  substring 0 (String.length s) (s ++ rest) = s.
Proof.
  induction s as [|c s IH]; simpl.
  - destruct rest; reflexivity.
  - rewrite IH. reflexivity.
Qed.

Lemma length_string_of_list l :
  String.length (string_of_list_ascii l) = List.length l.
Proof. induction l as [|c l IH]; simpl; [reflexivity|]. rewrite IH. reflexivity. Qed.

Lemma substring_isoformat y m d rest :
  substring 0 10 (isoformat y m d ++ rest) = isoformat y m d.
Proof.
  assert (E : String.length (isoformat y m d) = 10%nat).
  { unfold isoformat. rewrite length_string_of_list. reflexivity. }
  rewrite <- E at 1. apply substring_prefix.
Qed.

(** X5.  A file whose name starts with the date [YYYY-MM-DD] of a calendar day
    is read as that day, whatever the directory it lies in and whatever
    follows the date in its name; on its own the date reads back as the
    day it was written from. *)
Theorem file_date_of_iso_name (y m d : Z) (dt : date) (dir rest : string) :
  mkdate y m d = Some dt ->
  has_slash rest = false ->
  str_to_date (isoformat y m d) = Some dt
  /\ file_date (isoformat y m d ++ rest) = Some dt
  /\ file_date (dir ++ String "/" (isoformat y m d ++ rest)) = Some dt.
Proof.
  intros Hv Hrest.
  destruct (mkdate_valid _ _ _ Hv) as (Hy & Hm & Hd & _).
  pose proof (days_in_month_bound y m) as Hb.
  assert (Hs : has_slash (isoformat y m d ++ rest) = false).
  { rewrite has_slash_app, Hrest, has_slash_isoformat by lia. reflexivity. }
  split; [exact (str_to_date_isoformat _ _ _ Hv)|].
  unfold file_date.
  rewrite (basename_dir dir _ Hs), (basename_no_slash _ Hs).
  rewrite substring_isoformat. rewrite (str_to_date_isoformat _ _ _ Hv).
  split; reflexivity.
Qed.

Lemma file_date_of_iso_name_witness :
  file_date ("data-processed/A-B" ++ String "/" (isoformat 2020 6 15 ++ "-A-B.csv"))
  = Some (ymd2ord 2020 6 15).
Proof.
  apply (@file_date_of_iso_name 2020 6 15 (ymd2ord 2020 6 15)
           "data-processed/A-B" "-A-B.csv"); reflexivity.
Defined.
End IsoFacts.

(** ** The normalizer as a whole *)

Section NormalizerTotalFacts.
Import Forecast.

Lemma nodup_two_values_inv (xs : list nat) :
  (1 < List.length (nodup Nat.eq_dec xs))%nat ->
  exists x y, In x xs /\ In y xs /\ x <> y.
Proof.
  intros H. pose proof (NoDup_nodup Nat.eq_dec xs) as Hnd.
  destruct (nodup Nat.eq_dec xs) as [|a [|b l]] eqn:E; simpl in H; try lia.
  exists a, b.
  assert (Ha : In a (nodup Nat.eq_dec xs)) by (rewrite E; simpl; auto).
  assert (Hb : In b (nodup Nat.eq_dec xs)) by (rewrite E; simpl; auto).
  apply nodup_In in Ha. apply nodup_In in Hb.
  split; [exact Ha|]. split; [exact Hb|].
  inversion Hnd as [|? ? Hnot _]; subst. intros ->. apply Hnot. left. reflexivity.
Qed.

Lemma sizes_nonempty df : df <> [] -> map snd (group_sizes df) <> [].
Proof.
  intros Hne. rewrite sizes_values. destruct df as [|r df]; [congruence|].
  assert (Hin : In (location r) (group_keys (map location (r :: df))))
    by (apply group_keys_In; left; reflexivity).
  destruct (group_keys (map location (r :: df))); [destruct Hin|discriminate].
Qed.

Lemma size_of_location df l :
  In l (map location df) ->
  In (List.length (at_location l df)) (map snd (group_sizes df)).
Proof.
  intros H. rewrite sizes_values. apply in_map_iff. exists l.
  split; [reflexivity|]. apply group_keys_In. exact H.
Qed.

Lemma complete_horizons_runs df_model :
  filter inc_case df_model <> [] ->
  exists kept,
    complete_horizons df_model = Done kept
    /\ (forall r, In r kept -> In r df_model)
    /\ (exists r, In r kept /\ inc_case r = true)
    /\ (forall r1 r2,
          In r1 kept -> In r2 kept ->
          inc_case r1 = true -> inc_case r2 = true ->
          List.length (at_location (location r1) (filter inc_case kept))
          = List.length (at_location (location r2) (filter inc_case kept))).
Proof.
  intros Hne. set (inc := filter inc_case df_model) in *.
  destruct (Nat.ltb 1 (List.length (unique (group_sizes inc)))) eqn:Hgt.
  - apply Nat.ltb_lt in Hgt. unfold unique in Hgt.
    destruct (nodup_two_values_inv _ Hgt) as (x & y & Hx & Hy & Hxy).
    rewrite sizes_values in Hx, Hy. apply in_map_iff in Hx, Hy.
    destruct Hx as (l1 & <- & H1). destruct Hy as (l2 & <- & H2).
    rewrite group_keys_In in H1, H2.
    pose proof (complete_horizons_differing df_model l1 l2 H1 H2 Hxy) as Hrun.
    fold inc in Hrun. set (M := max_size (group_sizes inc)) in *.
    eexists. split; [exact Hrun|].
    assert (Hkinc : forall r,
               In r (filter (fun r => Nat.eqb (List.length (at_location (location r) inc)) M) inc)
               -> In r inc /\ List.length (at_location (location r) inc) = M).
    { intros r Hr. apply filter_In in Hr. destruct Hr as [Hr E].
      apply Nat.eqb_eq in E. auto. }
    split; [|split].
    + intros r Hr. apply Hkinc in Hr. destruct Hr as [Hr _].
      apply filter_In in Hr. apply Hr.
    + destruct (max_size_reached Hne) as (l0 & Hl0 & Hm). fold inc M in Hm.
      apply in_map_iff in Hl0. destruct Hl0 as (r & E & Hr).
      exists r. split.
      * apply filter_In. split; [exact Hr|]. rewrite E. apply Nat.eqb_eq, Hm.
      * apply filter_In in Hr. apply Hr.
    + intros r1 r2 Hr1 Hr2 _ _.
      rewrite filter_all.
      2:{ intros r Hr. apply Hkinc in Hr. destruct Hr as [Hr _].
          apply filter_In in Hr. apply Hr. }
      rewrite !at_location_kept.
      apply Hkinc in Hr1, Hr2. destruct Hr1 as [_ E1]. destruct Hr2 as [_ E2].
      rewrite E1, E2, Nat.eqb_refl. congruence.
  - apply Nat.ltb_ge in Hgt.
    assert (Hone : List.length (unique (group_sizes inc)) = 1%nat).
    { pose proof (sizes_nonempty Hne) as Hs. unfold unique in *.
      destruct (map snd (group_sizes inc)) as [|a xs] eqn:E; [congruence|].
      assert (Hin : In a (nodup Nat.eq_dec (a :: xs)))
        by (apply nodup_In; left; reflexivity).
      destruct (nodup Nat.eq_dec (a :: xs)); [destruct Hin|simpl in *; lia]. }
    exists df_model. split.
    + unfold complete_horizons. fold inc.
      apply Nat.ltb_ge in Hgt. rewrite Hgt, Hone. reflexivity.
    + split; [auto|]. split.
      * destruct inc as [|r inc'] eqn:E; [congruence|].
        exists r.
        assert (Hr : In r (filter inc_case df_model))
          by (fold inc; rewrite E; left; reflexivity).
        apply filter_In in Hr. exact Hr.
      * intros r1 r2 Hr1 Hr2 Hi1 Hi2. fold inc.
        destruct (Nat.eq_dec (List.length (at_location (location r1) inc))
                             (List.length (at_location (location r2) inc)))
          as [E|Hd]; [exact E|].
        exfalso.
        assert (Hl : forall r, In r df_model -> inc_case r = true ->
                               In (location r) (map location inc)).
        { intros r Hr Hi. apply in_map. apply filter_In. auto. }
        pose proof (@nodup_two_values _ _ _
                      (@size_of_location inc _ (Hl r1 Hr1 Hi1))
                      (@size_of_location inc _ (Hl r2 Hr2 Hi2)) Hd) as H.
        unfold unique in Hgt. lia.
Qed.

(** X6.  After the two checks that skip a model without weekly incident-case
    rows, the assertion on the numbers of rows per location cannot fail:
    the horizon filter always returns, with rows of the model only, at
    least one weekly incident-case row, and the same number of such rows
    at every location it keeps. *)
Theorem complete_horizons_never_aborts (df_model : list row) :
  filter inc_case df_model <> [] ->
  exists kept,
    complete_horizons df_model = Done kept
    /\ (forall r, In r kept -> In r df_model)
    /\ (exists r, In r kept /\ inc_case r = true)
    /\ (forall r1 r2,
          In r1 kept -> In r2 kept ->
          inc_case r1 = true -> inc_case r2 = true ->
          List.length (at_location (location r1) (filter inc_case kept))
          = List.length (at_location (location r2) (filter inc_case kept))).
Proof. exact (@complete_horizons_runs df_model). Qed.

Lemma complete_horizons_never_aborts_witness :
  exists kept,
    complete_horizons Samples.df_gap = Done kept
    /\ List.length kept = 8%nat.
Proof.
  destruct (@complete_horizons_never_aborts Samples.df_gap)
    as (kept & E & _).
  - vm_compute. discriminate.
  - exists kept. split; [exact E|].
    vm_compute in E. inversion E. reflexivity.
Defined.
End NormalizerTotalFacts.

(** ** The location universe as a whole *)

Section UniverseFacts.
Import Locations.

Lemma fold_set_keys A V (kf : A -> string) (vf : A -> V) l : forall d0 k,
  In k (keys (fold_left (fun d x => dict_set (kf x) (vf x) d) l d0)) <->
  In k (keys d0) \/ exists x, In x l /\ kf x = k.
Proof.
  induction l as [|a l IH]; intros d0 k; simpl.
  - split; [auto|]. intros [H|(x & [] & _)]. exact H.
  - rewrite IH. split.
    + intros [H|(x & Hx & E)].
      * destruct (dict_set_key _ _ _ _ H) as [->|H']; [|auto].
        right. exists a. auto.
      * right. exists x. auto.
    + intros [H|(x & [<-|Hx] & E)].
      * left. apply dict_set_keeps_keys. exact H.
      * left. subst k. apply dict_set_has_key.
      * right. exists x. auto.
Qed.

Lemma fold_set_NoDup A V (kf : A -> string) (vf : A -> V) l : forall d0,
  NoDup (keys d0) ->
  NoDup (keys (fold_left (fun d x => dict_set (kf x) (vf x) d) l d0)).
Proof.
  induction l as [|a l IH]; intros d0 H; simpl; [exact H|].
  apply IH. apply dict_set_NoDup. exact H.
Qed.

Lemma dict_set_keys_eq V W k (v : V) (w : W) d : forall d',
  keys d = keys d' -> keys (dict_set k v d) = keys (dict_set k w d').
Proof.
  unfold keys. induction d as [|[k0 v0] d IH]; intros [|[k1 w1] d'] H;
    simpl in *; try discriminate; [reflexivity|].
  inversion H; subst k1.
  destruct (String.eqb k k0); simpl; f_equal; auto.
Qed.





Lemma traverse_runs A B (f : A -> outcome B) l :
  (forall a, In a l -> exists b, f a = Done b) ->
  exists bs, traverse f l = Done bs.
Proof.
  induction l as [|a l IH]; intros H; simpl; [eexists; reflexivity|].
  destruct (H a (or_introl eq_refl)) as (b & ->).
  destruct IH as (bs & ->); [intros x Hx; apply H; right; exact Hx|].
  eexists. reflexivity.
Qed.









End UniverseFacts.

Section UniverseClaims.
Import Locations.


(** X8.  In county mode the universe is always built.  Its codes are the
    location codes of the rows without an abbreviation and of the nation,
    each once and without 11001, and every code stands for itself as its
    name. *)
Theorem counties_universe_codes (df_loc : list row) :
  exists u,
    counties_universe df_loc = Done u
    /\ NoDup (fips_to_evaluate u)
    /\ (forall c, In c (fips_to_evaluate u) <->
                  c <> "11001"
                  /\ exists r, In r df_loc /\ location r = c
                               /\ (abbreviation r = None \/ c = "US"))
    /\ (forall c name, In (c, name) (fips_to_us_state u) -> name = c).
Proof.
  eexists. split; [reflexivity|]. simpl.
  set (rows := filter (fun r => match abbreviation r with
                                | None => true
                                | Some _ => String.eqb (location r) "US"
                                end) df_loc).
  split; [|split].
  - apply NoDup_filter. apply fold_set_NoDup. constructor.
  - intros c. rewrite filter_In, negb_true_iff, String.eqb_neq.
    rewrite (fold_set_keys (fun r : row => location r) (fun r => location r)).
    split.
    + intros [[[]|(r & Hr & E)] Hne]. split; [exact Hne|].
      unfold rows in Hr. apply filter_In in Hr. destruct Hr as [Hr Hk].
      exists r. split; [exact Hr|]. split; [exact E|].
      destruct (abbreviation r); [|auto].
      right. apply String.eqb_eq in Hk. congruence.
    + intros (Hne & r & Hr & E & Hk). split; [|exact Hne].
      right. exists r. split; [|exact E].
      unfold rows. apply filter_In. split; [exact Hr|].
      destruct (abbreviation r); [|reflexivity].
      destruct Hk as [Hk|Hk]; [discriminate|].
      apply String.eqb_eq. congruence.
  - intros c name.
    assert (H : forall (l : list row) (d : dict string),
               (forall k v, In (k, v) d -> v = k) ->
               forall k v,
                 In (k, v) (fold_left (fun d r => dict_set (location r) (location r) d) l d)
                 -> v = k).
    { induction l as [|r l IH]; intros d Hd k v; simpl; [apply Hd|].
      apply IH. intros k' v' Hin.
      destruct (dict_set_entry _ _ _ _ _ Hin) as [[-> ->]|Hold];
        [reflexivity|exact (Hd _ _ Hold)]. }
    apply (H rows []). intros k v [].
Qed.
End UniverseClaims.

Section NormalizeClaims.
Import Forecast.


Lemma str_rows_In df x :
  In x (str_rows df) ->
  exists r, In r df /\ Raw.location r = Some (location x)
            /\ Raw.target_end_date r = target_end_date x.
Proof.
  unfold str_rows. rewrite in_flat_map. intros (r & Hr & Hx).
  exists r. destruct (Raw.location r) as [l|]; [|destruct Hx].
  destruct Hx as [<-|[]]. auto.
Qed.

Lemma string_locations_checked raw eval_date :
  forallb (fun r => isinstance_str (Raw.location r))
          (filter (fun r => (Raw.target_end_date r <=? eval_date)%Z) raw)
  = true <->
  forall r, In r raw -> (Raw.target_end_date r <= eval_date)%Z ->
            Raw.location r <> None.
Proof.
  rewrite forallb_forall. split.
  - intros H r Hr Hd.
    assert (Hin : In r (filter (fun r => (Raw.target_end_date r <=? eval_date)%Z)
                               raw))
      by (apply filter_In; split; [exact Hr|apply Z.leb_le; exact Hd]).
    apply H in Hin. destruct (Raw.location r); [discriminate|discriminate Hin].
  - intros H r Hr. apply filter_In in Hr. destruct Hr as [Hr Hd].
    apply Z.leb_le in Hd. specialize (H r Hr Hd).
    destruct (Raw.location r); [reflexivity|congruence].
Qed.

Lemma string_locations_done raw eval_date df :
  string_locations raw eval_date = Done df ->
  df = str_rows (filter (fun r => (Raw.target_end_date r <=? eval_date)%Z) raw)
  /\ forall r, In r raw -> (Raw.target_end_date r <= eval_date)%Z ->
               Raw.location r <> None.
Proof.
  unfold string_locations.
  destruct (forallb _ _) eqn:E; cbn [assert bind]; [|discriminate].
  intros H. inversion H. split; [reflexivity|].
  apply string_locations_checked. exact E.
Qed.

Lemma string_locations_abort raw eval_date msg :
  string_locations raw eval_date = Abort msg ->
  msg = "All FIPS locations must be a string"
  /\ exists r, In r raw /\ (Raw.target_end_date r <= eval_date)%Z
               /\ Raw.location r = None.
Proof.
  unfold string_locations.
  destruct (forallb _ _) eqn:E; cbn [assert bind]; [discriminate|].
  intros H. inversion H. split; [reflexivity|].
  assert (Hex : existsb (fun r => negb (isinstance_str (Raw.location r)))
                  (filter (fun r => (Raw.target_end_date r <=? eval_date)%Z) raw)
                = true).
  { clear H. induction (filter _ raw) as [|r l IH]; simpl in *; [discriminate|].
    destruct (isinstance_str (Raw.location r)); simpl in *; auto. }
  apply existsb_exists in Hex. destruct Hex as (r & Hr & Hn).
  apply filter_In in Hr. destruct Hr as [Hr Hd]. apply Z.leb_le in Hd.
  exists r. destruct (Raw.location r); [discriminate Hn|auto].
Qed.

(** the date filter of [normalize] keeps every row that
    [string_locations] hands over *)
Lemma string_locations_by_date raw eval_date :
  filter (fun r => (target_end_date r <=? eval_date)%Z)
         (str_rows (filter (fun r => (Raw.target_end_date r <=? eval_date)%Z)
                           raw))
  = str_rows (filter (fun r => (Raw.target_end_date r <=? eval_date)%Z) raw).
Proof.
  induction raw as [|r raw IH]; [reflexivity|]. cbn [filter].
  destruct (Raw.target_end_date r <=? eval_date)%Z eqn:E; [|exact IH].
  unfold str_rows in *. cbn [flat_map].
  destruct (Raw.location r); cbn [app]; [|exact IH].
  cbn [filter target_end_date]. rewrite E, IH. reflexivity.
Qed.



(** an empty location in a row of week 1 ends the run *)
Example empty_location_aborts :
  normalize_file Samples.file_empty_location Samples.eval_date false
                 Samples.universe
  = Abort "All FIPS locations must be a string".
Proof. vm_compute. reflexivity. Qed.

Lemma group_keys_length labels :
  List.length (group_keys labels) = List.length (nodup string_dec labels).
Proof.
  unfold group_keys. symmetry. apply Permutation_length.
  apply StringSort.Permuted_sort.
Qed.

Lemma group_keys_sorted labels : is_sorted (group_keys labels) = true.
Proof. apply is_sorted_sort. Qed.

Lemma normalize_done raw eval_date use_point u p :
  normalize raw eval_date use_point u = Done (Some p) ->
  exists kept,
    complete_horizons (filter (fun r => (target_end_date r <=? eval_date)%Z) raw)
    = Done kept
    /\ df_model_filt p
       = select_estimate use_point (Locations.fips_to_evaluate u) kept
    /\ df_model_filt p <> []
    /\ num_locations p
       = List.length (nodup string_dec (map location (df_model_filt p)))
    /\ df_model_filt_values p = groupby_sum (df_model_filt p)
    /\ us_projection p = dict_get "US" (df_model_filt_values p).
Proof.
  unfold normalize.
  destruct (Nat.eqb _ 0); [discriminate|].
  destruct (Nat.eqb _ 0); [discriminate|].
  destruct (complete_horizons _) as [kept|]; cbn [bind]; [|discriminate].
  destruct (Nat.leb _ _); cbn [assert bind]; [|discriminate].
  destruct (Nat.eqb (List.length _) 0) eqn:E; [discriminate|].
  intros H. inversion H; subst p; clear H. cbn.
  exists kept. repeat split.
  intros H0. rewrite H0 in E. discriminate.
Qed.


End NormalizeClaims.

(** ** Location codes through the run *)

Section LocationCodeClaims.
Import Locations.

Lemma states_codes df_loc u :
  states_universe df_loc = Done u ->
  (forall code, In code (fips_to_evaluate u) ->
     String.length code <> 1%nat
     /\ (code = "US"
         \/ exists r a, In r df_loc /\ abbreviation r = Some a
                        /\ code = add_leading_zero (location r)))
  /\ (forall code, In code (keys (fips_to_us_state u)) ->
        String.length code <> 1%nat
        /\ exists r a, In r df_loc /\ abbreviation r = Some a
                       /\ code = add_leading_zero (location r)).
Proof.
  intros Hu. unfold states_universe in Hu.
  destruct (isin "US" _); simpl in Hu; [|discriminate].
  destruct (Nat.eqb _ 58); simpl in Hu; [|discriminate].
  set (padded := map (fun kv => (fst kv, add_leading_zero (snd kv)))
                     (to_dict location (with_abbreviation df_loc))) in Hu.
  assert (Hpad : forall k v, In (k, v) padded ->
            exists r a, In r df_loc /\ abbreviation r = Some a
                        /\ v = add_leading_zero (location r)).
  { intros k v H. unfold padded in H. apply in_map_iff in H.
    destruct H as ([k0 v0] & E & H). inversion E; subst.
    destruct (to_dict_In _ _ _ _ H) as (r & a & Hr & Ha & Ev).
    exists r, a. simpl. rewrite Ev. auto. }
  match type of Hu with
  | bind ?c _ = _ => destruct c as [states|] eqn:Hfold
  end; simpl in Hu; [|discriminate].
  match type of Hu with
  | bind ?c _ = _ => destruct c as [codes|] eqn:Htr
  end; simpl in Hu; [|discriminate].
  inversion Hu; subst u; clear Hu. simpl.
  assert (Hcodes : forall code, In code codes ->
            code = "US"
            \/ exists r a, In r df_loc /\ abbreviation r = Some a
                           /\ code = add_leading_zero (location r)).
  { intros code Hc.
    destruct (traverse_from _ _ Htr _ Hc) as (x & _ & Hx).
    destruct (String.eqb x "US").
    - left. inversion Hx. reflexivity.
    - right. apply getitem_In in Hx. exact (Hpad _ _ Hx). }
  assert (Hstates : forall code, In code (keys states) ->
            exists r a, In r df_loc /\ abbreviation r = Some a
                        /\ code = add_leading_zero (location r)).
  { intros code Hc.
    destruct (fold_keys_from _ _ _ Hfold) as (d0 & E0 & Hk).
    inversion E0; subst d0.
    destruct (Hk code Hc) as [[]|([k v] & Hkv & E)]. simpl in E. subst v.
    exact (Hpad _ _ Hkv). }
  split.
  - intros code Hc. split; [|exact (Hcodes code Hc)].
    destruct (Hcodes code Hc) as [->|(r & a & _ & _ & ->)];
      [discriminate|apply add_leading_zero_length].
  - intros code Hc. split; [|exact (Hstates code Hc)].
    destruct (Hstates code Hc) as (r & a & _ & _ & ->).
    apply add_leading_zero_length.
Qed.

Lemma counties_codes df_loc u :
  counties_universe df_loc = Done u ->
  (forall code, In code (fips_to_evaluate u) <->
     code <> "11001"
     /\ exists r, In r df_loc /\ location r = code
                  /\ (abbreviation r = None \/ code = "US"))
  /\ (forall code, In code (keys (fips_to_us_state u)) <->
        exists r, In r df_loc /\ location r = code
                  /\ (abbreviation r = None \/ code = "US")).
Proof.
  unfold counties_universe. intros Hu. inversion Hu; subst u; clear Hu.
  cbn [fips_to_evaluate fips_to_us_state].
  set (rows := filter (fun r => match abbreviation r with
                                | None => true
                                | Some _ => String.eqb (location r) "US"
                                end) df_loc).
  assert (Hkeys : forall code,
            In code (keys (fold_left
                             (fun d r => dict_set (location r) (location r) d)
                             rows [])) <->
            exists r, In r df_loc /\ location r = code
                      /\ (abbreviation r = None \/ code = "US")).
  { intros code.
    rewrite (fold_set_keys (fun r : row => location r) (fun r => location r)).
    split.
    - intros [[]|(r & Hr & E)].
      unfold rows in Hr. apply filter_In in Hr. destruct Hr as [Hr Hk].
      exists r. split; [exact Hr|]. split; [exact E|].
      destruct (abbreviation r); [|auto].
      right. apply String.eqb_eq in Hk. congruence.
    - intros (r & Hr & E & Hk). right. exists r. split; [|exact E].
      unfold rows. apply filter_In. split; [exact Hr|].
      destruct (abbreviation r); [|reflexivity].
      destruct Hk as [Hk|Hk]; [discriminate|].
      apply String.eqb_eq. congruence. }
  split; [|exact Hkeys].
  intros code. rewrite filter_In, negb_true_iff, String.eqb_neq, Hkeys.
  tauto.
Qed.

Lemma truth_locations raw proj_date eval_date fips res l :
  Truth.truth_loader raw proj_date eval_date fips = Done res ->
  In l (keys (Truth.df_truth_filt res)) ->
  In l fips /\ exists r, In r raw /\ Truth.location r = l.
Proof.
  intros Hrun Hl. unfold Truth.truth_loader in Hrun.
  destruct (Nat.ltb 0 _); simpl in Hrun; [|discriminate].
  destruct (Nat.eqb _ _); simpl in Hrun; [|discriminate].
  destruct (getitem "US" _); simpl in Hrun; [|discriminate].
  inversion Hrun; subst res; clear Hrun. simpl in Hl.
  unfold keys in Hl. apply in_map_iff in Hl.
  destruct Hl as ([l0 v] & E & Hin). simpl in E. subst l0.
  apply filter_In in Hin. destruct Hin as [Hin Hisin]. simpl in Hisin.
  split; [apply isin_In; exact Hisin|].
  unfold Truth.groupby_sum in Hin. apply in_map_iff in Hin.
  destruct Hin as (l0 & E & Hk). inversion E; subst l0.
  rewrite group_keys_In in Hk. apply in_map_iff in Hk.
  destruct Hk as (r & Er & Hr). exists r. split; [|exact Er].
  unfold Truth.window in Hr. apply filter_In in Hr. apply Hr.
Qed.

Lemma normalize_locations raw eval_date use_point u p l :
  Forecast.normalize raw eval_date use_point u = Done (Some p) ->
  In l (keys (Forecast.df_model_filt_values p)) ->
  In l (fips_to_evaluate u)
  /\ exists r, In r raw /\ Forecast.location r = l.
Proof.
  intros Hrun Hl. unfold Forecast.normalize in Hrun.
  destruct (Nat.eqb _ 0); [discriminate|].
  destruct (Nat.eqb _ 0); [discriminate|].
  destruct (Forecast.complete_horizons _) as [kept|] eqn:Hk;
    simpl in Hrun; [|discriminate].
  destruct (Nat.leb _ _); simpl in Hrun; [|discriminate].
  destruct (Nat.eqb _ 0); [discriminate|].
  inversion Hrun; subst p; clear Hrun. simpl in Hl.
  unfold keys, Forecast.groupby_sum in Hl. rewrite map_map in Hl.
  simpl in Hl. rewrite map_id in Hl.
  rewrite group_keys_In in Hl. apply in_map_iff in Hl.
  destruct Hl as (r & Er & Hr). subst l.
  split; [apply (select_estimate_isin _ _ _ _ Hr)|].
  exists r. split; [|reflexivity].
  apply select_estimate_incl in Hr.
  apply (complete_horizons_incl _ _ Hk) in Hr.
  apply filter_In in Hr. apply Hr.
Qed.

(** C9, as the code has it.  In state mode every one-character code of
    the locations table is zero-padded ("1" becomes "01") before the
    universe of locations is built, and longer codes are left as they
    are, so no code of the universe has a single character.  In county
    mode the universe holds the codes of the table as they are read.  The
    codes of truth and forecast rows are matched against the universe as
    the strings they are: every location of the truth totals and of the
    forecast totals is the code of a row, unchanged, and a forecast row
    that ends by the evaluation date and has no string as its location
    ends the run. *)
Theorem C9_location_codes :
  add_leading_zero "1" = "01"
  /\ add_leading_zero "01" = "01"
  /\ (forall v, String.length v = 1%nat ->
                add_leading_zero v = ("0" ++ v)%string)
  /\ (forall v, String.length v <> 1%nat -> add_leading_zero v = v)
  /\ (forall df_loc u,
        states_universe df_loc = Done u ->
        (forall code, In code (fips_to_evaluate u) ->
           String.length code <> 1%nat
           /\ (code = "US"
               \/ exists r a, In r df_loc /\ abbreviation r = Some a
                              /\ code = add_leading_zero (location r)))
        /\ (forall code, In code (keys (fips_to_us_state u)) ->
              String.length code <> 1%nat
              /\ exists r a, In r df_loc /\ abbreviation r = Some a
                             /\ code = add_leading_zero (location r)))
  /\ (forall df_loc u,
        counties_universe df_loc = Done u ->
        (forall code, In code (fips_to_evaluate u) <->
           code <> "11001"
           /\ exists r, In r df_loc /\ location r = code
                        /\ (abbreviation r = None \/ code = "US"))
        /\ (forall code, In code (keys (fips_to_us_state u)) <->
              exists r, In r df_loc /\ location r = code
                        /\ (abbreviation r = None \/ code = "US")))
  /\ (forall df_truth_raw proj_date eval_date fips res l,
        Truth.truth_loader df_truth_raw proj_date eval_date fips = Done res ->
        In l (keys (Truth.df_truth_filt res)) ->
        In l fips /\ exists r, In r df_truth_raw /\ Truth.location r = l)
  /\ (forall df_model_raw eval_date use_point u,
        (forall r, In r df_model_raw ->
                   (Forecast.Raw.target_end_date r <= eval_date)%Z ->
                   Forecast.Raw.location r = None ->
                   Forecast.normalize_file df_model_raw eval_date use_point u
                   = Abort "All FIPS locations must be a string")
        /\ (forall p l,
              Forecast.normalize_file df_model_raw eval_date use_point u
              = Done (Some p) ->
              In l (keys (Forecast.df_model_filt_values p)) ->
              In l (fips_to_evaluate u)
              /\ exists r, In r df_model_raw
                           /\ (Forecast.Raw.target_end_date r <= eval_date)%Z
                           /\ Forecast.Raw.location r = Some l)).
Proof.
  split; [reflexivity|]. split; [reflexivity|].
  split; [intros v Hv; unfold add_leading_zero; rewrite Hv; reflexivity|].
  split.
  { intros v Hv. unfold add_leading_zero.
    apply Nat.eqb_neq in Hv. rewrite Hv. reflexivity. }
  split; [exact states_codes|]. split; [exact counties_codes|].
  split; [exact truth_locations|].
  intros raw eval_date use_point u. unfold Forecast.normalize_file.
  destruct (Forecast.string_locations raw eval_date) as [df|msg] eqn:Hs;
    cbn [bind].
  - destruct (string_locations_done _ _ Hs) as [Edf Hall]. split.
    + intros r Hr Hd Hn. destruct (Hall r Hr Hd Hn).
    + intros p l Hrun Hl.
      destruct (normalize_locations _ _ _ _ _ Hrun Hl) as (Hfips & x & Hx & El).
      split; [exact Hfips|]. rewrite Edf in Hx.
      destruct (str_rows_In _ _ Hx) as (r & Hr & Eloc & _).
      apply filter_In in Hr. destruct Hr as [Hr Hd]. apply Z.leb_le in Hd.
      exists r. rewrite El in Eloc. auto.
  - destruct (string_locations_abort _ _ Hs) as (-> & _). split.
    + intros _ _ _ _. reflexivity.
    + intros p l Hrun. discriminate Hrun.
Qed.

Lemma C9_location_codes_witness :
  states_universe Samples.df_loc_unpadded = Done Samples.universe
  /\ In "01" (fips_to_evaluate Samples.universe)
  /\ forall code, In code (fips_to_evaluate Samples.universe) ->
                  String.length code <> 1%nat.
Proof.
  assert (Hu : states_universe Samples.df_loc_unpadded = Done Samples.universe)
    by (vm_compute; reflexivity).
  split; [exact Hu|]. split; [vm_compute; auto|].
  intros code Hc.
  destruct C9_location_codes as (_ & _ & _ & _ & Hstates & _).
  destruct (Hstates _ _ Hu) as [H _].
  apply (H code Hc).
Defined.

(** C9 as stated fails: a forecast row that writes Alabama as "1" is
    matched as it is against the universe, which holds "01", so the
    location gets no total under either code; and county mode takes a
    one-character code of the locations table into the universe as it
    is. *)
Lemma C9_unpadded_codes_counterexample :
  (exists p,
      Forecast.normalize Samples.df_unpadded (Samples.week_end 1) true
                         Samples.universe = Done (Some p)
      /\ In "01" (fips_to_evaluate Samples.universe)
      /\ ~ In "1" (fips_to_evaluate Samples.universe)
      /\ Forecast.df_model_filt_values p = [("US", 100%Q)])
  /\ (exists u,
      counties_universe Samples.df_loc_counties = Done u
      /\ fips_to_evaluate u = ["US"; "1"; "01001"]).
Proof.
  split.
  - eexists. split; [vm_compute; reflexivity|].
    split; [vm_compute; auto|]. split; [|vm_compute; reflexivity].
    vm_compute. intuition discriminate.
  - eexists. split; vm_compute; reflexivity.
Qed.
End LocationCodeClaims.

(** ** Truth totals and model errors *)

Section ErrorTableFacts.
Import Main.

Lemma dict_get_of_key V k (d : dict V) :
  In k (keys d) -> exists v, dict_get k d = Some v.
Proof.
  unfold keys. induction d as [|[k0 v0] d IH]; simpl; [intros []|].
  destruct (String.eqb_spec k k0) as [->|Hne].
  - intros _. eexists. reflexivity.
  - intros [E|H]; [congruence|]. exact (IH H).
Qed.

Lemma dict_get_key V k (d : dict V) v : dict_get k d = Some v -> In k (keys d).
Proof.
  intros H. apply dict_get_In in H. unfold keys.
  apply in_map_iff. exists (k, v). auto.
Qed.

Lemma dict_get_of_In V k (v : V) d :
  NoDup (keys d) -> In (k, v) d -> dict_get k d = Some v.
Proof.
  unfold keys. induction d as [|[k0 v0] d IH]; simpl; intros Hnd Hin;
    [destruct Hin|].
  inversion Hnd as [|? ? Hnot Hnd']; subst.
  destruct Hin as [E|Hin].
  - inversion E; subst. rewrite String.eqb_refl. reflexivity.
  - destruct (String.eqb_spec k k0) as [->|Hne]; [|exact (IH Hnd' Hin)].
    exfalso. apply Hnot. apply in_map_iff. exists (k0, v). auto.
Qed.

Lemma keys_tabulate V (f : string -> V) ks :
  keys (map (fun k => (k, f k)) ks) = ks.
Proof. unfold keys. rewrite map_map. apply map_id. Qed.

Lemma keys_filter_key V (p : string -> bool) (d : dict V) :
  keys (filter (fun kv => p (fst kv)) d) = filter p (keys d).
Proof.
  unfold keys. induction d as [|[k v] d IH]; simpl; [reflexivity|].
  destruct (p k); simpl; rewrite IH; reflexivity.
Qed.

Lemma truth_loader_cover raw proj_date eval_date fips res :
  Truth.truth_loader raw proj_date eval_date fips = Done res ->
  NoDup (keys (Truth.df_truth_filt res))
  /\ is_sorted (keys (Truth.df_truth_filt res)) = true
  /\ Permutation (keys (Truth.df_truth_filt res)) fips
  /\ NoDup fips
  /\ (forall l, In l (keys (Truth.df_truth_filt res)) <-> In l fips)
  /\ dict_get "US" (Truth.df_truth_filt res) = Some (Truth.us_truth res).
Proof.
  unfold Truth.truth_loader.
  destruct (Nat.ltb 0 _); cbn [assert bind]; [|discriminate].
  destruct (Nat.eqb _ _) eqn:Hlen; cbn [assert bind]; [|discriminate].
  unfold getitem.
  destruct (dict_get "US" _) as [us|] eqn:Hus; cbn [bind]; [|discriminate].
  intros E. inversion E; subst res; clear E. cbn [Truth.df_truth_filt Truth.us_truth].
  set (w := Truth.window proj_date eval_date raw) in *.
  set (filt := filter (fun kv => isin (fst kv) fips) (Truth.groupby_sum w)) in *.
  assert (Hk : keys filt
               = filter (fun k => isin k fips)
                        (group_keys (map Truth.location w))).
  { unfold filt. rewrite (keys_filter_key (fun k => isin k fips)).
    unfold Truth.groupby_sum. rewrite keys_tabulate. reflexivity. }
  assert (Hnd : NoDup (keys filt)).
  { rewrite Hk. apply NoDup_filter. apply group_keys_NoDup. }
  assert (Hperm : Permutation (keys filt) fips).
  { apply NoDup_Permutation_bis; [exact Hnd| |].
    - apply Nat.eqb_eq in Hlen. unfold keys. rewrite length_map. lia.
    - intros l Hl. rewrite Hk in Hl. apply filter_In in Hl.
      apply isin_In. apply Hl. }
  split; [exact Hnd|]. split.
  { rewrite Hk. apply is_sorted_filter. apply group_keys_sorted. }
  split; [exact Hperm|]. split; [apply (Permutation_NoDup Hperm Hnd)|].
  split; [|exact Hus].
  intros l. split; intros H.
  - apply (Permutation_in _ Hperm H).
  - apply (Permutation_in _ (Permutation_sym Hperm) H).
Qed.

(** X11.  A truth load that goes through shows that the universe names no
    location twice; the truth totals then hold every location of the
    universe exactly once and nothing else, in sorted order, and the
    national figure is the total of US. *)
Theorem truth_loader_covers_universe (df_truth_raw : list Truth.row)
        (proj_date eval_date : Dates.date) (fips_to_evaluate : list string)
        (res : Truth.loaded) :
  Truth.truth_loader df_truth_raw proj_date eval_date fips_to_evaluate
  = Done res ->
  NoDup (keys (Truth.df_truth_filt res))
  /\ is_sorted (keys (Truth.df_truth_filt res)) = true
  /\ Permutation (keys (Truth.df_truth_filt res)) fips_to_evaluate
  /\ NoDup fips_to_evaluate
  /\ (forall l, In l (keys (Truth.df_truth_filt res)) <->
                In l fips_to_evaluate)
  /\ dict_get "US" (Truth.df_truth_filt res) = Some (Truth.us_truth res).
Proof. apply truth_loader_cover. Qed.

Lemma truth_loader_covers_universe_witness :
  exists res,
    Truth.truth_loader Samples.df_truth Samples.proj_date Samples.eval_date
                       (Locations.fips_to_evaluate Samples.universe)
    = Done res
    /\ NoDup (Locations.fips_to_evaluate Samples.universe).
Proof.
  destruct (Truth.truth_loader Samples.df_truth Samples.proj_date
              Samples.eval_date (Locations.fips_to_evaluate Samples.universe))
    as [res|] eqn:E; [|vm_compute in E; discriminate E].
  exists res. split; [reflexivity|].
  destruct (truth_loader_covers_universe _ _ _ _ E) as (_ & _ & _ & H & _).
  exact H.
Defined.

Lemma series_sub_keys a b :
  keys (series_sub a b) = group_keys (keys a ++ keys b).
Proof. unfold series_sub. apply keys_tabulate. Qed.

Lemma series_sub_get a b l :
  In l (keys a ++ keys b) ->
  dict_get l (series_sub a b)
  = Some match dict_get l a, dict_get l b with
         | Some x, Some y => Some (x - y)%Q
         | _, _ => None
         end.
Proof.
  intros H. unfold series_sub.
  rewrite dict_get_tabulate
    with (f := fun k => match dict_get k a, dict_get k b with
                        | Some x, Some y => Some (x - y)%Q
                        | _, _ => None
                        end).
  destruct (in_dec string_dec l (group_keys (keys a ++ keys b))) as [|Hn];
    [reflexivity|].
  exfalso. apply Hn. apply group_keys_In. exact H.
Qed.

Lemma filter_count_sub (ks sub : list string) :
  NoDup ks -> NoDup sub -> incl sub ks ->
  List.length (filter (fun k => isin k sub) ks) = List.length sub.
Proof.
  intros Hk Hs Hincl. apply Permutation_length.
  apply NoDup_Permutation; [apply NoDup_filter; exact Hk|exact Hs|].
  intros x. rewrite filter_In, isin_In. split; [tauto|].
  intros H. split; [apply Hincl; exact H|exact H].
Qed.

Lemma series_sub_count a b :
  NoDup (keys a) -> incl (keys a) (keys b) ->
  List.length (filter notna (map snd (series_sub a b))) = List.length a.
Proof.
  intros Hnd Hincl. unfold series_sub. rewrite map_map. cbn [snd].
  set (ks := group_keys (keys a ++ keys b)).
  rewrite <- (length_map fst a). fold (keys a).
  rewrite <- (@filter_count_sub ks (keys a)); [|apply group_keys_NoDup|exact Hnd|].
  2:{ intros k Hk. apply group_keys_In. apply in_or_app. left. exact Hk. }
  rewrite <- (length_map (fun k => match dict_get k a, dict_get k b with
                                   | Some x, Some y => Some (x - y)%Q
                                   | _, _ => None
                                   end)
                         (filter (fun k => isin k (keys a)) ks)).
  f_equal.
  induction ks as [|k ks IH]; [reflexivity|]. cbn [map filter].
  destruct (isin k (keys a)) eqn:Hin.
  - apply isin_In in Hin.
    destruct (dict_get_of_key _ _ Hin) as (x & Ex).
    destruct (dict_get_of_key _ _ (Hincl _ Hin)) as (y & Ey).
    cbn [map]. cbv beta. rewrite Ex, Ey.
    cbn [filter notna isnull negb]. rewrite IH. reflexivity.
  - destruct (dict_get k a) as [x|] eqn:Ha;
      [|cbn [filter notna isnull negb]; exact IH].
    apply dict_get_key in Ha. apply isin_In in Ha. congruence.
Qed.
End ErrorTableFacts.

Section ErrorTableClaims.
Import Main.

Lemma values_in_universe raw eval_date use_point u p :
  Forecast.normalize raw eval_date use_point u = Done (Some p) ->
  NoDup (keys (Forecast.df_model_filt_values p))
  /\ incl (keys (Forecast.df_model_filt_values p)) (Locations.fips_to_evaluate u)
  /\ Forecast.num_locations p = List.length (Forecast.df_model_filt_values p).
Proof.
  intros Hn.
  destruct (normalize_done _ _ _ _ Hn) as (kept & Hk & Ef & Hne & En & Ev & Eus).
  assert (Hkeys : keys (Forecast.df_model_filt_values p)
                  = group_keys (map Forecast.location (Forecast.df_model_filt p))).
  { rewrite Ev. unfold Forecast.groupby_sum. apply keys_tabulate. }
  split; [rewrite Hkeys; apply group_keys_NoDup|]. split.
  - intros l Hl. rewrite Hkeys, group_keys_In, in_map_iff in Hl.
    destruct Hl as (r & <- & Hr). rewrite Ef in Hr.
    apply (select_estimate_isin _ _ _ _ Hr).
  - rewrite En, <- group_keys_length, <- Hkeys. unfold keys. apply length_map.
Qed.

Lemma model_diffs raw proj_date eval_date u res raw' eval_date' use_point p :
  Truth.truth_loader raw proj_date eval_date (Locations.fips_to_evaluate u)
  = Done res ->
  Forecast.normalize raw' eval_date' use_point u = Done (Some p) ->
  let diffs := series_sub (Forecast.df_model_filt_values p)
                          (Truth.df_truth_filt res) in
  NoDup (keys diffs)
  /\ (forall l, In l (keys diffs) <-> In l (Locations.fips_to_evaluate u))
  /\ (forall l, In l (Locations.fips_to_evaluate u) ->
        exists actual,
          dict_get l (Truth.df_truth_filt res) = Some actual
          /\ dict_get l diffs
             = Some (option_map (fun predicted => (predicted - actual)%Q)
                                (dict_get l (Forecast.df_model_filt_values p))))
  /\ List.length (filter notna (map snd diffs)) = Forecast.num_locations p.
Proof.
  intros Ht Hn diffs.
  destruct (truth_loader_cover _ _ _ _ Ht) as (_ & _ & _ & _ & Hcover & _).
  destruct (values_in_universe _ _ _ _ Hn) as (Hnd & Hincl & Hnum).
  assert (Hsub : incl (keys (Forecast.df_model_filt_values p))
                      (keys (Truth.df_truth_filt res))).
  { intros l Hl. apply Hcover. apply Hincl. exact Hl. }
  split; [unfold diffs; rewrite series_sub_keys; apply group_keys_NoDup|].
  split; [|split].
  - intros l. unfold diffs. rewrite series_sub_keys, group_keys_In, in_app_iff.
    rewrite Hcover. split; [|auto]. intros [H|H]; [apply Hincl; exact H|exact H].
  - intros l Hl.
    destruct (dict_get_of_key _ _ (proj2 (Hcover l) Hl)) as (actual & Ea).
    exists actual. split; [exact Ea|].
    unfold diffs. rewrite series_sub_get.
    + rewrite Ea. destruct (dict_get l (Forecast.df_model_filt_values p));
        reflexivity.
    + apply in_or_app. right. apply Hcover. exact Hl.
  - unfold diffs. rewrite series_sub_count by assumption. symmetry. exact Hnum.
Qed.

(** X12.  With the truth totals of a load over the same universe, the errors of
    a model have one entry for every location of the universe and no
    other: predicted minus actual where the model has a total, missing
    where it has none; the number of errors that are present is the
    number of locations of the model. *)
Theorem model_errors_cover_universe (df_truth_raw : list Truth.row)
        (proj_date eval_date : Dates.date) (u : Locations.universe)
        (res : Truth.loaded) (df_model_raw : list Forecast.row)
        (use_point : bool) (p : Forecast.projection) :
  Truth.truth_loader df_truth_raw proj_date eval_date
                     (Locations.fips_to_evaluate u) = Done res ->
  Forecast.normalize df_model_raw eval_date use_point u = Done (Some p) ->
  let diffs := series_sub (Forecast.df_model_filt_values p)
                          (Truth.df_truth_filt res) in
  NoDup (keys diffs)
  /\ (forall l, In l (keys diffs) <-> In l (Locations.fips_to_evaluate u))
  /\ (forall l, In l (Locations.fips_to_evaluate u) ->
        exists actual,
          dict_get l (Truth.df_truth_filt res) = Some actual
          /\ dict_get l diffs
             = Some (option_map (fun predicted => (predicted - actual)%Q)
                                (dict_get l (Forecast.df_model_filt_values p))))
  /\ List.length (filter notna (map snd diffs)) = Forecast.num_locations p.
Proof. intros Ht Hn. exact (model_diffs _ _ _ _ _ _ _ Ht Hn). Qed.

Lemma model_errors_cover_universe_witness :
  exists res p,
    Truth.truth_loader Samples.df_truth Samples.proj_date Samples.eval_date
                       (Locations.fips_to_evaluate Samples.universe)
    = Done res
    /\ Forecast.normalize Samples.df_gap Samples.eval_date true Samples.universe
       = Done (Some p)
    /\ List.length
         (filter notna
                 (map snd (series_sub (Forecast.df_model_filt_values p)
                                      (Truth.df_truth_filt res))))
       = Forecast.num_locations p.
Proof.
  destruct (Truth.truth_loader Samples.df_truth Samples.proj_date
              Samples.eval_date (Locations.fips_to_evaluate Samples.universe))
    as [res|] eqn:Et; [|vm_compute in Et; discriminate Et].
  destruct (Forecast.normalize Samples.df_gap Samples.eval_date true
                               Samples.universe)
    as [[p|]|] eqn:Hn;
    [|vm_compute in Hn; discriminate Hn|vm_compute in Hn; discriminate Hn].
  exists res, p. split; [reflexivity|]. split; [reflexivity|].
  destruct (@model_errors_cover_universe _ _ _ _ _ _ _ _ Et Hn)
    as (_ & _ & _ & H).
  exact H.
Defined.
End ErrorTableClaims.

(** ** The loop over the models *)

Section ModelLoopFacts.
Import Main.
Variable eval_date : Dates.date.
Variable use_point : bool.
Variable u : Locations.universe.
Variable res : Truth.loaded.
Variable df_truth_raw : list Truth.row.
Variable proj_date : Dates.date.
Hypothesis truth_loaded :
  Truth.truth_loader df_truth_raw proj_date eval_date
                     (Locations.fips_to_evaluate u) = Done res.

Lemma map_values_set V W (f : V -> W) k v (d : dict V) :
  map (fun kv => (fst kv, f (snd kv))) (dict_set k v d)
  = dict_set k (f v) (map (fun kv => (fst kv, f (snd kv))) d).
Proof.
  induction d as [|[k0 v0] d IH]; simpl; [reflexivity|].
  destruct (String.eqb k k0); simpl; [reflexivity|]. rewrite IH. reflexivity.
Qed.

Lemma notna_counts_set k (v : dict cell) d :
  notna_counts (dict_set k v d)
  = dict_set k (List.length (filter notna (map snd v))) (notna_counts d).
Proof.
  unfold notna_counts.
  apply (map_values_set
           (fun diffs : dict cell => List.length (filter notna (map snd diffs)))).
Qed.

Lemma dict_eqb_refl (d : dict nat) : NoDup (keys d) -> dict_eqb d d = true.
Proof.
  intros Hnd. unfold dict_eqb. rewrite Nat.eqb_refl. simpl.
  apply forallb_forall. intros [k v] Hin. simpl.
  rewrite (dict_get_of_In _ _ _ Hnd Hin). apply Nat.eqb_refl.
Qed.

(** what the tables hold after the models [seen] *)
Let loaded (seen : list string) (t : tables) : Prop :=
  model_to_num_locations t = notna_counts (model_to_errors t)
  /\ NoDup (keys (model_to_num_locations t))
  /\ keys (model_to_us_projection t) = keys (model_to_num_locations t)
  /\ (forall m, In m (keys (model_to_num_locations t)) ->
                skipped_family m = false /\ In m seen)
  /\ (forall m diffs, In (m, diffs) (model_to_errors t) ->
        forall l, In l (keys diffs) <-> In l (Locations.fips_to_evaluate u))
  /\ In "actual_cases" (keys (model_to_all_projections t)).

Lemma load_model_step seen t model t' :
  loaded seen t ->
  load_model eval_date use_point u (Truth.df_truth_filt res) (Done t) model
  = Done t' ->
  loaded (fst model :: seen) t'.
Proof.
  intros (Hc & Hnd & Hus & Hm & He & Ha). unfold load_model. cbn [bind].
  assert (Hkeep : loaded (fst model :: seen) t).
  { split; [exact Hc|]. split; [exact Hnd|]. split; [exact Hus|].
    split; [|split; [exact He|exact Ha]].
    intros m Hin. destruct (Hm m Hin). split; [assumption|right; assumption]. }
  destruct (skipped_family (fst model)) eqn:Hskip.
  - intros E. inversion E; subst t'. exact Hkeep.
  - destruct (Forecast.normalize (snd model) eval_date use_point u)
      as [[p|]|] eqn:Hn; cbn [bind]; [| |discriminate].
    + intros E. inversion E; subst t'; clear E. unfold loaded.
      cbn [model_to_num_locations model_to_errors model_to_us_projection
           model_to_all_projections].
      destruct (@model_diffs _ _ _ _ _ _ _ _ _ truth_loaded Hn)
        as (_ & Hkeys & _ & Hcount).
      split; [|split; [|split; [|split; [|split]]]].
      * rewrite notna_counts_set, <- Hc, Hcount. reflexivity.
      * apply dict_set_NoDup. exact Hnd.
      * apply dict_set_keys_eq. exact Hus.
      * intros m Hin.
        destruct (dict_set_key _ _ _ _ Hin) as [->|Hold].
        -- split; [exact Hskip|left; reflexivity].
        -- destruct (Hm m Hold). split; [assumption|right; assumption].
      * intros m diffs Hin.
        destruct (dict_set_entry _ _ _ _ _ Hin) as [[_ ->]|Hold].
        -- exact Hkeys.
        -- exact (He m diffs Hold).
      * apply dict_set_keeps_keys. exact Ha.
    + intros E. inversion E; subst t'. exact Hkeep.
Qed.

Lemma load_abort msg l :
  fold_left (load_model eval_date use_point u (Truth.df_truth_filt res)) l
            (Abort msg) = Abort msg.
Proof. induction l as [|m l IH]; simpl; [reflexivity|exact IH]. Qed.

Lemma load_fold l : forall seen t t',
  loaded seen t ->
  fold_left (load_model eval_date use_point u (Truth.df_truth_filt res)) l
            (Done t) = Done t' ->
  loaded (rev (keys l) ++ seen) t'.
Proof.
  induction l as [|m l IH]; intros seen t t' H; cbn [fold_left keys map rev app].
  - intros E. inversion E; subst t'. exact H.
  - destruct (load_model eval_date use_point u (Truth.df_truth_filt res)
                         (Done t) m) as [t1|msg] eqn:E1.
    + intros E. rewrite <- app_assoc. cbn [app].
      apply (IH _ t1 t'); [|exact E].
      apply (load_model_step _ H E1).
    + rewrite load_abort. discriminate.
Qed.

(** X13.  When the loop over the models finishes, the check that all locations
    were parsed passes; the locations, errors and national projections are
    held for the same models, each once, none of them a model of the CU
    family other than CU-select; every row of errors covers the universe;
    and the truth row is among the projections. *)
Theorem load_projections_parsed (models : dict (list Forecast.row))
        (t : tables) :
  load_projections eval_date use_point u (Truth.df_truth_filt res) models
  = Done t ->
  locations_parsed t = Done tt
  /\ keys (model_to_errors t) = keys (model_to_num_locations t)
  /\ keys (model_to_us_projection t) = keys (model_to_num_locations t)
  /\ NoDup (keys (model_to_num_locations t))
  /\ (forall m, In m (keys (model_to_num_locations t)) ->
                In m (keys models)
                /\ (String.prefix "CU-" m = true -> m = "CU-select"))
  /\ (forall m diffs, In (m, diffs) (model_to_errors t) ->
        forall l, In l (keys diffs) <-> In l (Locations.fips_to_evaluate u))
  /\ In "actual_cases" (keys (model_to_all_projections t)).
Proof.
  intros Hrun. unfold load_projections in Hrun.
  assert (H0 : loaded [] (mkTables [] [] []
                            [("actual_cases", Truth.df_truth_filt res)])).
  { split; [reflexivity|]. split; [constructor|]. split; [reflexivity|].
    split; [intros m []|]. split; [intros m diffs []|left; reflexivity]. }
  destruct (load_fold _ H0 Hrun) as (Hc & Hnd & Hus & Hm & He & Ha).
  split; [|split; [|split; [exact Hus|split; [exact Hnd|split; [|split]]]]].
  - unfold locations_parsed. rewrite <- Hc, dict_eqb_refl by exact Hnd.
    reflexivity.
  - rewrite Hc. unfold notna_counts, keys. rewrite map_map. reflexivity.
  - intros m Hin. destruct (Hm m Hin) as [Hs Hseen]. split.
    + rewrite app_nil_r in Hseen. apply in_rev in Hseen. exact Hseen.
    + intros Hp. unfold skipped_family in Hs. rewrite Hp in Hs. simpl in Hs.
      apply negb_false_iff in Hs. apply String.eqb_eq. exact Hs.
  - exact He.
  - exact Ha.
Qed.
End ModelLoopFacts.

Lemma load_projections_parsed_witness :
  exists res t,
    Truth.truth_loader Samples.df_truth Samples.proj_date Samples.eval_date
                       (Locations.fips_to_evaluate Samples.universe)
    = Done res
    /\ Main.load_projections Samples.eval_date true Samples.universe
         (Truth.df_truth_filt res)
         [("A-one", Samples.df_gap); ("CU-nochange", Samples.df_gap);
          ("CU-select", Samples.df_gap); ("D-four", [])]
       = Done t
    /\ Main.locations_parsed t = Done tt
    /\ keys (Main.model_to_num_locations t) = ["A-one"; "CU-select"].
Proof.
  destruct (Truth.truth_loader Samples.df_truth Samples.proj_date
              Samples.eval_date (Locations.fips_to_evaluate Samples.universe))
    as [res|] eqn:Et; [|vm_compute in Et; discriminate Et].
  destruct (Main.load_projections Samples.eval_date true Samples.universe
              (Truth.df_truth_filt res)
              [("A-one", Samples.df_gap); ("CU-nochange", Samples.df_gap);
               ("CU-select", Samples.df_gap); ("D-four", [])])
    as [t|] eqn:El.
  - exists res, t. split; [reflexivity|]. split; [exact El|].
    destruct (@load_projections_parsed _ _ _ _ _ _ Et _ _ El) as (H & _).
    split; [exact H|].
    vm_compute in Et. inversion Et; subst res. vm_compute in El.
    inversion El. reflexivity.
  - exfalso. vm_compute in Et. inversion Et; subst res. vm_compute in El.
    discriminate El.
Defined.


(** ** The table of all projections *)

Section FirstRowsFacts.
Import Main.
Variable V : Type.

Lemma position_found c cols i :
  position c cols = Some i -> In c cols.
Proof.
  revert i. induction cols as [|c' cols IH]; simpl; intros i H; [discriminate|].
  destruct (String.eqb_spec c c') as [->|Hne]; [auto|].
  destruct (position c cols) as [j|]; [|discriminate]. right. apply (IH j eq_refl).
Qed.

Lemma position_of_key c cols : In c cols -> exists i, position c cols = Some i.
Proof.
  induction cols as [|c' cols IH]; simpl; [intros []|].
  destruct (String.eqb_spec c c') as [->|Hne]; [eexists; reflexivity|].
  intros [E|H]; [congruence|]. destruct (IH H) as (i & ->).
  eexists. reflexivity.
Qed.

Lemma move_first_missing name (df_all : dict V) :
  ~ In name (keys df_all) -> exists msg, move_first name df_all = Abort msg.
Proof.
  intros H. unfold move_first.
  destruct (position name (keys df_all)) as [i|] eqn:E.
  - exfalso. apply H. apply (position_found _ _ E).
  - eexists. reflexivity.
Qed.

Lemma move_first_parts name (d : dict V) : forall v,
  NoDup (keys d) -> dict_get name d = Some v ->
  exists i,
    position name (keys d) = Some i
    /\ nth_error d i = Some (name, v)
    /\ remove_nth i d
       = filter (fun kv => negb (String.eqb (fst kv) name)) d.
Proof.
  unfold keys. induction d as [|[k0 v0] d IH]; simpl; intros v Hnd Hg;
    [discriminate|].
  inversion Hnd as [|? ? Hnot Hnd']; subst.
  destruct (String.eqb_spec name k0) as [->|Hne].
  - inversion Hg; subst v0. exists O. split; [reflexivity|].
    split; [reflexivity|]. simpl. rewrite String.eqb_refl. simpl.
    symmetry. apply filter_all. intros [k w] Hin. simpl.
    apply negb_true_iff, String.eqb_neq. intros ->. apply Hnot.
    apply in_map_iff. exists (k0, w). auto.
  - destruct (IH v Hnd' Hg) as (i & Hp & Hn & Hr).
    exists (S i). rewrite Hp. split; [reflexivity|]. split; [exact Hn|].
    simpl. rewrite Hr.
    destruct (String.eqb_spec k0 name) as [E|_]; [congruence|]. reflexivity.
Qed.

Lemma move_first_found name (d : dict V) v :
  NoDup (keys d) -> dict_get name d = Some v ->
  move_first name d
  = Done ((name, v) :: filter (fun kv => negb (String.eqb (fst kv) name)) d).
Proof.
  intros Hnd Hg. unfold move_first.
  destruct (@move_first_parts name d v Hnd Hg) as (i & -> & -> & ->).
  reflexivity.
Qed.

Lemma dict_get_filter_other name other (d : dict V) :
  name <> other ->
  dict_get name (filter (fun kv => negb (String.eqb (fst kv) other)) d)
  = dict_get name d.
Proof.
  intros Hne.
  rewrite (dict_get_filter_key (fun k => negb (String.eqb k other))).
  destruct (String.eqb_spec name other); [congruence|reflexivity].
Qed.

(** X14.  The truth row and then the baseline row are moved to the top of the
    table of all projections and the other rows keep their order; a run in
    which the baseline model has no projections aborts at this step. *)
Theorem first_rows_order (df_all : dict V) :
  NoDup (keys df_all) ->
  (forall actual base,
      dict_get "actual_cases" df_all = Some actual ->
      dict_get "COVIDhub-baseline" df_all = Some base ->
      first_rows df_all
      = Done (("actual_cases", actual) :: ("COVIDhub-baseline", base)
              :: filter (fun kv => negb (String.eqb (fst kv) "actual_cases"))
                   (filter (fun kv => negb (String.eqb (fst kv) "COVIDhub-baseline"))
                           df_all)))
  /\ (~ In "COVIDhub-baseline" (keys df_all) ->
      exists msg, first_rows df_all = Abort msg)
  /\ (~ In "actual_cases" (keys df_all) ->
      exists msg, first_rows df_all = Abort msg).
Proof.
  intros Hnd. unfold first_rows. cbn [baseline_names rev app fold_left bind].
  split; [|split].
  - intros actual base Ha Hb.
    rewrite (@move_first_found _ _ _ Hnd Hb). cbn [bind].
    rewrite (@move_first_found "actual_cases" _ actual).
    + reflexivity.
    + unfold keys. cbn [map fst]. constructor.
      * intros Hin. apply in_map_iff in Hin. destruct Hin as ([k w] & E & Hin).
        apply filter_In in Hin. destruct Hin as [_ Hk]. simpl in E, Hk.
        subst k. rewrite String.eqb_refl in Hk. discriminate.
      * fold (keys (filter (fun kv => negb (String.eqb (fst kv) "COVIDhub-baseline"))
                           df_all)).
        rewrite (keys_filter_key (fun k => negb (String.eqb k "COVIDhub-baseline"))).
        apply NoDup_filter. exact Hnd.
    + cbn [dict_get]. change (String.eqb "actual_cases" "COVIDhub-baseline") with false.
      cbv iota. rewrite dict_get_filter_other by discriminate. exact Ha.
  - intros H. destruct (@move_first_missing _ _ H) as (msg & ->).
    eexists. reflexivity.
  - intros H.
    destruct (dict_get "COVIDhub-baseline" df_all) as [base|] eqn:Hb.
    + rewrite (@move_first_found _ _ _ Hnd Hb). cbn [bind].
      apply move_first_missing. unfold keys. cbn [map fst].
      intros [E|Hin]; [discriminate|]. apply H.
      apply in_map_iff in Hin. destruct Hin as (kv & E & Hin).
      apply filter_In in Hin. apply in_map_iff. exists kv. tauto.
    + assert (Hn : ~ In "COVIDhub-baseline" (keys df_all)).
      { intros Hin. destruct (dict_get_of_key _ _ Hin) as (v & E). congruence. }
      destruct (@move_first_missing _ _ Hn) as (msg & ->).
      eexists. reflexivity.
Qed.
End FirstRowsFacts.

Lemma first_rows_order_witness :
  Main.first_rows
    [("A-one", 1%nat); ("COVIDhub-baseline", 2%nat); ("actual_cases", 3%nat);
     ("B-two", 4%nat)]
  = Done [("actual_cases", 3%nat); ("COVIDhub-baseline", 2%nat);
          ("A-one", 1%nat); ("B-two", 4%nat)].
Proof.
  apply (@first_rows_order nat
           [("A-one", 1%nat); ("COVIDhub-baseline", 2%nat);
            ("actual_cases", 3%nat); ("B-two", 4%nat)]).
  - repeat constructor; simpl; intuition discriminate.
  - reflexivity.
  - reflexivity.
Defined.

(** ** Beat baseline as a whole *)

Section BeatBaselineTotalFacts.
Import Scorer.

Lemma error_column_runs df locations m :
  (exists col, error_column df locations m = Done col) <-> In m (keys (rows df)).
Proof.
  unfold error_column, getitem. split.
  - intros (col & H). destruct (dict_get m (rows df)) as [r|] eqn:E;
      cbn [bind] in H; [|discriminate].
    apply (dict_get_key _ _ E).
  - intros H. destruct (dict_get_of_key _ _ H) as (r & ->). cbn [bind].
    eexists. reflexivity.
Qed.

Lemma traverse_abort A B (f : A -> outcome B) l a msg :
  In a l -> f a = Abort msg -> exists msg', traverse f l = Abort msg'.
Proof.
  induction l as [|x l IH]; simpl; intros Hin Hf; [destruct Hin|].
  destruct (f x) as [b|m] eqn:Hx; [|eexists; reflexivity].
  destruct Hin as [->|Hin]; [congruence|].
  destruct (IH Hin Hf) as (m' & ->). eexists. reflexivity.
Qed.

Lemma traverse_labels A B (f : A -> outcome (string * B)) (g : A -> string) l :
  (forall a b, f a = Done b -> fst b = g a) ->
  forall bs, traverse f l = Done bs -> keys bs = map g l.
Proof.
  intros Hf. unfold keys. induction l as [|x l IH]; simpl; intros bs H.
  - inversion H. reflexivity.
  - destruct (f x) as [b|] eqn:Hx; [|discriminate].
    destruct (traverse f l) as [bs'|]; [|discriminate].
    inversion H. simpl. rewrite (Hf _ _ Hx), (IH bs' eq_refl). reflexivity.
Qed.

Lemma zip_with_length A B C (f : A -> B -> C) l1 : forall l2,
  List.length l1 = List.length l2 ->
  List.length (zip_with f l1 l2) = List.length l1.
Proof.
  unfold zip_with. intros l2 H. rewrite length_map, length_combine. lia.
Qed.

(** X15.  The beat-baseline columns are computed exactly when the baseline and
    every model named in the table of all projections have a row of
    errors; otherwise the step aborts.  There is then one column for
    every model other than the baseline, in the order of the table, named
    after the model and with one value for every location. *)
Theorem beat_baseline_runs (df_errors_raw : frame)
        (locations df_all_columns : list string) :
  let models := filter (fun m => negb (String.eqb m baseline))
                       (model_names df_all_columns) in
  ((exists out,
       beat_baseline df_errors_raw locations df_all_columns = Done out) <->
   In baseline (keys (rows df_errors_raw))
   /\ forall m, In m models -> In m (keys (rows df_errors_raw)))
  /\ ((forall out,
         beat_baseline df_errors_raw locations df_all_columns <> Done out) ->
      exists msg,
        beat_baseline df_errors_raw locations df_all_columns = Abort msg)
  /\ forall out,
       beat_baseline df_errors_raw locations df_all_columns = Done out ->
       keys out = map (fun m => ("beat_baseline-" ++ m)%string) models
       /\ forall name col, In (name, col) out ->
                           List.length col = List.length locations.
Proof.
  intros models. unfold beat_baseline. fold models.
  split; [|split].
  - split.
    + intros (out & H).
      destruct (error_column df_errors_raw locations baseline) as [eb|] eqn:Eb;
        cbn [bind] in H; [|discriminate].
      split; [apply (error_column_runs df_errors_raw locations); eauto|].
      intros m Hm. destruct (traverse_In _ _ H _ Hm) as (b & Hb & _).
      destruct (error_column df_errors_raw locations m) as [em|] eqn:Em;
        cbn [bind] in Hb; [|discriminate].
      apply (error_column_runs df_errors_raw locations). eauto.
    + intros [Hb Hall].
      apply (error_column_runs df_errors_raw locations) in Hb.
      destruct Hb as (eb & ->). cbn [bind].
      apply traverse_runs. intros m Hm.
      apply Hall in Hm. apply (error_column_runs df_errors_raw locations) in Hm.
      destruct Hm as (em & ->). cbn [bind]. eexists. reflexivity.
  - intros Hno.
    destruct (error_column df_errors_raw locations baseline) as [eb|];
      cbn [bind] in *; [|eexists; reflexivity].
    match goal with
    | |- exists msg, ?t = Abort msg => destruct t as [out|msg] eqn:E
    end; [exfalso; apply (Hno out); reflexivity|eexists; reflexivity].
  - intros out H.
    destruct (error_column df_errors_raw locations baseline) as [eb|] eqn:Eb;
      cbn [bind] in H; [|discriminate].
    split.
    + refine (@traverse_labels _ _ _ (fun m => ("beat_baseline-" ++ m)%string)
                               models _ out H).
      intros m b Hb.
      destruct (error_column df_errors_raw locations m); cbn [bind] in Hb;
        [|discriminate].
      inversion Hb. reflexivity.
    + intros name col Hin.
      destruct (traverse_from _ _ H _ Hin) as (m & _ & Hm).
      destruct (error_column df_errors_raw locations m) as [em|] eqn:Em;
        cbn [bind] in Hm; [|discriminate].
      inversion Hm; subst.
      pose proof (error_column_length _ _ _ Em) as L1.
      pose proof (error_column_length _ _ _ Eb) as L2.
      rewrite zip_with_length; congruence.
Qed.
End BeatBaselineTotalFacts.

(** ** The merger as a whole *)

Section MergerLabelFacts.
Import Merger.

Lemma prefix_append p s : String.prefix p (p ++ s)%string = true.
Proof.
  induction p as [|c p IH]; simpl; [destruct s; reflexivity|].
  destruct (Ascii.ascii_dec c c); [exact IH|congruence].
Qed.

Lemma contains_of_prefix p s : String.prefix p s = true -> contains p s = true.
Proof. destruct s; simpl; intros ->; reflexivity. Qed.

Lemma contains_append p s : contains p (p ++ s)%string = true.
Proof. apply contains_of_prefix, prefix_append. Qed.

Lemma filter_split_length A (f : A -> bool) l :
  (List.length (filter f l) + List.length (filter (fun x => negb (f x)) l)
   = List.length l)%nat.
Proof.
  induction l as [|a l IH]; simpl; [reflexivity|].
  destruct (f a); simpl; lia.
Qed.

Lemma filter_filter_neg A (f : A -> bool) l :
  filter f (filter (fun x => negb (f x)) l) = [].
Proof.
  apply filter_none. intros x Hx. apply filter_In in Hx.
  destruct Hx as [_ Hx]. apply negb_true_iff. exact Hx.
Qed.

Lemma filter_neg_idem A (f : A -> bool) l :
  filter (fun x => negb (f x)) (filter (fun x => negb (f x)) l)
  = filter (fun x => negb (f x)) l.
Proof.
  apply filter_all. intros x Hx. apply filter_In in Hx. apply Hx.
Qed.

(** X16.  The merger keeps the table rectangular and its columns as they are.
    When some model matches the prefix, the merged table has one row less
    for every matching row and one more for the combined entry, and the
    combined entry, the last row, is its only row that matches the prefix;
    merging a second time keeps the labels of the rows. *)
Theorem merge_table_labels (prefix : string) (df : frame) :
  rectangular df ->
  let merged := merge_table prefix df in
  rectangular merged
  /\ columns merged = columns df
  /\ (filter (mask prefix) (rows df) <> [] ->
      (List.length (rows merged) + List.length (filter (mask prefix) (rows df))
       = S (List.length (rows df)))%nat
      /\ exists df_avg,
          filter (mask prefix) (rows merged) = [(combined_name prefix, df_avg)]
          /\ rows merged
             = filter (fun r => negb (mask prefix r)) (rows df)
                 ++ [(combined_name prefix, df_avg)])
  /\ map fst (rows (merge_table prefix merged)) = map fst (rows merged).
Proof.
  intros Hrect merged. unfold merged, merge_table.
  set (matching := filter (mask prefix) (rows df)).
  set (others := filter (fun r => negb (mask prefix r)) (rows df)).
  assert (Hc : mask prefix (combined_name prefix, mean_axis0 (List.length (columns df)) matching) = true).
  { unfold mask, combined_name. simpl. apply contains_append. }
  destruct (Nat.ltb 0 (List.length matching)) eqn:Hpos.
  - cbn [columns rows].
    assert (Hm : filter (mask prefix)
                        (others ++ [(combined_name prefix,
                                     mean_axis0 (List.length (columns df)) matching)])
                 = [(combined_name prefix,
                     mean_axis0 (List.length (columns df)) matching)]).
    { rewrite filter_app. unfold others. rewrite filter_filter_neg.
      cbn [filter app]. rewrite Hc. reflexivity. }
    split; [|split; [reflexivity|split]].
    + intros r Hr. cbn [rows columns] in *. apply in_app_or in Hr.
      destruct Hr as [Hr|[<-|[]]].
      * apply Hrect. unfold others in Hr. apply filter_In in Hr. apply Hr.
      * cbn [snd]. unfold mean_axis0. rewrite length_map, length_seq.
        reflexivity.
    + intros _. split.
      * rewrite length_app. cbn [List.length].
        pose proof (filter_split_length (mask prefix) (rows df)) as H.
        fold matching others in H. lia.
      * eexists. split; [exact Hm|reflexivity].
    + rewrite Hm. cbn [List.length Nat.ltb Nat.leb rows].
      rewrite filter_app. unfold others at 1. rewrite filter_neg_idem.
      fold others. cbn [filter]. rewrite Hc. cbn [negb app].
      rewrite !map_app. cbn [map fst]. rewrite app_nil_r. reflexivity.
  - split; [exact Hrect|]. split; [reflexivity|]. split.
    + intros Hne. apply Nat.ltb_ge in Hpos.
      destruct matching; [congruence|simpl in Hpos; lia].
    + fold matching. rewrite Hpos. reflexivity.
Qed.

Lemma merge_table_labels_witness :
  map fst
      (rows (merge_table "Imperial"
               (mkFrame ["US"]
                        [("Imperial-ensemble1", [Some 4%Q]); ("A-one", [None]);
                         ("Imperial-ensemble2", [Some 8%Q])])))
  = ["A-one"; "Imperial-combined"].
Proof.
  destruct (@merge_table_labels "Imperial"
              (mkFrame ["US"]
                       [("Imperial-ensemble1", [Some 4%Q]); ("A-one", [None]);
                        ("Imperial-ensemble2", [Some 8%Q])]))
    as (_ & _ & H & _).
  - intros r [<-|[<-|[<-|[]]]]; reflexivity.
  - destruct H as (_ & avg & _ & E); [discriminate|].
    rewrite E. reflexivity.
Defined.
End MergerLabelFacts.

(** ** Imputation as a whole *)

Section ImputeTotalFacts.
Import Scorer.

Lemma present_nil l : present l = [] <-> forall c, In c l -> c = None.
Proof.
  unfold present. induction l as [|a l IH]; simpl.
  - split; [intros _ c []|reflexivity].
  - destruct a as [x|]; simpl.
    + split; [discriminate|]. intros H. specialize (H (Some x) (or_introl eq_refl)).
      discriminate.
    + rewrite IH. split.
      * intros H c [<-|Hc]; [reflexivity|exact (H c Hc)].
      * intros H c Hc. apply H. right. exact Hc.
Qed.

Lemma nanmean_none l : nanmean l = None <-> forall c, In c l -> c = None.
Proof.
  rewrite <- present_nil. unfold nanmean.
  destruct (present l); split; congruence.
Qed.

Lemma fill_row_length row : forall fill,
  List.length (fill_row row fill) = List.length row.
Proof.
  induction row as [|c row IH]; intros [|m fill]; simpl; try reflexivity.
  rewrite IH. reflexivity.
Qed.

Lemma count_nan_all df :
  (forall r, In r (rows df) -> forall c, In c (snd r) -> c <> None) ->
  count_nan df = O.
Proof.
  unfold count_nan. induction (rows df) as [|a rs IH]; simpl; intros H;
    [reflexivity|].
  rewrite IH by (intros r Hr; apply H; right; exact Hr).
  rewrite Nat.add_0_r.
  assert (Ha : forall c, In c (snd a) -> c <> None)
    by (apply H; left; reflexivity).
  clear H IH. induction (snd a) as [|c cs IHc]; simpl; [reflexivity|].
  destruct c as [x|]; simpl.
  - apply IHc. intros c Hc. apply Ha. right. exact Hc.
  - exfalso. apply (Ha None); [left; reflexivity|reflexivity].
Qed.

Lemma column_mean_none df j :
  nanmean (map nan_abs (column j (rows df))) = None <->
  forall r, In r (rows df) -> cell_at j r = None.
Proof.
  rewrite nanmean_none. unfold column. rewrite map_map. split.
  - intros H r Hr.
    assert (E : nan_abs (cell_at j r) = None).
    { apply H. apply in_map_iff. exists r. auto. }
    destruct (cell_at j r); [discriminate|reflexivity].
  - intros H c Hc. apply in_map_iff in Hc. destruct Hc as (r & <- & Hr).
    rewrite (H r Hr). reflexivity.
Qed.

(** X17.  On a rectangular table the imputation goes through exactly when every
    missing value lies in a column where some model has a value; the run
    aborts with "NaN still in errors" as soon as one location is missing for
    all the models of the table. *)
Theorem impute_runs_iff (df : frame) :
  rectangular df ->
  ((exists t, impute df = Done t) <->
   forall r j, In r (rows df) -> (j < List.length (columns df))%nat ->
               cell_at j r = None ->
               exists r', In r' (rows df) /\ cell_at j r' <> None)
  /\ ((exists r j, In r (rows df) /\ (j < List.length (columns df))%nat
                   /\ forall r', In r' (rows df) -> cell_at j r' = None) ->
      exists msg, impute df = Abort msg).
Proof.
  intros Hrect.
  assert (Hfwd : forall t, impute df = Done t ->
            forall r j, In r (rows df) -> (j < List.length (columns df))%nat ->
                        cell_at j r = None ->
                        exists r', In r' (rows df) /\ cell_at j r' <> None).
  { intros t Ht r j Hr Hj Hc.
    destruct (impute_done _ Ht) as [Et Hnan].
    pose proof (count_nan_zero _ Hnan) as Hcells. rewrite Et in Hcells.
    assert (Hmean : nanmean (map nan_abs (column j (rows df))) <> None).
    { rewrite <- (abs_mean_nth _ Hj).
      assert (Hlen : List.length (snd r) = List.length (abs_mean df))
        by (rewrite abs_mean_length; apply Hrect; exact Hr).
      pose proof (fill_row_nth (snd r) (abs_mean df) j Hlen) as Hn.
      unfold cell_at in Hc. rewrite Hc in Hn. rewrite <- Hn.
      apply (Hcells (fst r, fill_row (snd r) (abs_mean df))).
      - cbn [rows fillna]. apply in_map_iff. exists r. auto.
      - cbn [snd]. apply nth_In. rewrite fill_row_length, (Hrect r Hr).
        exact Hj. }
    assert (Hex : ~ forall r', In r' (rows df) -> cell_at j r' = None).
    { intros Hall. apply Hmean. apply column_mean_none. exact Hall. }
    clear - Hex. induction (rows df) as [|a rs IH].
    - exfalso. apply Hex. intros r' [].
    - destruct (cell_at j a) eqn:E.
      + exists a. split; [left; reflexivity|congruence].
      + destruct IH as (r' & Hr' & Hn).
        * intros Hall. apply Hex. intros r' [<-|Hr']; [exact E|exact (Hall r' Hr')].
        * exists r'. split; [right; exact Hr'|exact Hn]. }
  assert (Hbwd : (forall r j, In r (rows df) -> (j < List.length (columns df))%nat ->
                              cell_at j r = None ->
                              exists r', In r' (rows df) /\ cell_at j r' <> None) ->
                 exists t, impute df = Done t).
  { intros Hall. unfold impute.
    rewrite count_nan_all; [eexists; reflexivity|].
    intros r' Hr' c Hc. cbn [rows fillna] in Hr'. apply in_map_iff in Hr'.
    destruct Hr' as (r & <- & Hr). cbn [snd] in Hc.
    destruct (In_nth _ _ None Hc) as (j & Hj & <-).
    rewrite fill_row_length, (Hrect r Hr) in Hj.
    rewrite fill_row_nth by (rewrite abs_mean_length; apply Hrect; exact Hr).
    destruct (nth j (snd r) None) as [x|] eqn:E; [discriminate|].
    rewrite (abs_mean_nth _ Hj).
    destruct (Hall r j Hr Hj E) as (r' & Hr' & Hn).
    intros Hmean. apply Hn. apply (proj1 (column_mean_none df j) Hmean r' Hr'). }
  split; [split; [intros (t & Ht); exact (Hfwd t Ht)|exact Hbwd]|].
  intros (r & j & Hr & Hj & Hnone).
  destruct (impute df) as [t|msg] eqn:E; [|eexists; reflexivity].
  exfalso. destruct (Hfwd t eq_refl r j Hr Hj (Hnone r Hr)) as (r' & Hr' & Hn).
  apply Hn. apply Hnone. exact Hr'.
Qed.

Lemma impute_runs_iff_witness :
  exists msg,
    impute (mkFrame ["Alabama"; "Alaska"]
                    [("A-one", [Some 1%Q; None]); ("B-two", [Some 2%Q; None])])
    = Abort msg.
Proof.
  destruct (@impute_runs_iff
              (mkFrame ["Alabama"; "Alaska"]
                       [("A-one", [Some 1%Q; None]); ("B-two", [Some 2%Q; None])]))
    as (_ & H).
  - intros r [<-|[<-|[]]]; reflexivity.
  - apply H. exists ("A-one", [Some 1%Q; None]), 1%nat.
    split; [left; reflexivity|]. split; [simpl; lia|].
    intros r' [<-|[<-|[]]]; reflexivity.
Defined.
End ImputeTotalFacts.

(** ** Ranks *)

Section RankFacts.
Import Scorer.
Local Open Scope Q_scope.

Lemma filter_disjoint_length A (f g : A -> bool) l :
  (forall x, f x = true -> g x = false) ->
  (List.length (filter f l) + List.length (filter g l) <= List.length l)%nat.
Proof.
  intros H. induction l as [|a l IH]; simpl; [lia|].
  destruct (f a) eqn:Hf.
  - rewrite (H a Hf). simpl. lia.
  - destruct (g a); simpl; lia.
Qed.

Lemma present_In l v : In v (present l) <-> In (Some v) l.
Proof.
  unfold present. rewrite in_flat_map. split.
  - intros ([x|] & Hx & Hin); [|destruct Hin].
    destruct Hin as [<-|[]]. exact Hx.
  - intros H. exists (Some v). split; [exact H|left; reflexivity].
Qed.

Lemma present_length l : (List.length (present l) <= List.length l)%nat.
Proof.
  unfold present. induction l as [|a l IH]; simpl; [lia|].
  rewrite length_app. destruct a; simpl; lia.
Qed.

Lemma filter_pos_length A (f : A -> bool) l x :
  In x l -> f x = true -> (1 <= List.length (filter f l))%nat.
Proof.
  intros Hin Hf.
  assert (H : In x (filter f l)) by (apply filter_In; auto).
  destruct (filter f l); [destruct H|simpl; lia].
Qed.

Lemma rank_cell_bounds col v :
  In (Some v) col ->
  exists q, rank_cell col (Some v) = Some q
            /\ 1 <= q /\ q <= inject_Z (Z.of_nat (List.length col)).
Proof.
  intros Hin. unfold rank_cell.
  set (less := List.length (filter (fun x => Qlt_bool x v) (present col))).
  set (same := List.length (filter (fun x => Qeq_bool x v) (present col))).
  assert (Hsame : (1 <= same)%nat).
  { apply filter_pos_length with v; [apply present_In; exact Hin|].
    apply Qeq_bool_iff. reflexivity. }
  assert (Hsum : (less + same <= List.length col)%nat).
  { eapply Nat.le_trans; [|apply (present_length col)].
    apply filter_disjoint_length. intros x Hx.
    apply Qlt_bool_iff in Hx. destruct (Qeq_bool x v) eqn:E; [|reflexivity].
    apply Qeq_bool_iff in E. rewrite E in Hx. exfalso.
    exact (Qlt_irrefl _ Hx). }
  eexists. split; [reflexivity|].
  unfold Qle, Qplus, Qdiv, Qmult, Qinv, inject_Z. simpl. lia.
Qed.

(** X18.  The ranks are taken over the rows of the imputed table whose name does
    not start with "Baseline", in their order; the baseline model
    COVIDhub-baseline is not such a name, so it is ranked with the others.
    Every rank is present and lies between 1 and the number of ranked
    models. *)
Theorem ranks_rows_and_range (evaluate_counties : bool) (df_errors : frame)
        (a : aggregates) :
  aggregate evaluate_counties df_errors = Done a ->
  map fst (rows (df_ranks a))
  = filter (fun m => negb (String.prefix "Baseline" m))
           (map fst (rows (df_errors_states a)))
  /\ (In baseline (map fst (rows (df_errors_states a))) ->
      In baseline (map fst (rows (df_ranks a))))
  /\ forall r c, In r (rows (df_ranks a)) -> In c (snd r) ->
       exists q, c = Some q
                 /\ 1 <= q
                 /\ q <= inject_Z (Z.of_nat (List.length (rows (df_ranks a)))).
Proof.
  unfold aggregate.
  destruct (state_errors evaluate_counties df_errors) as [t|] eqn:Ht;
    cbn [bind]; [|discriminate].
  intros E. inversion E; subst a; clear E.
  cbn [df_ranks df_errors_states].
  set (kept := filter (fun r : string * list cell =>
                         negb (String.prefix "Baseline" (fst r)))
                      (rows t)).
  assert (Hlabels : map fst (rows (rank (map_cells Qabs (mkFrame (columns t) kept))))
                    = filter (fun m => negb (String.prefix "Baseline" m))
                             (map fst (rows t))).
  { cbn [rank map_cells rows columns]. rewrite !map_map. cbn [fst].
    unfold kept. clear. induction (rows t) as [|r rs IH]; [reflexivity|].
    cbn [filter map]. destruct (negb (String.prefix "Baseline" (fst r)));
      cbn [map]; rewrite IH; reflexivity. }
  split; [exact Hlabels|]. split.
  - intros Hin. rewrite Hlabels. apply filter_In. split; [exact Hin|reflexivity].
  - assert (Hcells : forall r c, In r (rows t) -> In c (snd r) -> c <> None).
    { unfold state_errors in Ht.
      destruct (drop_column "US" df_errors) as [d|]; cbn [bind] in Ht;
        [|discriminate].
      destruct (impute_done _ Ht) as [_ Hnan].
      intros r c Hr Hc. exact (@count_nan_zero _ Hnan r Hr c Hc). }
    intros r c Hr Hc.
    cbn [rank map_cells rows columns] in Hr.
    set (rs := map (fun r : labelled => (fst r, map (option_map Qabs) (snd r))) kept) in *.
    apply in_map_iff in Hr. destruct Hr as (r0 & <- & Hr0). cbn [snd] in Hc.
    apply in_map_iff in Hc. destruct Hc as (j & <- & Hj).
    apply in_seq in Hj.
    assert (Hin : In (cell_at j r0) (snd r0)).
    { unfold cell_at. apply nth_In. lia. }
    assert (Hsome : exists v, cell_at j r0 = Some v).
    { unfold rs in Hr0. apply in_map_iff in Hr0. destruct Hr0 as (r1 & <- & Hr1).
      cbn [snd] in Hin. apply in_map_iff in Hin. destruct Hin as (c1 & E1 & Hc1).
      unfold kept in Hr1. apply filter_In in Hr1. destruct Hr1 as [Hr1 _].
      destruct c1 as [x|]; [|exfalso; exact (Hcells r1 None Hr1 Hc1 eq_refl)].
      exists (Qabs x). symmetry. exact E1. }
    destruct Hsome as (v & Ev). rewrite Ev.
    destruct (@rank_cell_bounds (column j rs) v) as (q & Eq & Hlo & Hhi).
    { rewrite <- Ev. unfold column. apply in_map. exact Hr0. }
    exists q. split; [exact Eq|]. split; [exact Hlo|].
    replace (List.length (rows (rank (map_cells Qabs (mkFrame (columns t) kept)))))
      with (List.length (column j rs)); [exact Hhi|].
    cbn [rank map_cells rows columns]. unfold column, rs.
    rewrite !length_map. reflexivity.
Qed.

Lemma ranks_rows_and_range_witness :
  exists a,
    aggregate false Samples.df_errors = Done a
    /\ map fst (rows (df_ranks a)) = ["A-one"; "B-two"].
Proof.
  destruct (aggregate false Samples.df_errors) as [a|] eqn:E;
    [|vm_compute in E; discriminate E].
  exists a. split; [reflexivity|].
  destruct (ranks_rows_and_range _ _ E) as (H & _). rewrite H.
  vm_compute in E. inversion E. reflexivity.
Defined.
End RankFacts.
